(** * marmots: the tau point-source effective area and its decay sampler

    A shallow embedding of [marmots/tauola.py] and
    [marmots/effective_area.py].

    Conventions of the embedding.
    - A float64 is an exact rational ([Q]); the non-finite results numpy
      produces on a zero divisor, and the masked constant of [numpy.ma],
      are the extra constructors of [npval].  [np.array] of a list of
      scalars turns the masked constant into nan.
    - A 1-D ndarray is a list; a masked array is a list of options.
    - [numpy.random] is a cursor into the sequence of doubles the global
      generator is going to produce.
    - The functions of the packages that are not part of the two modules
      (geometry, antenna, the tau exit table, the voltage model, the
      constants, the decay file) are fields of [Env].
    - [Ptrig] lives in a store of buffers, and an index expression yields
      either a view of a buffer or a fresh buffer, as numpy does. *)

From Stdlib Require Import QArith ZArith Lia Lqa String.
From stdpp Require Import base list.

(** ** numpy values *)

Inductive npval : Type :=
| Fin (q : Q)
| PInf
| NInf
| NaN
| Masked.

Inductive exn : Type :=
| ValueError (what : string)
| IndexError (what : string).

Inductive result (A : Type) : Type :=
| Ok (a : A)
| Raise (e : exn).
Arguments Ok {A} a.
Arguments Raise {A} e.

Definition Qltb (x y : Q) : bool := negb (Qle_bool y x).

(** [x / d] on float64: a zero divisor gives a signed infinity or nan. *)
Definition np_div (x d : Q) : npval :=
  if Qeq_bool d 0 then
    (if Qeq_bool x 0 then NaN else if Qltb 0 x then PInf else NInf)
  else Fin (x / d).

(** [v > t] for a float [v]: comparisons with nan are false. *)
Definition np_gt (v : npval) (t : Q) : bool :=
  match v with
  | Fin q => Qltb t q
  | PInf => true
  | _ => false
  end.

Definition b2q (b : bool) : Q := if b then 1%Q else 0%Q.

Definition np_sum (l : list Q) : Q := foldr Qplus 0%Q l.

(** ** Boolean-mask indexing on one array

    [a[m]] gathers the entries of [a] where [m] is true; the mask has to
    be as long as the array.  [a[m] = v] writes [v] to those places; [v]
    has either as many entries as the mask has true ones, or one entry,
    which is repeated. *)

Fixpoint select {A} (a : list A) (m : list bool) : list A :=
  match a, m with
  | x :: a', b :: m' => if b then x :: select a' m' else select a' m'
  | _, _ => []
  end.

Fixpoint scatter {A} (a : list A) (m : list bool) (v : list A) : list A :=
  match a, m with
  | x :: a', true :: m' =>
      match v with
      | y :: v' => y :: scatter a' m' v'
      | [] => x :: scatter a' m' []
      end
  | x :: a', false :: m' => x :: scatter a' m' v
  | _, _ => a
  end.

Fixpoint fill {A} (a : list A) (m : list bool) (y : A) : list A :=
  match a, m with
  | x :: a', b :: m' => (if b then y else x) :: fill a' m' y
  | _, _ => a
  end.

Definition count_true (m : list bool) : nat := length (select m m).

Definition getitem_mask {A} (a : list A) (m : list bool) : result (list A) :=
  if (length m =? length a)%nat then Ok (select a m)
  else Raise (IndexError "boolean index did not match indexed array").

Definition setitem_mask {A} (a : list A) (m : list bool) (v : list A)
  : result (list A) :=
  if negb (length m =? length a)%nat then
    Raise (IndexError "boolean index did not match indexed array")
  else if (length v =? count_true m)%nat then Ok (scatter a m v)
  else match v with
       | [y] => Ok (fill a m y)
       | _ => Raise (ValueError "cannot assign input values to the mask")
       end.

Definition setitem_mask_scalar {A} (a : list A) (m : list bool) (y : A)
  : result (list A) :=
  if (length m =? length a)%nat then Ok (fill a m y)
  else Raise (IndexError "boolean index did not match indexed array").

(** Element-wise binary operation on two 1-D arrays, with numpy's
    broadcasting rule: equal lengths, or one of them of length one. *)
Definition broadcast2 {A B C} (f : A -> B -> C) (a : list A) (b : list B)
  : result (list C) :=
  if (length a =? length b)%nat then Ok (zip_with f a b)
  else match a, b with
       | [x], _ => Ok (map (f x) b)
       | _, [y] => Ok (map (fun x => f x y) a)
       | _, _ => Raise (ValueError "operands could not be broadcast together")
       end.

(** [np.arange(K)] as floats. *)
Definition np_arange (K : nat) : list Q :=
  map (fun i => inject_Z (Z.of_nat i)) (seq 0 K).

(** [np.sort]: ascending. *)
Fixpoint insert_sorted (x : Q) (l : list Q) : list Q :=
  match l with
  | [] => [x]
  | y :: l' => if Qle_bool x y then x :: l else y :: insert_sorted x l'
  end.

Definition np_sort (l : list Q) : list Q := foldr insert_sorted [] l.

(** [np.interp(x, xp, fp)] at one abscissa, [xp] increasing: [fp[0]] to
    the left of [xp[0]], the last [fp] to the right of the last [xp],
    [fp[j]] at [xp[j]], and [slope * (x - xp[j]) + fp[j]] in between. *)
Fixpoint interp_from (x x0 f0 : Q) (xp fp : list Q) : Q :=
  match xp, fp with
  | x1 :: xp', f1 :: fp' =>
      if Qltb x x1 then
        (if Qeq_bool x x0 then f0
         else (f1 - f0) / (x1 - x0) * (x - x0) + f0)%Q
      else interp_from x x1 f1 xp' fp'
  | _, _ => f0
  end.

Definition interp1 (x : Q) (xp fp : list Q) : Q :=
  match xp, fp with
  | x0 :: xp', f0 :: fp' =>
      if Qltb x x0 then f0 else interp_from x x0 f0 xp' fp'
  | _, _ => 0%Q
  end.

Definition np_interp (x xp fp : list Q) : result (list Q) :=
  if (length xp =? 0)%nat then
    Raise (ValueError "array of sample points is empty")
  else if negb (length fp =? length xp)%nat then
    Raise (ValueError "fp and xp are not of the same length")
  else Ok (map (fun xi => interp1 xi xp fp) x).

(** ** Data of the two modules *)

Record vec3 : Type := V3 { vx : Q; vy : Q; vz : Q }.

Definition vadd (a b : vec3) : vec3 :=
  V3 (vx a + vx b) (vy a + vy b) (vz a + vz b).
Definition vsub (a b : vec3) : vec3 :=
  V3 (vx a - vx b) (vy a - vy b) (vz a - vz b).
Definition vscale (a : vec3) (k : Q) : vec3 :=
  V3 (vx a * k) (vy a * k) (vz a * k).
(** [v - s] for a scalar [s]: numpy subtracts it from every component. *)
Definition vsub_scalar (a : vec3) (s : Q) : vec3 :=
  V3 (vx a - s) (vy a - s) (vz a - s).

(** One row of [tauola_decay.dat]. *)
Record decay_row : Type := DecayRow {
  nu_tau : Q; nu_mu : Q; nu_e : Q; hadron : Q; muon : Q; electron : Q
}.

(** What [geometry.geometric_area] returns. *)
Record GeometricArea : Type := {
  trials : list vec3;
  axis : vec3;
  emergence : list Q;
  area : Q;
  dot : list Q;
  stations_geocentric : list vec3;
  stations_geodetic : list vec3;
  Ag_orientations : list Q;
  Ag_fov : list Q;
  dbeacon : list (list Q)
}.

(** The sixteen positional arguments of the voltage model. *)
Record VoltageArgs : Type := {
  va_decay_view : list Q;
  va_exit_zenith : list Q;
  va_decay_altitude : list Q;
  va_decay_length : list Q;
  va_decay_zenith : list Q;
  va_decay_azimuth : list Q;
  va_distance_to_decay : list Q;
  va_detector_altitude : Q;
  va_geodetic : vec3;
  va_dbeacon : list Q;
  va_freqs : list Q;
  va_Eshower : list Q;
  va_antennas : Z;
  va_theta : list Q;
  va_phi_from_boresight : list Q;
  va_fov : Q
}.

(** The rest of the package and of numpy, as the two modules use it. *)
Record Env : Type := {
  (* tauola_decay.dat, as loaded on import *)
  decays : list decay_row;
  (* the doubles in [0,1) the global generator produces, in order *)
  draws : nat -> Q;
  (* the standard exponential deviate made from one double *)
  std_exponential : Q -> Q;
  (* marmots.constants.Re *)
  Re : Q;
  np_pi : Q;
  rad2deg : Q -> Q;
  (* np.linalg.norm of one 3-vector *)
  norm : vec3 -> Q;
  geometric_area :
    Q -> Q -> list Q -> list Q -> list Q -> Q -> list Q -> list Q -> Z ->
    GeometricArea;
  cartesian_to_spherical : list vec3 -> list vec3;
  decay_zenith_azimuth :
    list vec3 -> vec3 -> list vec3 -> list vec3 -> list Q * list Q;
  view_angle : list vec3 -> list vec3 -> vec3 -> list (list Q);
  decay_view : list vec3 -> vec3 -> vec3 -> list Q;
  obs_zenith_azimuth :
    vec3 -> list vec3 -> vec3 -> list vec3 -> list Q * list Q;
  distance_to_horizon : Q -> Q -> Q;
  horizon_angle : Q -> Q -> Q;
  Vrms : list Q -> Z -> Q
}.

(** ** The store, the generator and the trace of calls *)

Inductive event : Type :=
| CallGeometricArea (N : Z)
| CallTauExit (zenith_deg : list Q)
| CallSampleRange (Etau : list Q)
| CallSampleShowerEnergies (Etau : list Q) (N : Z)
| CallVrms (freqs : list Q) (antennas : Z)
| CallViewAngle
| CallVoltage (station : nat) (a : VoltageArgs)
| CallDistanceToHorizon (station : nat) (height radius : Q)
| CallHorizonAngle (station : nat) (height radius : Q).

Record state : Type := State {
  rng : nat;
  heap : list (list Q);
  log : list event
}.

Definition M (A : Type) : Type := state -> result (A * state).

Definition ret {A} (a : A) : M A := fun s => Ok (a, s).

Definition bind {A B} (m : M A) (k : A -> M B) : M B :=
  fun s => match m s with
           | Ok (a, s') => k a s'
           | Raise e => Raise e
           end.

Definition lift {A} (r : result A) : M A :=
  fun s => match r with
           | Ok a => Ok (a, s)
           | Raise e => Raise e
           end.

Definition emit (e : event) : M unit :=
  fun s => Ok (tt, State (rng s) (heap s) (log s ++ [e])).

#[global] Instance M_ret : MRet M := @ret.
#[global] Instance M_bind : MBind M := fun A B k m => bind m k.

(** [np.random.uniform(size=n)]. *)
Definition np_random_uniform (E : Env) (size : Z) : M (list Q) :=
  fun s =>
    if (size <? 0)%Z then
      Raise (ValueError "negative dimensions are not allowed")
    else
      let n := Z.to_nat size in
      Ok (map (draws E) (seq (rng s) n),
          State (rng s + n) (heap s) (log s)).

(** [np.random.exponential(scale)] for an array of scales. *)
Definition np_random_exponential (E : Env) (scale : list Q) : M (list Q) :=
  fun s =>
    if forallb (fun c => Qle_bool 0 c) scale then
      let n := length scale in
      Ok (zip_with (fun c u => (c * std_exponential E u)%Q)
                   scale (map (draws E) (seq (rng s) n)),
          State (rng s + n) (heap s) (log s))
    else Raise (ValueError "scale < 0").

(** ** marmots/tauola.py *)

Section Tauola.
Context (E : Env).

(** Modelled from the spec: the ShowerType enumeration, which tauola.py
    imports and does not declare; Hadronic is 0. *)
Definition Hadronic : Z := 0.

(** Modelled from the spec: the ShowerType enumeration, which tauola.py
    imports and does not declare; Electromagnetic is 1. *)
Definition Electromagnetic : Z := 1.

Definition positive (l : list Q) : list bool := map (Qltb 0) l.

Definition electrons : list Q := map electron (decays E).
Definition hadrons : list Q := map hadron (decays E).

(** the number of electromagnetic or hadronic showers *)
Definition Nem : nat := count_true (positive electrons).
Definition Nhad : nat := count_true (positive hadrons).

(** the total number of EM or hadronic showers in the decay file *)
Definition Nshowers : nat :=
  count_true (zip_with orb (positive electrons) (positive hadrons)).

(** the sorted fractional shower energies for hadronic and EM showers *)
Definition Eem : list Q := np_sort (select electrons (positive electrons)).
Definition Ehad : list Q := np_sort (select hadrons (positive hadrons)).

Definition nat2q (n : nat) : Q := inject_Z (Z.of_nat n).

(** [u > p] for a double [u] and a float [p]. *)
Definition gt_float (u : Q) (p : npval) : bool :=
  match p with
  | Fin q => Qltb q u
  | NInf => true
  | _ => false
  end.

Definition sample_shower_type (N : Z) : M (list Z) :=
  (* draw a uniform random number *)
  u ← np_random_uniform E N;
  (* and the probability that a shower is electromagnetic *)
  let Pem := np_div (nat2q Nem) (nat2q Nshowers) in
  (* create the array to store each shower type *)
  let stypes := replicate (Z.to_nat N) 0%Z in
  (* and fill in the electromagnetic (non-zero) *)
  lift (setitem_mask_scalar stypes (map (fun ui => gt_float ui Pem) u)
                            Electromagnetic).

Definition sample_energy_fraction (stypes : list Z) : M (list Q) :=
  (* generate N uniform samples to sample our CDFs *)
  u ← np_random_uniform E (Z.of_nat (length stypes));
  (* create the array to store the energy fractions *)
  let fractions := map (fun _ => 0%Q) u in
  (* the indices that correspond to electromagnetic and hadronic showers *)
  let emshowers := map (Z.eqb Electromagnetic) stypes in
  let hadshowers := map (Z.eqb Hadronic) stypes in
  (* interpolate into the sorted shower energies for EM *)
  uem ← lift (getitem_mask u emshowers);
  fem ← lift (np_interp (map (Qmult (nat2q Nem)) uem) (np_arange Nem) Eem);
  fractions ← lift (setitem_mask fractions emshowers fem);
  uhad ← lift (getitem_mask u hadshowers);
  fhad ← lift (np_interp (map (Qmult (nat2q Nhad)) uhad)
                         (np_arange Nhad) Ehad);
  lift (setitem_mask fractions hadshowers fhad).

Definition sample_tau_energies (Enu : Q) (N : Z) : M (list Q) :=
  (* random sample a set of shower types *)
  stypes ← sample_shower_type N;
  (* and sample some corresponding energy fractions *)
  Efrac ← sample_energy_fraction stypes;
  (* and return the corresponding energy of tau's *)
  mret (map (Qmult Enu) Efrac).

(** d(E) = (4.9 km) * (Etau / 1e17 eV) *)
Definition sample_range (Etau : list Q) : M (list Q) :=
  np_random_exponential E (map (Qmult (49 # 1000000000000000000)) Etau).

(** Modelled from the spec: [tauola.sample_shower_energies], which
    [calculate] calls and [tauola.py] does not define.  The spec asks for
    the two-step sampling of [sample_tau_energies] applied across the
    array of tau energies: one shower type and one energy fraction per
    entry, each tau energy multiplied by its own fraction. *)
Definition sample_shower_energies (Etau : list Q) (N : Z) : M (list Q) :=
  stypes ← sample_shower_type N;
  Efrac ← sample_energy_fraction stypes;
  lift (broadcast2 Qmult Etau Efrac).

End Tauola.

(** ** The ndarray store

    A 2-D array owns one buffer, stored row after row.  [a[i]] is a view:
    a window on the buffer of [a].  [v[mask]] is a new array with a
    buffer of its own.  [v[mask] = x] writes through [v] into the buffer
    [v] is a window on. *)

Record array2 : Type := { a_base : nat; a_rows : nat; a_cols : nat }.
Record ndview : Type := { v_base : nat; v_off : nat; v_len : nat }.

Definition alloc (buf : list Q) : M nat :=
  fun s => Ok (length (heap s), State (rng s) (heap s ++ [buf]) (log s)).

(** [np.zeros((r, c))] *)
Definition np_zeros2 (r c : nat) : M array2 :=
  b ← alloc (replicate (r * c) 0%Q);
  mret {| a_base := b; a_rows := r; a_cols := c |}.

(** [a[i]] *)
Definition getitem_row (a : array2) (i : nat) : M ndview :=
  if (i <? a_rows a)%nat then
    mret {| v_base := a_base a; v_off := i * a_cols a; v_len := a_cols a |}
  else lift (Raise (IndexError "index is out of bounds for axis 0")).

Definition window (v : ndview) (buf : list Q) : list Q :=
  take (v_len v) (drop (v_off v) buf).

Definition set_window (v : ndview) (buf new : list Q) : list Q :=
  take (v_off v) buf ++ new ++ drop (v_off v + v_len v) buf.

Definition view_read (v : ndview) : M (list Q) :=
  fun s => match heap s !! v_base v with
           | Some buf => Ok (window v buf, s)
           | None => Raise (IndexError "no such buffer")
           end.

Definition view_write (v : ndview) (new : list Q) : M unit :=
  fun s => match heap s !! v_base v with
           | Some buf =>
               Ok (tt, State (rng s)
                             (<[v_base v := set_window v buf new]> (heap s))
                             (log s))
           | None => Raise (IndexError "no such buffer")
           end.

(** [v[mask]]: a copy *)
Definition view_getitem_mask (v : ndview) (m : list bool) : M ndview :=
  d ← view_read v;
  c ← lift (getitem_mask d m);
  b ← alloc c;
  mret {| v_base := b; v_off := 0; v_len := length c |}.

(** [v[mask] = x] for an array [x] *)
Definition view_setitem_mask (v : ndview) (m : list bool) (x : list Q)
  : M unit :=
  d ← view_read v;
  d' ← lift (setitem_mask d m x);
  view_write v d'.

(** [v[mask] = x] for a scalar [x] *)
Definition view_setitem_mask_scalar (v : ndview) (m : list bool) (x : Q)
  : M unit :=
  d ← view_read v;
  d' ← lift (setitem_mask_scalar d m x);
  view_write v d'.

Definition rows_of (r c : nat) (buf : list Q) : list (list Q) :=
  map (fun i => take c (drop (i * c) buf)) (seq 0 r).

(** [np.sum(a, axis=0)] *)
Definition sum_axis0 (c : nat) (rows : list (list Q)) : list Q :=
  foldr (zip_with Qplus) (replicate c 0%Q) rows.

Definition array2_read (a : array2) : M (list (list Q)) :=
  fun s => match heap s !! a_base a with
           | Some buf => Ok (rows_of (a_rows a) (a_cols a) buf, s)
           | None => Raise (IndexError "no such buffer")
           end.

(** [a[i]] on a Python-level sequence or the first axis of an array *)
Definition getitem {A} (l : list A) (i : nat) : M A :=
  match l !! i with
  | Some x => mret x
  | None => lift (Raise (IndexError "index is out of bounds for axis 0"))
  end.

(** [for i in range(n)] *)
Fixpoint for_range (l : list nat) (body : nat -> M unit) : M unit :=
  match l with
  | [] => mret tt
  | i :: l' => body i;; for_range l' body
  end.

(** ** Masked arrays ([numpy.ma]) *)

Definition filled0 (l : list (option Q)) : list Q :=
  map (fun o => match o with Some q => q | None => 0%Q end) l.

Definition ma_count (l : list (option Q)) : nat :=
  count_true (map (fun o => match o with Some _ => true | None => false end) l).

(** [np.sum] of a masked array: the masked entries are filled with zero;
    the result is the masked constant when nothing is left unmasked. *)
Definition ma_sum (l : list (option Q)) : option Q :=
  if (ma_count l =? 0)%nat then None else Some (np_sum (filled0 l)).

(** [np.mean] of a masked array: the sum over the count of unmasked
    entries, and the masked constant when that count is zero. *)
Definition ma_mean (l : list (option Q)) : npval :=
  if (ma_count l =? 0)%nat then Masked
  else Fin (np_sum (filled0 l) * 1 / nat2q (ma_count l)).

(** [np.mean] of a plain array: nan on an empty one. *)
Definition np_mean (l : list Q) : npval :=
  match l with
  | [] => NaN
  | _ => Fin (np_sum l / nat2q (length l))
  end.

(** One entry of [np.array([...])]: a float array has no masked entry,
    the masked constant is stored as nan. *)
Definition unmask (v : npval) : npval :=
  match v with
  | Masked => NaN
  | _ => v
  end.

(** [np.array([a, b, ...])] on scalars *)
Definition np_array (l : list npval) : list npval := map unmask l.

(** ** marmots/effective_area.py *)

Section EffectiveArea.
Context (E : Env).

Definition mul_masked (x : Q) (p : option Q) : option Q :=
  match p with Some v => Some (x * v)%Q | None => None end.

Definition masked_mul (p : option Q) (d : bool) : option Q :=
  match p with Some v => Some (v * b2q d)%Q | None => None end.

(** One turn of the loop over the stations (lines 118 to 186). *)
Definition station_iteration
    (Ag : GeometricArea) (voltage : VoltageArgs -> list (list Q))
    (maxview : Q) (antennas : Z) (freqs : list Q) (trigger_SNR : Q)
    (decay_length Eshower : list Q) (decay_point : list vec3)
    (decay_altitude exit_zenith : list Q) (decay_point_spherical : list vec3)
    (decay_zenith decay_azimuth : list Q) (vrms : Q)
    (Ptrig : array2) (ground_view : list (list Q)) (i : nat) : M unit :=
  gv ← getitem ground_view i;
  let in_sight := map (fun g => Qle_bool g maxview) gv in
  station ← getitem (stations_geocentric Ag) i;
  dp ← lift (getitem_mask decay_point in_sight);
  let distance_to_decay := map (fun p => norm E (vsub station p)) dp in
  (* calculate the view angle from the decay points *)
  let decay_view := decay_view E dp (axis Ag) station in
  (* the zenith and azimuth from the station to each decay point *)
  geodetic ← getitem (stations_geodetic Ag) i;
  dps ← lift (getitem_mask decay_point_spherical in_sight);
  let '(theta, phi) := obs_zenith_azimuth E station dp geodetic dps in
  orientation ← getitem (Ag_orientations Ag) i;
  let phi_from_boresight := map (fun p => (p - orientation)%Q) phi in
  let detector_altitude := norm E (vsub_scalar station (Re E)) in
  (* compute the voltage at each of these off-axis angles *)
  da ← lift (getitem_mask decay_altitude in_sight);
  dl ← lift (getitem_mask decay_length in_sight);
  dz ← lift (getitem_mask decay_zenith in_sight);
  daz ← lift (getitem_mask decay_azimuth in_sight);
  dbrow ← getitem (dbeacon Ag) i;
  db ← lift (getitem_mask dbrow in_sight);
  es ← lift (getitem_mask Eshower in_sight);
  fv ← getitem (Ag_fov Ag) i;
  let args :=
    {| va_decay_view := map (rad2deg E) decay_view;
       va_exit_zenith := map (rad2deg E) exit_zenith;
       va_decay_altitude := da;
       va_decay_length := dl;
       va_decay_zenith := map (rad2deg E) dz;
       va_decay_azimuth := map (rad2deg E) daz;
       va_distance_to_decay := distance_to_decay;
       va_detector_altitude := detector_altitude;
       va_geodetic := geodetic;
       va_dbeacon := db;
       va_freqs := freqs;
       va_Eshower := es;
       va_antennas := antennas;
       va_theta := map (rad2deg E) theta;
       va_phi_from_boresight := map (rad2deg E) phi_from_boresight;
       va_fov := fv |} in
  emit (CallVoltage i args);;
  let V := voltage args in
  (* calculate the SNR *)
  let SNR := map (fun row => np_div (np_sum row) vrms) V in
  (* and check for a trigger *)
  row ← getitem_row Ptrig i;
  view_setitem_mask row in_sight
    (map (fun s => b2q (np_gt s trigger_SNR)) SNR);;
  (* and use this to compute the angle below ANITA's horizontal *)
  let elev := map (fun t => (np_pi E / 2 - t)%Q) theta in
  (* calculate the distance (km) to the horizon from ANITA *)
  emit (CallDistanceToHorizon i detector_altitude (Re E));;
  let horizon_distance := distance_to_horizon E detector_altitude (Re E) in
  (* the decay points that are further away than the horizon *)
  let beyond := map (fun d => Qltb horizon_distance d) distance_to_decay in
  (* and the particles that appear to be below the horizon *)
  emit (CallHorizonAngle i detector_altitude (Re E));;
  let ha := horizon_angle E detector_altitude (Re E) in
  let below := map (fun e => Qltb e ha) elev in
  (* those that are beyond the horizon and below the horizon *)
  invisible ← lift (broadcast2 andb beyond below);
  (* Ptrig[i][in_sight][invisible] = 0.0 *)
  row ← getitem_row Ptrig i;
  tmp ← view_getitem_mask row in_sight;
  view_setitem_mask_scalar tmp invisible 0%Q;;
  (* Ptrig[i][in_sight][elev > 0.0] = 0.0 *)
  row ← getitem_row Ptrig i;
  tmp ← view_getitem_mask row in_sight;
  view_setitem_mask_scalar tmp (map (fun e => Qltb 0 e) elev) 0%Q.

(** The four coefficients (lines 188 to 194) and the array that is
    returned (line 198). *)
Definition aggregate (Ag : GeometricArea) (N : Z) (n_stations : nat)
    (Pexit : list (option Q)) (Ptrig : list (list Q)) (ncols : nat)
  : M (list npval) :=
  let Pdet := map (fun c => Qltb 0 c) (sum_axis0 ncols Ptrig) in
  let denom := inject_Z (N * Z.of_nat n_stations) in
  let geometric := np_div (area Ag * np_sum (dot Ag)) denom in
  let pexit := ma_mean Pexit in
  let pdet := np_mean (map b2q Pdet) in
  w ← lift (broadcast2 mul_masked (map (Qmult (area Ag)) (dot Ag)) Pexit);
  w ← lift (broadcast2 masked_mul w Pdet);
  let effective_area :=
    match ma_sum w with
    | Some t => np_div t denom
    | None => Masked
    end in
  (* and now return the computed parameters *)
  mret (np_array [geometric; pexit; pdet; effective_area]).

Definition calculate
    (ra dec : Q) (lat lon altitude orientations fov : list Q)
    (tauexit : list Q -> list (option Q) * list Q)
    (voltage : VoltageArgs -> list (list Q))
    (maxview : Q) (N : Z) (antennas : Z) (freqs : list Q) (trigger_SNR : Q)
  : M (list npval) :=
  (* compute the geometric area at the desired elevation angles *)
  emit (CallGeometricArea N);;
  let Ag := geometric_area E ra dec lat lon altitude maxview
                           orientations fov N in
  if (length (emergence Ag) =? 0)%nat then
    mret (np_array [Fin 0; Fin 0; Fin 0; Fin 0])
  else
    (* get the exit probability at these elevation angles *)
    let zenith := map (fun e => (90 - rad2deg E e)%Q) (emergence Ag) in
    emit (CallTauExit zenith);;
    let '(Pexit, Etau) := tauexit zenith in
    (* get a random set of decay lengths at these energies *)
    emit (CallSampleRange Etau);;
    decay_length ← sample_range E Etau;
    (* and then sample the energy of the tau's *)
    emit (CallSampleShowerEnergies Etau (Z.of_nat (length decay_length)));;
    Eshower ← sample_shower_energies E Etau (Z.of_nat (length decay_length));
    (* location of the decay *)
    decay_point ← lift (broadcast2 (fun t d => vadd t (vscale (axis Ag) d))
                                   (trials Ag) decay_length);
    (* and get the altitude at the decay points *)
    let decay_altitude := map (fun p => (norm E p - Re E)%Q) decay_point in
    (* get the zenith angle at the exit points *)
    let exit_zenith := map (fun e => (np_pi E / 2 - e)%Q) (emergence Ag) in
    let decay_point_spherical := cartesian_to_spherical E decay_point in
    let axis_spherical := cartesian_to_spherical E [axis Ag] in
    let '(decay_zenith, decay_azimuth) :=
      decay_zenith_azimuth E decay_point (axis Ag)
                           decay_point_spherical axis_spherical in
    emit (CallVrms freqs antennas);;
    let vrms := Vrms E freqs antennas in
    let n_stations := length (stations_geocentric Ag) in
    Ptrig ← np_zeros2 n_stations (length (trials Ag));
    emit CallViewAngle;;
    let ground_view :=
      view_angle E (trials Ag) (stations_geocentric Ag) (axis Ag) in
    (* iterate over stations *)
    for_range (seq 0 n_stations)
      (station_iteration Ag voltage maxview antennas freqs trigger_SNR
         decay_length Eshower decay_point decay_altitude exit_zenith
         decay_point_spherical decay_zenith decay_azimuth vrms
         Ptrig ground_view);;
    P ← array2_read Ptrig;
    (* and save the various effective area coefficients at these angles *)
    aggregate Ag N n_stations Pexit P (a_cols Ptrig).

End EffectiveArea.

(** * Definitions for the statements *)

(** ** The sampler, sample by sample *)

Section ShowerTypeSpec.
Context (E : Env).

(** the probability that a shower is electromagnetic *)
Definition Pem : npval := np_div (nat2q (Nem E)) (nat2q (Nshowers E)).

(** The label of a sample, from its double. *)
Definition shower_type_of (u : Q) : Z :=
  if gt_float u Pem then Electromagnetic else Hadronic.

End ShowerTypeSpec.

(** An ascending list: every entry is at most the next one. *)
Fixpoint ascending (l : list Q) : Prop :=
  match l with
  | x :: (y :: _) as l' => (x <= y)%Q /\ ascending l'
  | _ => True
  end.

(** [np.max] of a list. *)
Fixpoint np_max (l : list Q) : Q :=
  match l with
  | [] => 0
  | [x] => x
  | x :: l' => if Qle_bool x (np_max l') then np_max l' else x
  end.

Section FractionSpec.
Context (E : Env).

Definition em_fraction (u : Q) : Q :=
  interp1 (nat2q (Nem E) * u) (np_arange (Nem E)) (Eem E).
Definition had_fraction (u : Q) : Q :=
  interp1 (nat2q (Nhad E) * u) (np_arange (Nhad E)) (Ehad E).

(** What one sample receives, from its shower type and its own double. *)
Definition fraction_of (t : Z) (u : Q) : Q :=
  if (Electromagnetic =? t)%Z then em_fraction u
  else if (Hadronic =? t)%Z then had_fraction u
  else 0%Q.

End FractionSpec.

(** [y] is what linear interpolation with clamping gives at abscissa [x]
    over the abscissae [0 .. K-1] paired with the ordinates [fp]. *)
Definition lerp_clamped (K : nat) (fp : list Q) (x y : Q) : Prop :=
  ((x < 0)%Q -> fp !! 0%nat = Some y) /\
  ((nat2q (K - 1) <= x)%Q -> last fp = Some y) /\
  (forall j fj fj1,
      (nat2q j <= x < nat2q j + 1)%Q ->
      fp !! j = Some fj -> fp !! S j = Some fj1 ->
      (y == fj + (fj1 - fj) * (x - nat2q j))%Q).

(** The count and the sorted fractions of the category of a shower type. *)
Definition reference_count (E : Env) (t : Z) : nat :=
  if (Electromagnetic =? t)%Z then Nem E else Nhad E.
Definition reference_fractions (E : Env) (t : Z) : list Q :=
  if (Electromagnetic =? t)%Z then Eem E else Ehad E.

(** ** A small configuration, for evaluating the model *)

Definition example_decays : list decay_row :=
  [ DecayRow (2#10) (1#10) (1#10) (6#10) 0 0;
    DecayRow (3#10) 0 (3#10) 0 0 (4#10);
    DecayRow (5#10) (3#10) 0 (2#10) 0 0;
    DecayRow (6#10) 0 (3#10) 0 0 (1#10);
    DecayRow (4#10) (4#10) 0 0 (2#10) 0 ].

Definition example_draws (i : nat) : Q :=
  inject_Z (Z.of_nat ((3 * i + 1) mod 8)) / 8.

(** The Euclidean norm of a vector whose squared length is the square of
    a rational; rounded down to a multiple of the denominator elsewhere. *)
Definition example_norm (v : vec3) : Q :=
  let q := Qred (vx v * vx v + vy v * vy v + vz v * vz v) in
  (Z.sqrt (Qnum q * Zpos (Qden q)) # Qden q).

(** An environment whose geometry returns the batch [Ag] whatever it is
    asked, sees every trial from every station, looks at every decay
    point under the zenith angle [theta0], and has its horizon at the
    distance [hd] and the angle [ha]. *)
Definition example_env (Ag : GeometricArea) (theta0 hd ha : Q) : Env :=
  {| decays := example_decays;
     draws := example_draws;
     std_exponential := fun u => u;
     Re := 6371;
     np_pi := 355 # 113;
     rad2deg := fun x => (x * 180 / (355 # 113))%Q;
     norm := example_norm;
     geometric_area := fun _ _ _ _ _ _ _ _ _ => Ag;
     cartesian_to_spherical := fun l => l;
     decay_zenith_azimuth :=
       fun dp _ _ _ => (map (fun _ => 0%Q) dp, map (fun _ => 0%Q) dp);
     view_angle :=
       fun tr st _ => map (fun _ => map (fun _ => 0%Q) tr) st;
     decay_view := fun dp _ _ => map (fun _ => 0%Q) dp;
     obs_zenith_azimuth :=
       fun _ dp _ _ => (map (fun _ => theta0) dp, map (fun _ => 0%Q) dp);
     distance_to_horizon := fun _ _ => hd;
     horizon_angle := fun _ _ => ha;
     Vrms := fun _ _ => 1%Q |}.

Definition state0 : state := State 0 [] [].

(** A station on the first axis, 6371/2378 km (about 2.7 km) above the
    sphere of radius 6371 km. *)
Definition example_station : vec3 := V3 (6371 + (6371 # 2378)) 0 0.

(** A batch whose array of dot weights has one entry, whatever the number
    of trials. *)
Definition short_dot_batch (n : nat) (stations : list vec3) : GeometricArea :=
  {| trials := replicate n (V3 6371 0 0);
     axis := V3 0 1 0;
     emergence := replicate n (1 # 100);
     area := 50;
     dot := [1 # 2];
     stations_geocentric := stations;
     stations_geodetic := stations;
     Ag_orientations := map (fun _ => 0%Q) stations;
     Ag_fov := map (fun _ => 120%Q) stations;
     dbeacon := map (fun _ => replicate n 1%Q) stations |}.

Definition example_batch (n : nat) (stations : list vec3) : GeometricArea :=
  {| trials := replicate n (V3 6371 0 0);
     axis := V3 0 1 0;
     emergence := replicate n (1 # 100);
     area := 50;
     dot := replicate n (1 # 2);
     stations_geocentric := stations;
     stations_geodetic := stations;
     Ag_orientations := map (fun _ => 0%Q) stations;
     Ag_fov := map (fun _ => 120%Q) stations;
     dbeacon := map (fun _ => replicate n 1%Q) stations |}.

Definition example_tauexit (p : option Q) (zen : list Q)
  : list (option Q) * list Q :=
  (map (fun _ => p) zen, map (fun _ => 100000000000000000%Q) zen).

Definition example_voltage (v : Q) (a : VoltageArgs) : list (list Q) :=
  map (fun _ => [v; v]) (va_distance_to_decay a).

Definition example_calculate (Ag : GeometricArea) (theta0 hd ha : Q)
    (p : option Q) (v : Q) (N : Z) : M (list npval) :=
  calculate (example_env Ag theta0 hd ha) 0 0 [] [] [] [] []
            (example_tauexit p) (example_voltage v) (3 # 100) N 4
            [35; 45; 55; 65; 75]%Q 5.

(** ** Shapes and coefficients *)

Definition is01 (q : Q) : Prop := q = 0%Q \/ q = 1%Q.

(** What the rest of the package has to respect for the shapes to agree
    in [calculate]: [n] trials and as many entries in every per-trial
    array, one row or entry per station in every per-station array, and
    collaborators that return one entry per entry they are given. *)
Record shapes_agree (E : Env) (Ag : GeometricArea)
    (tauexit : list Q -> list (option Q) * list Q)
    (voltage : VoltageArgs -> list (list Q)) : Prop := {
  sa_em : (0 < Nem E)%nat;
  sa_had : (0 < Nhad E)%nat;
  sa_emergence : length (emergence Ag) = length (trials Ag);
  sa_dot : length (dot Ag) = length (trials Ag);
  sa_geodetic :
    length (stations_geodetic Ag) = length (stations_geocentric Ag);
  sa_orientations :
    length (Ag_orientations Ag) = length (stations_geocentric Ag);
  sa_fov : length (Ag_fov Ag) = length (stations_geocentric Ag);
  sa_dbeacon : length (dbeacon Ag) = length (stations_geocentric Ag);
  sa_dbeacon_rows :
    Forall (fun r => length r = length (trials Ag)) (dbeacon Ag);
  sa_Pexit : forall z, length (tauexit z).1 = length z;
  sa_Etau : forall z, length (tauexit z).2 = length z;
  sa_Etau_nonneg : forall z, Forall (fun e => 0 <= e)%Q (tauexit z).2;
  sa_spherical : forall l, length (cartesian_to_spherical E l) = length l;
  sa_decay_zenith : forall dp ax dps axs,
    length (decay_zenith_azimuth E dp ax dps axs).1 = length dp;
  sa_decay_azimuth : forall dp ax dps axs,
    length (decay_zenith_azimuth E dp ax dps axs).2 = length dp;
  sa_view : forall tr st ax, length (view_angle E tr st ax) = length st;
  sa_view_rows : forall tr st ax,
    Forall (fun r => length r = length tr) (view_angle E tr st ax);
  sa_theta : forall st dp gd dps,
    length (obs_zenith_azimuth E st dp gd dps).1 = length dp;
  sa_voltage : forall a, length (voltage a) = length (va_distance_to_decay a)
}.

(** What [aggregate] returns when the shapes agree. *)
Definition aggregate_value (Ag : GeometricArea) (N : Z) (n_stations : nat)
    (Pexit : list (option Q)) (Ptrig : list (list Q)) (ncols : nat)
  : list npval :=
  let Pdet := map (fun c => Qltb 0 c) (sum_axis0 ncols Ptrig) in
  let denom := inject_Z (N * Z.of_nat n_stations) in
  let w := zip_with masked_mul
             (zip_with mul_masked (map (Qmult (area Ag)) (dot Ag)) Pexit)
             Pdet in
  np_array
    [ np_div (area Ag * np_sum (dot Ag)) denom;
      ma_mean Pexit;
      np_mean (map b2q Pdet);
      match ma_sum w with Some t => np_div t denom | None => Masked end ].

Section CalculateSpec.
Context (E : Env)
        (ra dec : Q) (lat lon altitude orientations fov : list Q)
        (tauexit : list Q -> list (option Q) * list Q)
        (maxview : Q) (N : Z).

Definition batch : GeometricArea :=
  geometric_area E ra dec lat lon altitude maxview orientations fov N.

(** The exit probabilities [calculate] works with. *)
Definition exit_probabilities : list (option Q) :=
  (tauexit (map (fun e => (90 - rad2deg E e)%Q) (emergence batch))).1.

End CalculateSpec.

(** Equality of two floats, the rationals compared by value. *)
Definition npval_eq (a b : npval) : Prop :=
  match a, b with
  | Fin x, Fin y => (x == y)%Q
  | PInf, PInf | NInf, NInf | NaN, NaN | Masked, Masked => True
  | _, _ => False
  end.

(** The entries of a masked array that are not masked. *)
Fixpoint unmasked (l : list (option Q)) : list Q :=
  match l with
  | [] => []
  | Some q :: l' => q :: unmasked l'
  | None :: l' => unmasked l'
  end.

(** A trigger indicator is true when it is not zero. *)
Definition indicator (q : Q) : bool := negb (Qeq_bool q 0).

(** Detection per trial: the logical OR of the trigger indicators of all
    the stations. *)
Definition detections (ncols : nat) (Ptrig : list (list Q)) : list bool :=
  foldr (zip_with orb) (replicate ncols false) (map (map indicator) Ptrig).

Section Coefficients.
Context (Ag : GeometricArea) (N : Z) (n_stations : nat)
        (Pexit : list (option Q)) (Ptrig : list (list Q)).

Definition normalisation : Q := inject_Z N * nat2q n_stations.

(** (total area weight * sum of dot weights) / (N * station count) *)
Definition spec_geometric : Q := area Ag * np_sum (dot Ag) / normalisation.

(** mean exit probability, the masked entries left out of the mean; nan
    when every entry is masked *)
Definition spec_pexit : npval :=
  match unmasked Pexit with
  | [] => NaN
  | ps => Fin (np_sum ps / nat2q (length ps))
  end.

(** the fraction of the trials that are detected *)
Definition spec_pdet : Q :=
  let n := length (trials Ag) in
  nat2q (count_true (detections n Ptrig)) / nat2q n.

(** area weight * dot weight * exit probability * detection indicator of
    one trial; masked where the exit probability is *)
Definition trial_terms : list (option Q) :=
  zip_with (fun dd p =>
              match p with
              | Some pv => Some (area Ag * dd.1 * pv * b2q dd.2)%Q
              | None => None
              end)
           (zip (dot Ag) (detections (length (trials Ag)) Ptrig)) Pexit.

(** the sum of the terms of the trials whose exit probability is not
    masked, over N * station count; nan when every exit probability is
    masked *)
Definition spec_effective_area : npval :=
  match unmasked trial_terms with
  | [] => NaN
  | ts => Fin (np_sum ts / normalisation)
  end.

End Coefficients.

(** An exit probability, where it is not masked, lies in [0, 1]. *)
Definition probability_or_masked (p : option Q) : Prop :=
  match p with
  | Some q => (0 <= q <= 1)%Q
  | None => True
  end.

(** ** What a run of the small configuration leaves behind *)

Definition sampler_env : Env :=
  example_env (example_batch 0 []) 0 100 (-1 # 30).

Definition two_trials : GeometricArea := example_batch 2 [example_station].

Definition one_trial : GeometricArea := example_batch 1 [example_station].

Definition trace_of {A} (r : result (A * state)) : list event :=
  match r with
  | Ok (_, s) => log s
  | Raise _ => []
  end.

Definition store_of {A} (r : result (A * state)) : list (list Q) :=
  match r with
  | Ok (_, s) => heap s
  | Raise _ => []
  end.

Definition value_of {A} (r : result (A * state)) : option A :=
  match r with
  | Ok (a, _) => Some a
  | Raise _ => None
  end.

(** The altitudes of the station that a run hands over, in order: to the
    voltage model, to the horizon distance and to the horizon angle. *)
Definition altitudes_handed_over (l : list event) : list Q :=
  flat_map (fun e => match e with
                     | CallVoltage _ a => [va_detector_altitude a]
                     | CallDistanceToHorizon _ h _ => [h]
                     | CallHorizonAngle _ h _ => [h]
                     | _ => []
                     end) l.

(** The distances from the station to the decay points of a run. *)
Definition distances_handed_over (l : list event) : list Q :=
  flat_map (fun e => match e with
                     | CallVoltage _ a => va_distance_to_decay a
                     | _ => []
                     end) l.

(** ** Other decay files *)

(** The environment [E] with another decay file loaded. *)
Definition with_decays (E : Env) (rows : list decay_row) : Env :=
  {| decays := rows;
     draws := draws E;
     std_exponential := std_exponential E;
     Re := Re E;
     np_pi := np_pi E;
     rad2deg := rad2deg E;
     norm := norm E;
     geometric_area := geometric_area E;
     cartesian_to_spherical := cartesian_to_spherical E;
     decay_zenith_azimuth := decay_zenith_azimuth E;
     view_angle := view_angle E;
     decay_view := decay_view E;
     obs_zenith_azimuth := obs_zenith_azimuth E;
     distance_to_horizon := distance_to_horizon E;
     horizon_angle := horizon_angle E;
     Vrms := Vrms E |}.

(** A decay file whose showers are all hadronic, and one whose showers
    are all electromagnetic. *)
Definition hadronic_decays : list decay_row :=
  [ DecayRow (2#10) (1#10) (1#10) (6#10) 0 0;
    DecayRow (5#10) (3#10) 0 (2#10) 0 0 ].

Definition electromagnetic_decays : list decay_row :=
  [ DecayRow (3#10) 0 (3#10) 0 0 (4#10);
    DecayRow (6#10) 0 (3#10) 0 0 (1#10) ].

(** ** Other horizon functions *)

(** The environment [E] with [geometry.distance_to_horizon] and
    [geometry.horizon_angle] replaced. *)
Definition with_horizon (E : Env) (hd ha : Q -> Q -> Q) : Env :=
  {| decays := decays E;
     draws := draws E;
     std_exponential := std_exponential E;
     Re := Re E;
     np_pi := np_pi E;
     rad2deg := rad2deg E;
     norm := norm E;
     geometric_area := geometric_area E;
     cartesian_to_spherical := cartesian_to_spherical E;
     decay_zenith_azimuth := decay_zenith_azimuth E;
     view_angle := view_angle E;
     decay_view := decay_view E;
     obs_zenith_azimuth := obs_zenith_azimuth E;
     distance_to_horizon := hd;
     horizon_angle := ha;
     Vrms := Vrms E |}.

(** ** Other dot weights *)

(** The batch [Ag] with another array of dot weights. *)
Definition with_dot (Ag : GeometricArea) (ds : list Q) : GeometricArea :=
  {| trials := trials Ag;
     axis := axis Ag;
     emergence := emergence Ag;
     area := area Ag;
     dot := ds;
     stations_geocentric := stations_geocentric Ag;
     stations_geodetic := stations_geodetic Ag;
     Ag_orientations := Ag_orientations Ag;
     Ag_fov := Ag_fov Ag;
     dbeacon := dbeacon Ag |}.

(** ** The rows of [Ptrig] and the calls of the station loop *)

(** The view [Ptrig[i]] of an array of [n] columns whose buffer is [b]. *)
Definition row_view (b n i : nat) : ndview :=
  {| v_base := b; v_off := i * n; v_len := n |}.

(** [ground_view[i] <= maxview] *)
Definition in_sight_mask (maxview : Q) (gv : list Q) : list bool :=
  map (fun g => Qle_bool g maxview) gv.

(** [np.sum(V, axis=1) / vrms > trigger_SNR], as floats *)
Definition trigger_values (vrms trigger_SNR : Q) (V : list (list Q))
  : list Q :=
  map (fun r => b2q (np_gt (np_div (np_sum r) vrms) trigger_SNR)) V.

(** [np.linalg.norm(station - Re)] *)
Definition detector_altitude (E : Env) (station : vec3) : Q :=
  norm E (vsub_scalar station (Re E)).

(** The arrays with one entry per trial that [calculate] makes before it
    turns to the stations. *)
Record per_trial : Type := {
  pt_decay_length : list Q;
  pt_Eshower : list Q;
  pt_decay_point : list vec3;
  pt_decay_altitude : list Q;
  pt_exit_zenith : list Q;
  pt_decay_point_spherical : list vec3;
  pt_decay_zenith : list Q;
  pt_decay_azimuth : list Q
}.

(** Lines 96 to 107, from the decay lengths and the shower energies. *)
Definition per_trial_of (E : Env) (Ag : GeometricArea)
    (decay_length Eshower : list Q) : per_trial :=
  let decay_point :=
    zip_with (fun t d => vadd t (vscale (axis Ag) d))
             (trials Ag) decay_length in
  let decay_point_spherical := cartesian_to_spherical E decay_point in
  let axis_spherical := cartesian_to_spherical E [axis Ag] in
  let angles := decay_zenith_azimuth E decay_point (axis Ag)
                                     decay_point_spherical axis_spherical in
  {| pt_decay_length := decay_length;
     pt_Eshower := Eshower;
     pt_decay_point := decay_point;
     pt_decay_altitude := map (fun p => (norm E p - Re E)%Q) decay_point;
     pt_exit_zenith := map (fun e => (np_pi E / 2 - e)%Q) (emergence Ag);
     pt_decay_point_spherical := decay_point_spherical;
     pt_decay_zenith := angles.1;
     pt_decay_azimuth := angles.2 |}.

(** The sixteen arguments of the voltage call of one station (lines 120
    to 152). *)
Definition voltage_arguments (E : Env) (Ag : GeometricArea)
    (antennas : Z) (freqs : list Q) (pt : per_trial)
    (in_sight : list bool) (station geodetic : vec3) (orientation : Q)
    (dbrow : list Q) (fv : Q) : VoltageArgs :=
  let dp := select (pt_decay_point pt) in_sight in
  let angles :=
    obs_zenith_azimuth E station dp geodetic
                       (select (pt_decay_point_spherical pt) in_sight) in
  {| va_decay_view := map (rad2deg E) (decay_view E dp (axis Ag) station);
     va_exit_zenith := map (rad2deg E) (pt_exit_zenith pt);
     va_decay_altitude := select (pt_decay_altitude pt) in_sight;
     va_decay_length := select (pt_decay_length pt) in_sight;
     va_decay_zenith := map (rad2deg E) (select (pt_decay_zenith pt) in_sight);
     va_decay_azimuth :=
       map (rad2deg E) (select (pt_decay_azimuth pt) in_sight);
     va_distance_to_decay := map (fun p => norm E (vsub station p)) dp;
     va_detector_altitude := detector_altitude E station;
     va_geodetic := geodetic;
     va_dbeacon := select dbrow in_sight;
     va_freqs := freqs;
     va_Eshower := select (pt_Eshower pt) in_sight;
     va_antennas := antennas;
     va_theta := map (rad2deg E) angles.1;
     va_phi_from_boresight :=
       map (rad2deg E) (map (fun p => (p - orientation)%Q) angles.2);
     va_fov := fv |}.

(** The arguments of the voltage call of station [i]. *)
Definition station_call (E : Env) (Ag : GeometricArea)
    (maxview : Q) (antennas : Z) (freqs : list Q) (pt : per_trial)
    (ground_view : list (list Q)) (i : nat) : option VoltageArgs :=
  match ground_view !! i, stations_geocentric Ag !! i,
        stations_geodetic Ag !! i, Ag_orientations Ag !! i,
        dbeacon Ag !! i, Ag_fov Ag !! i with
  | Some gv, Some st, Some gd, Some ori, Some dbr, Some fv =>
      Some (voltage_arguments E Ag antennas freqs pt
                              (in_sight_mask maxview gv) st gd ori dbr fv)
  | _, _, _, _, _, _ => None
  end.

(** The calls the turn of station [i] adds to the trace. *)
Definition station_events (E : Env) (i : nat) (station : vec3)
    (args : VoltageArgs) : list event :=
  [ CallVoltage i args;
    CallDistanceToHorizon i (detector_altitude E station) (Re E);
    CallHorizonAngle i (detector_altitude E station) (Re E) ].

(** The calls of the turns of the stations [a], [a + 1], ..., one
    argument record of the voltage model per turn. *)
Fixpoint loop_trace (E : Env) (stations : list vec3) (a : nat)
    (calls : list VoltageArgs) : list event :=
  match calls with
  | [] => []
  | args :: rest =>
      match stations !! a with
      | Some st => station_events E a st args
      | None => []
      end ++ loop_trace E stations (S a) rest
  end.

(** The calls [calculate] makes on a batch that is not empty before it
    turns to the stations (lines 73 to 115). *)
Definition preamble (E : Env) (Ag : GeometricArea)
    (tauexit : list Q -> list (option Q) * list Q)
    (N antennas : Z) (freqs : list Q) : list event :=
  let zenith := map (fun e => (90 - rad2deg E e)%Q) (emergence Ag) in
  let Etau := (tauexit zenith).2 in
  [ CallGeometricArea N; CallTauExit zenith; CallSampleRange Etau;
    CallSampleShowerEnergies Etau (Z.of_nat (length Etau));
    CallVrms freqs antennas; CallViewAngle ].

(** The calls a run adds to the trace it starts with. *)
Definition calls_of_run {A} (s : state) (r : result (A * state))
  : list event :=
  drop (length (log s)) (trace_of r).

(** The arguments of the calls of the voltage model in a trace, in
    order. *)
Definition voltage_calls (l : list event) : list VoltageArgs :=
  flat_map (fun e => match e with
                     | CallVoltage _ a => [a]
                     | _ => []
                     end) l.

(** The SNR of a row of voltages is above the threshold, or is not
    (lines 156 and 159). *)
Definition triggers (vrms trigger_SNR : Q) (row : list Q) : bool :=
  np_gt (np_div (np_sum row) vrms) trigger_SNR.

(** [Pdet = np.sum(Ptrig, axis=0) > 0] (line 188) *)
Definition Pdet_of (ncols : nat) (Ptrig : list (list Q)) : list bool :=
  map (fun c => Qltb 0 c) (sum_axis0 ncols Ptrig).

(** The logical OR of the rows of a Boolean array of [ncols] columns. *)
Definition any_row (ncols : nat) (rows : list (list bool)) : list bool :=
  foldr (zip_with orb) (replicate ncols false) rows.

(** The trials that are in view of one station at least. *)
Definition in_view_of_some_station (maxview : Q) (ncols : nat)
    (ground_view : list (list Q)) : list bool :=
  any_row ncols (map (in_sight_mask maxview) ground_view).

(** * Properties *)

Lemma Qltb_lt x y : Qltb x y = true <-> (x < y)%Q.
Proof.
  unfold Qltb. rewrite negb_true_iff. split.
  - intros H. apply Qnot_le_lt. intros Hle.
    apply Qle_bool_iff in Hle. congruence.
  - intros H. destruct (Qle_bool y x) eqn:E; [|reflexivity].
    apply Qle_bool_iff in E. exfalso. lra.
Qed.

(** ** Masks *)

Lemma select_length {A B} (a : list A) (b : list B) (m : list bool) :
  length a = length m -> length b = length m ->
  length (select a m) = length (select b m).
Proof.
  revert a b. induction m as [|c m IH]; intros [|x a] [|y b]; simpl;
    try discriminate; auto.
  intros Ha Hb. destruct c; simpl; auto.
Qed.

Lemma select_count {A} (a : list A) (m : list bool) :
  length a = length m -> length (select a m) = count_true m.
Proof. intros H. unfold count_true. apply select_length; auto. Qed.

Lemma fill_length {A} (a : list A) m y : length (fill a m y) = length a.
Proof.
  revert m. induction a as [|x a IH]; intros [|b m]; simpl; auto.
Qed.

Lemma scatter_length {A} (a : list A) m v :
  length (scatter a m v) = length a.
Proof.
  revert m v. induction a as [|x a IH]; intros [|[] m] v; simpl; auto.
  destruct v; simpl; auto.
Qed.

Lemma fill_replicate {A} (n : nat) (m : list bool) (x y : A) :
  length m = n ->
  fill (replicate n x) m y = map (fun b : bool => if b then y else x) m.
Proof.
  revert m. induction n as [|n IH]; intros [|b m]; simpl; try discriminate; auto.
  intros H. f_equal. apply IH. lia.
Qed.

Lemma getitem_mask_ok {A} (a : list A) m :
  length m = length a -> getitem_mask a m = Ok (select a m).
Proof. intros H. unfold getitem_mask. rewrite H, Nat.eqb_refl. done. Qed.

Lemma setitem_mask_ok {A} (a : list A) m v :
  length m = length a -> length v = count_true m ->
  setitem_mask a m v = Ok (scatter a m v).
Proof.
  intros H1 H2. unfold setitem_mask. rewrite H1, H2, !Nat.eqb_refl. done.
Qed.

Lemma setitem_mask_scalar_ok {A} (a : list A) m y :
  length m = length a -> setitem_mask_scalar a m y = Ok (fill a m y).
Proof. intros H. unfold setitem_mask_scalar. rewrite H, Nat.eqb_refl. done. Qed.

Lemma broadcast2_ok {A B C} (f : A -> B -> C) a b :
  length a = length b -> broadcast2 f a b = Ok (zip_with f a b).
Proof. intros H. unfold broadcast2. rewrite H, Nat.eqb_refl. done. Qed.

Lemma lookup_map {A B} (f : A -> B) (l : list A) (i : nat) :
  map f l !! i = option_map f (l !! i).
Proof.
  revert i. induction l as [|x l IH]; intros [|i]; simpl; auto.
Qed.

(** ** The monad *)

Lemma bind_ok {A B} (m : M A) (k : A -> M B) s a s' :
  m s = Ok (a, s') -> (m ≫= k) s = k a s'.
Proof. intros H. unfold mbind, M_bind, bind. rewrite H. done. Qed.

Lemma bind_lift_ok {A B} (r : result A) (k : A -> M B) s a :
  r = Ok a -> (lift r ≫= k) s = k a s.
Proof. intros ->. done. Qed.

Lemma np_random_uniform_ok E (n : nat) s :
  np_random_uniform E (Z.of_nat n) s =
  Ok (map (draws E) (seq (rng s) n), State (rng s + n) (heap s) (log s)).
Proof.
  unfold np_random_uniform.
  destruct (Z.ltb_spec (Z.of_nat n) 0); [lia|]. rewrite Nat2Z.id. done.
Qed.

(** ** The decay sampler *)

Section TauolaFacts.
Context (E : Env).

Lemma sample_shower_type_run (n : nat) s :
  sample_shower_type E (Z.of_nat n) s =
  Ok (map (shower_type_of E) (map (draws E) (seq (rng s) n)),
      State (rng s + n) (heap s) (log s)).
Proof.
  unfold sample_shower_type.
  rewrite (bind_ok _ _ _ _ _ (np_random_uniform_ok E n s)).
  rewrite Nat2Z.id. unfold lift.
  rewrite setitem_mask_scalar_ok
    by (rewrite !length_map, length_seq, length_replicate; done).
  rewrite fill_replicate by (rewrite !length_map, length_seq; done).
  rewrite map_map. done.
Qed.

Lemma nat2q_pos (n : nat) : (0 < n)%nat -> (0 < nat2q n)%Q.
Proof.
  intros H. unfold nat2q, Qlt. simpl. lia.
Qed.

Lemma gt_float_Pem (u : Q) :
  gt_float u (Pem E) = true <->
  (0 < Nshowers E)%nat /\ (nat2q (Nem E) / nat2q (Nshowers E) < u)%Q.
Proof.
  unfold Pem, np_div.
  destruct (Qeq_bool (nat2q (Nshowers E)) 0) eqn:Hz.
  - apply Qeq_bool_iff in Hz.
    assert (Nshowers E = 0%nat) as H0.
    { destruct (Nshowers E) as [|k] eqn:Hk; [done|].
      pose proof (nat2q_pos (S k) ltac:(lia)). lra. }
    split.
    + destruct (Nem E) as [|k]; [vm_compute; intros [=]|].
      assert (Qltb 0 (nat2q (S k)) = true) as ->
        by (apply Qltb_lt, nat2q_pos; lia).
      destruct (Qeq_bool (nat2q (S k)) 0); simpl; intros [=].
    + intros [H _]. lia.
  - simpl. rewrite Qltb_lt. split; [|tauto].
    intros H. split; [|done].
    destruct (Nshowers E) eqn:Hk; [|lia].
    vm_compute in Hz. discriminate.
Qed.

End TauolaFacts.

(** C6: for a count that is not negative, [sample_shower_type] succeeds,
    consumes exactly [count] doubles of the generator and returns [count]
    labels; the label of a sample is Electromagnetic exactly when its
    double is strictly above Nem / Nshowers, and Hadronic otherwise. *)
Theorem sample_shower_type_spec (E : Env) (count : Z) (s : state) :
  (0 <= count)%Z ->
  exists stypes,
    sample_shower_type E count s =
      Ok (stypes, State (rng s + Z.to_nat count) (heap s) (log s)) /\
    length stypes = Z.to_nat count /\
    forall i, (i < Z.to_nat count)%nat ->
      exists t, stypes !! i = Some t /\
        (t = Electromagnetic <->
           (0 < Nshowers E)%nat /\
           (nat2q (Nem E) / nat2q (Nshowers E) < draws E (rng s + i))%Q) /\
        (t <> Electromagnetic -> t = Hadronic).
Proof.
  intros Hc. assert (count = Z.of_nat (Z.to_nat count)) as -> by lia.
  generalize (Z.to_nat count) as n. intros n. rewrite Nat2Z.id.
  eexists. split; [apply sample_shower_type_run|].
  split; [rewrite !length_map, length_seq; done|].
  intros i Hi. exists (shower_type_of E (draws E (rng s + i))).
  split.
  - rewrite map_map, lookup_map, lookup_seq_lt by done. done.
  - unfold shower_type_of. rewrite <- gt_float_Pem.
    destruct (gt_float _ _); split; done.
Qed.

(** ** Sorting and interpolation *)

Lemma insert_sorted_length x l : length (insert_sorted x l) = S (length l).
Proof.
  induction l as [|y l IH]; simpl; [done|].
  destruct (Qle_bool x y); simpl; auto.
Qed.

Lemma np_sort_length l : length (np_sort l) = length l.
Proof.
  induction l as [|x l IH]; simpl; [done|].
  rewrite insert_sorted_length. auto.
Qed.

Lemma insert_sorted_Forall (P : Q -> Prop) x l :
  P x -> Forall P l -> Forall P (insert_sorted x l).
Proof.
  intros Hx. induction 1 as [|y l Hy Hl IH]; simpl.
  - repeat constructor; done.
  - destruct (Qle_bool x y); repeat constructor; auto.
Qed.

Lemma np_sort_Forall (P : Q -> Prop) l : Forall P l -> Forall P (np_sort l).
Proof.
  induction 1; simpl; [constructor|]. apply insert_sorted_Forall; auto.
Qed.

Lemma insert_sorted_ascending x l :
  ascending l -> ascending (insert_sorted x l).
Proof.
  induction l as [|y l IH]; simpl; [done|].
  intros Hl. destruct (Qle_bool x y) eqn:Hxy.
  - apply Qle_bool_iff in Hxy. simpl. auto.
  - assert (y <= x)%Q as Hyx.
    { apply Qlt_le_weak, Qltb_lt. unfold Qltb. rewrite Hxy. done. }
    destruct l as [|z l]; simpl in *; [auto|].
    destruct Hl as [Hyz Hl]. specialize (IH Hl).
    destruct (Qle_bool x z); simpl in *; tauto.
Qed.

Lemma np_sort_ascending l : ascending (np_sort l).
Proof.
  induction l; simpl; [done|]. apply insert_sorted_ascending; done.
Qed.

Lemma insert_sorted_perm x l : insert_sorted x l ≡ₚ x :: l.
Proof.
  induction l as [|y l IH]; simpl; [done|].
  destruct (Qle_bool x y); [done|].
  rewrite IH. apply Permutation_swap.
Qed.

Lemma np_sort_perm l : np_sort l ≡ₚ l.
Proof.
  induction l as [|x l IH]; simpl; [done|].
  rewrite insert_sorted_perm, IH. done.
Qed.

Lemma select_positive l : Forall (fun x => 0 < x)%Q (select l (positive l)).
Proof.
  induction l as [|x l IH]; simpl; [constructor|].
  destruct (Qltb 0 x) eqn:Hx; [|done].
  constructor; [apply Qltb_lt; done|done].
Qed.

Lemma np_max_ge l : Forall (fun x => x <= np_max l)%Q l.
Proof.
  induction l as [|x [|y l] IH]; [constructor| |].
  - repeat constructor. simpl. lra.
  - change (np_max (x :: y :: l))
      with (if Qle_bool x (np_max (y :: l)) then np_max (y :: l) else x).
    destruct (Qle_bool x (np_max (y :: l))) eqn:Hx.
    + constructor; [apply Qle_bool_iff; done|done].
    + assert (np_max (y :: l) <= x)%Q as Hm.
      { apply Qlt_le_weak, Qltb_lt. unfold Qltb. rewrite Hx. done. }
      constructor; [lra|].
      eapply Forall_impl; [exact IH|]. intros z Hz. cbv beta in Hz.
      eapply Qle_trans; [exact Hz|exact Hm].
Qed.

Lemma np_max_in l : l <> [] -> np_max l ∈ l.
Proof.
  induction l as [|x [|y l] IH]; [done| |]; intros _.
  - simpl. left.
  - change (np_max (x :: y :: l))
      with (if Qle_bool x (np_max (y :: l)) then np_max (y :: l) else x).
    destruct (Qle_bool x (np_max (y :: l))).
    + right. apply IH. done.
    + left.
Qed.

Lemma nat2q_S (a : nat) : (nat2q (S a) == nat2q a + 1)%Q.
Proof.
  unfold nat2q. rewrite Nat2Z.inj_succ, <- Z.add_1_r, inject_Z_plus. done.
Qed.

Lemma nat2q_le (a b : nat) : (a <= b)%nat -> (nat2q a <= nat2q b)%Q.
Proof. intros H. unfold nat2q. rewrite <- Zle_Qle. lia. Qed.

Lemma Qltb_ge x y : Qltb x y = false <-> (y <= x)%Q.
Proof.
  unfold Qltb. rewrite negb_false_iff. apply Qle_bool_iff.
Qed.

Lemma np_arange_S (k : nat) :
  np_arange (S k) = 0%Q :: map nat2q (seq 1 k).
Proof. reflexivity. Qed.

Lemma lerp_bounds (f0 f1 t hi : Q) :
  (0 < f0 <= hi)%Q -> (0 < f1 <= hi)%Q -> (0 <= t < 1)%Q ->
  (0 < (f1 - f0) * t + f0 <= hi)%Q.
Proof. intros [? ?] [? ?] [? ?]. split; nra. Qed.

Lemma unit_slope (f0 f1 x x0 x1 : Q) :
  (x1 == x0 + 1)%Q ->
  ((f1 - f0) / (x1 - x0) * (x - x0) + f0 == (f1 - f0) * (x - x0) + f0)%Q.
Proof.
  intros H. assert (x1 - x0 == 1)%Q as -> by lra. field.
Qed.

Lemma interp_from_bounds (hi x : Q) (fp : list Q) :
  forall (a : nat) (f0 : Q) (k : nat),
    (nat2q a <= x)%Q -> (0 < f0 <= hi)%Q ->
    Forall (fun f => 0 < f <= hi)%Q fp ->
    (0 < interp_from x (nat2q a) f0 (map nat2q (seq (S a) k)) fp <= hi)%Q.
Proof.
  induction fp as [|f1 fp IH]; intros a f0 k Hx Hf0 Hfp.
  - destruct k; exact Hf0.
  - destruct k as [|k]; [exact Hf0|].
    apply Forall_cons in Hfp as [Hf1 Hfp]. simpl.
    destruct (Qltb x (nat2q (S a))) eqn:Hlt.
    + destruct (Qeq_bool x (nat2q a)); [exact Hf0|].
      apply Qltb_lt in Hlt. pose proof (nat2q_S a) as HS.
      rewrite (unit_slope f0 f1 x _ _ HS).
      apply lerp_bounds; [done|done|]. lra.
    + apply Qltb_ge in Hlt. apply IH; done.
Qed.

Lemma interp1_arange_bounds (hi x : Q) (K : nat) (fp : list Q) :
  (0 < K)%nat -> length fp = K ->
  Forall (fun f => 0 < f <= hi)%Q fp ->
  (0 < interp1 x (np_arange K) fp <= hi)%Q.
Proof.
  intros HK Hlen Hfp. destruct K as [|k]; [lia|].
  destruct fp as [|f0 fp]; [discriminate|].
  apply Forall_cons in Hfp as [Hf0 Hfp].
  rewrite np_arange_S. cbn [interp1].
  destruct (Qltb x 0) eqn:Hlt; [done|].
  apply Qltb_ge in Hlt.
  apply (interp_from_bounds hi x fp 0 f0 k); done.
Qed.

(** To the left of the first abscissa: the first ordinate. *)
Lemma interp1_arange_left (x : Q) (k : nat) (f0 : Q) (fp : list Q) :
  (x < 0)%Q -> interp1 x (np_arange (S k)) (f0 :: fp) = f0.
Proof.
  intros Hx. rewrite np_arange_S. cbn [interp1].
  assert (Qltb x 0 = true) as -> by (apply Qltb_lt; done). done.
Qed.

Lemma interp_from_right (x : Q) (fp : list Q) :
  forall (a : nat) (f0 : Q) (k : nat),
    length fp = k -> (nat2q (a + k) <= x)%Q ->
    Some (interp_from x (nat2q a) f0 (map nat2q (seq (S a) k)) fp)
    = last (f0 :: fp).
Proof.
  induction fp as [|f1 fp IH]; intros a f0 k Hlen Hx.
  - destruct k; done.
  - destruct k as [|k]; [discriminate|]. simpl in Hlen.
    change (last (f0 :: f1 :: fp)) with (last (f1 :: fp)).
    simpl. assert (Qltb x (nat2q (S a)) = false) as ->.
    { apply Qltb_ge. eapply Qle_trans; [|exact Hx]. apply nat2q_le. lia. }
    apply IH; [lia|]. replace (S a + k)%nat with (a + S k)%nat by lia. done.
Qed.

(** At or to the right of the last abscissa: the last ordinate. *)
Lemma interp1_arange_right (x : Q) (K : nat) (fp : list Q) :
  (0 < K)%nat -> length fp = K -> (nat2q (K - 1) <= x)%Q ->
  Some (interp1 x (np_arange K) fp) = last fp.
Proof.
  intros HK Hlen Hx. destruct K as [|k]; [lia|].
  destruct fp as [|f0 fp]; [discriminate|].
  rewrite np_arange_S. cbn [interp1].
  assert (Qltb x 0 = false) as ->.
  { apply Qltb_ge. eapply Qle_trans; [|exact Hx].
    apply (nat2q_le 0). lia. }
  apply (interp_from_right x fp 0 f0 k); [simpl in Hlen; lia|].
  replace (0 + k)%nat with (S k - 1)%nat by lia. done.
Qed.

Lemma interp_from_between (x : Q) (d : nat) :
  forall (fp : list Q) (a : nat) (f0 : Q) (k : nat) (fj fj1 : Q),
    length fp = k ->
    (nat2q (a + d) <= x < nat2q (a + d) + 1)%Q ->
    (f0 :: fp) !! d = Some fj -> (f0 :: fp) !! S d = Some fj1 ->
    (interp_from x (nat2q a) f0 (map nat2q (seq (S a) k)) fp
     == fj + (fj1 - fj) * (x - nat2q (a + d)))%Q.
Proof.
  induction d as [|d IH]; intros fp a f0 k fj fj1 Hlen Hx Hj Hj1.
  - rewrite Nat.add_0_r in *. simpl in Hj. injection Hj as ->.
    destruct fp as [|f1 fp]; [discriminate|]. simpl in Hj1.
    injection Hj1 as ->. destruct k; [discriminate|]. simpl.
    pose proof (nat2q_S a) as HS.
    assert (Qltb x (nat2q (S a)) = true) as -> by (apply Qltb_lt; lra).
    destruct (Qeq_bool x (nat2q a)) eqn:Heq.
    + apply Qeq_bool_iff in Heq. rewrite Heq. ring.
    + rewrite (unit_slope fj fj1 x _ _ HS). ring.
  - destruct fp as [|f1 fp]; [discriminate|].
    destruct k; [discriminate|]. simpl in Hlen.
    change ((f0 :: f1 :: fp) !! S d) with ((f1 :: fp) !! d) in Hj.
    change ((f0 :: f1 :: fp) !! S (S d)) with ((f1 :: fp) !! S d) in Hj1.
    simpl. assert (Qltb x (nat2q (S a)) = false) as ->.
    { apply Qltb_ge. eapply Qle_trans; [|apply Hx]. apply nat2q_le. lia. }
    replace (a + S d)%nat with (S a + d)%nat in * by lia.
    apply IH; try done. lia.
Qed.

(** Between two neighbouring abscissae [j] and [j + 1]: on the segment
    that joins the two ordinates. *)
Lemma interp1_arange_between (x : Q) (K j : nat) (fp : list Q) (fj fj1 : Q) :
  length fp = K -> (nat2q j <= x < nat2q j + 1)%Q ->
  fp !! j = Some fj -> fp !! S j = Some fj1 ->
  (interp1 x (np_arange K) fp == fj + (fj1 - fj) * (x - nat2q j))%Q.
Proof.
  intros Hlen Hx Hj Hj1.
  destruct fp as [|f0 fp]; [discriminate|].
  destruct K as [|k]; [discriminate|].
  rewrite np_arange_S. cbn [interp1].
  assert (Qltb x 0 = false) as ->.
  { apply Qltb_ge. eapply Qle_trans; [|apply Hx]. apply (nat2q_le 0). lia. }
  apply (interp_from_between x j fp 0 f0 k fj fj1); try done.
  simpl in Hlen. lia.
Qed.

(** ** [sample_energy_fraction] *)

Lemma scatter_two (fe fh : Q -> Q) (stypes : list Z) :
  forall u : list Q, length u = length stypes ->
    scatter
      (scatter (map (fun _ => 0%Q) u) (map (Z.eqb Electromagnetic) stypes)
         (map fe (select u (map (Z.eqb Electromagnetic) stypes))))
      (map (Z.eqb Hadronic) stypes)
      (map fh (select u (map (Z.eqb Hadronic) stypes)))
    = zip_with (fun t x => if (Electromagnetic =? t)%Z then fe x
                           else if (Hadronic =? t)%Z then fh x else 0%Q)
               stypes u.
Proof.
  induction stypes as [|t stypes IH]; intros [|x u] Hlen;
    try discriminate; [done|].
  simpl in Hlen. cbn [map select zip_with].
  destruct (Z.eqb_spec Electromagnetic t) as [<-|Hne].
  - cbn [scatter map Z.eqb Hadronic Electromagnetic].
    f_equal. apply IH. lia.
  - cbn [scatter]. destruct (Hadronic =? t)%Z;
      cbn [scatter map]; f_equal; apply IH; lia.
Qed.

Section EnergyFraction.
Context (E : Env).

Lemma positive_length l : length (positive l) = length l.
Proof. unfold positive. apply length_map. Qed.

Lemma Eem_length : length (Eem E) = Nem E.
Proof.
  unfold Eem, Nem. rewrite np_sort_length.
  apply select_count. rewrite positive_length. done.
Qed.

Lemma Ehad_length : length (Ehad E) = Nhad E.
Proof.
  unfold Ehad, Nhad. rewrite np_sort_length.
  apply select_count. rewrite positive_length. done.
Qed.

Lemma np_interp_ok x K fp :
  (0 < K)%nat -> length fp = K ->
  np_interp x (np_arange K) fp = Ok (map (fun xi => interp1 xi (np_arange K) fp) x).
Proof.
  intros HK Hlen. unfold np_interp, np_arange.
  rewrite length_map, length_seq, Hlen, Nat.eqb_refl.
  destruct K; [lia|]. done.
Qed.

Lemma sample_energy_fraction_run (stypes : list Z) (s : state) :
  (0 < Nem E)%nat -> (0 < Nhad E)%nat ->
  sample_energy_fraction E stypes s =
  Ok (zip_with (fraction_of E) stypes
        (map (draws E) (seq (rng s) (length stypes))),
      State (rng s + length stypes) (heap s) (log s)).
Proof.
  intros Hem Hhad. unfold sample_energy_fraction.
  rewrite (bind_ok _ _ _ _ _ (np_random_uniform_ok E (length stypes) s)).
  set (u := map (draws E) (seq (rng s) (length stypes))).
  assert (length u = length stypes) as Hu
    by (unfold u; rewrite length_map, length_seq; done).
  set (s' := State _ _ _).
  rewrite (bind_lift_ok _ _ _ _ (getitem_mask_ok u _
             ltac:(rewrite length_map; done))).
  rewrite (bind_lift_ok _ _ _ _ (np_interp_ok _ _ _ Hem Eem_length)).
  rewrite map_map.
  erewrite bind_lift_ok; cycle 1.
  { apply setitem_mask_ok; [rewrite !length_map; done|].
    rewrite length_map. apply select_count. rewrite length_map. done. }
  rewrite (bind_lift_ok _ _ _ _ (getitem_mask_ok u _
             ltac:(rewrite length_map; done))).
  rewrite (bind_lift_ok _ _ _ _ (np_interp_ok _ _ _ Hhad Ehad_length)).
  rewrite map_map. unfold lift.
  rewrite setitem_mask_ok; cycle 1.
  { rewrite scatter_length, !length_map. done. }
  { rewrite length_map. apply select_count. rewrite length_map. done. }
  rewrite (scatter_two (fun x => interp1 (nat2q (Nem E) * x) _ _)
                       (fun x => interp1 (nat2q (Nhad E) * x) _ _)
                       stypes u Hu).
  done.
Qed.

Lemma Eem_range : Forall (fun f => 0 < f <= np_max (Eem E))%Q (Eem E).
Proof.
  apply Forall_and. split; [|apply np_max_ge].
  apply np_sort_Forall, select_positive.
Qed.

Lemma Ehad_range : Forall (fun f => 0 < f <= np_max (Ehad E))%Q (Ehad E).
Proof.
  apply Forall_and. split; [|apply np_max_ge].
  apply np_sort_Forall, select_positive.
Qed.

End EnergyFraction.

(** ** Statements about the sampler *)

Lemma interp1_lerp_clamped (K : nat) (fp : list Q) (x : Q) :
  (0 < K)%nat -> length fp = K ->
  lerp_clamped K fp x (interp1 x (np_arange K) fp).
Proof.
  intros HK Hlen. split; [|split].
  - intros Hx. destruct K; [lia|]. destruct fp as [|f0 fp]; [discriminate|].
    rewrite interp1_arange_left by done. done.
  - intros Hx. symmetry. apply interp1_arange_right; done.
  - intros j fj fj1 Hx Hj Hj1.
    apply interp1_arange_between; done.
Qed.

Lemma zip_with_lookup_draws {A B} (f : A -> Q -> B) (E : Env) (l : list A)
    (r : nat) (i : nat) (a : A) :
  l !! i = Some a ->
  zip_with f l (map (draws E) (seq r (length l))) !! i =
  Some (f a (draws E (r + i))).
Proof.
  intros Hi. apply lookup_zip_with_Some. exists a, (draws E (r + i)).
  split; [done|]. split; [done|].
  rewrite lookup_map, lookup_seq_lt; [done|].
  apply lookup_lt_Some in Hi. done.
Qed.

(** C5: on an array of shower types that are all Hadronic or
    Electromagnetic, and a decay file with showers of both kinds,
    [sample_energy_fraction] succeeds and draws one double per sample; the
    fraction of a sample is the clamped linear interpolation at
    [u * K] over the abscissae [0 .. K-1] paired with the ascending, positive
    fractions of the category of the sample, [K] being their number; it
    lies in (0, max of these fractions]. *)
Theorem sample_energy_fraction_spec (E : Env) (stypes : list Z) (s : state) :
  (0 < Nem E)%nat -> (0 < Nhad E)%nat ->
  Forall (fun t => t = Hadronic \/ t = Electromagnetic) stypes ->
  exists fractions,
    sample_energy_fraction E stypes s =
      Ok (fractions, State (rng s + length stypes) (heap s) (log s)) /\
    length fractions = length stypes /\
    (forall i t, stypes !! i = Some t ->
       exists f, fractions !! i = Some f /\
         lerp_clamped (reference_count E t) (reference_fractions E t)
                      (nat2q (reference_count E t) * draws E (rng s + i)) f /\
         (0 < f <= np_max (reference_fractions E t))%Q) /\
    (forall t, ascending (reference_fractions E t) /\
               length (reference_fractions E t) = reference_count E t /\
               np_max (reference_fractions E t) ∈ reference_fractions E t) /\
    Eem E ≡ₚ select (electrons E) (positive (electrons E)) /\
    Ehad E ≡ₚ select (hadrons E) (positive (hadrons E)).
Proof.
  intros Hem Hhad Hst. eexists.
  split; [apply sample_energy_fraction_run; done|].
  split; [rewrite length_zip_with, length_map, length_seq; lia|].
  split; [|split; [|split; apply np_sort_perm]].
  - intros i t Hi. eexists. split; [apply zip_with_lookup_draws; done|].
    rewrite Forall_forall in Hst.
    assert (t ∈ stypes) as Hin by (apply list_elem_of_lookup; eauto).
    apply Hst in Hin.
    unfold fraction_of, reference_count, reference_fractions.
    destruct Hin as [-> | ->]; cbn [Z.eqb Electromagnetic Hadronic].
    + split; [apply interp1_lerp_clamped; [done|apply Ehad_length]|].
      apply interp1_arange_bounds; [done|apply Ehad_length|apply Ehad_range].
    + split; [apply interp1_lerp_clamped; [done|apply Eem_length]|].
      apply interp1_arange_bounds; [done|apply Eem_length|apply Eem_range].
  - intros t. unfold reference_fractions, reference_count.
    destruct (Electromagnetic =? t)%Z.
    + split; [apply np_sort_ascending|]. split; [apply Eem_length|].
      apply np_max_in. intros H0. pose proof (Eem_length E) as Hl.
      rewrite H0 in Hl. simpl in Hl. lia.
    + split; [apply np_sort_ascending|]. split; [apply Ehad_length|].
      apply np_max_in. intros H0. pose proof (Ehad_length E) as Hl.
      rewrite H0 in Hl. simpl in Hl. lia.
Qed.

(** C10: a shower type that is neither Hadronic nor Electromagnetic leaves
    its place in the output at the 0.0 the array was created with, which
    is outside (0, max]. *)
Theorem sample_energy_fraction_unknown_type
    (E : Env) (stypes : list Z) (s : state) (i : nat) (t : Z) :
  (0 < Nem E)%nat -> (0 < Nhad E)%nat ->
  stypes !! i = Some t -> t <> Hadronic -> t <> Electromagnetic ->
  exists fractions s',
    sample_energy_fraction E stypes s = Ok (fractions, s') /\
    fractions !! i = Some 0%Q /\
    ~ (0 < 0 <= np_max (reference_fractions E t))%Q.
Proof.
  intros Hem Hhad Hi Hh He. do 2 eexists.
  split; [apply sample_energy_fraction_run; done|].
  split; [|lra].
  rewrite (zip_with_lookup_draws _ _ _ _ _ _ Hi). unfold fraction_of.
  destruct (Z.eqb_spec Electromagnetic t); [congruence|].
  destruct (Z.eqb_spec Hadronic t); [congruence|]. done.
Qed.

Lemma zip_with_repeated {A B C} (f : A -> B -> C) (x : A) (l : list B) n :
  length l = n -> zip_with f (replicate n x) l = map (f x) l.
Proof.
  revert n. induction l as [|y l IH]; intros [|n] Hl; try discriminate;
    [done|].
  simpl. f_equal. apply IH. simpl in Hl. lia.
Qed.

(** C4: on an array of tau energies, [sample_shower_energies] makes one
    shower energy per tau energy: the shower types come from
    [sample_shower_type], the fractions from [sample_energy_fraction] on
    these types, and each tau energy is multiplied by the fraction at its
    own place.  On an array that repeats one energy this is
    [sample_tau_energies] of the source. *)
Theorem sample_shower_energies_spec (E : Env) (Etau : list Q) (s : state) :
  (0 < Nem E)%nat -> (0 < Nhad E)%nat ->
  let n := length Etau in
  exists stypes Efrac s1 s2 Eshower,
    sample_shower_type E (Z.of_nat n) s = Ok (stypes, s1) /\
    sample_energy_fraction E stypes s1 = Ok (Efrac, s2) /\
    sample_shower_energies E Etau (Z.of_nat n) s = Ok (Eshower, s2) /\
    length Eshower = n /\
    (forall i e, Etau !! i = Some e ->
       exists t f, stypes !! i = Some t /\ Efrac !! i = Some f /\
                   Eshower !! i = Some (e * f)%Q) /\
    (forall Enu, Etau = replicate n Enu ->
       sample_tau_energies E Enu (Z.of_nat n) s = Ok (Eshower, s2)).
Proof.
  intros Hem Hhad n.
  pose proof (sample_shower_type_run E n s) as H1.
  set (stypes := map (shower_type_of E) (map (draws E) (seq (rng s) n))) in *.
  set (s1 := State (rng s + n) (heap s) (log s)) in *.
  pose proof (sample_energy_fraction_run E stypes s1 Hem Hhad) as H2.
  set (Efrac := zip_with (fraction_of E) stypes _) in *.
  set (s2 := State _ _ _) in H2.
  assert (length stypes = n) as Hls
    by (unfold stypes; rewrite !length_map, length_seq; done).
  assert (length Efrac = n) as Hlf.
  { unfold Efrac. rewrite length_zip_with, length_map, length_seq. lia. }
  exists stypes, Efrac, s1, s2, (zip_with Qmult Etau Efrac).
  split; [done|]. split; [done|].
  split; [|split; [|split]].
  - unfold sample_shower_energies.
    rewrite (bind_ok _ _ _ _ _ H1), (bind_ok _ _ _ _ _ H2).
    unfold lift. rewrite broadcast2_ok by (fold n; lia). done.
  - rewrite length_zip_with. fold n. lia.
  - intros i e Hi. pose proof (lookup_lt_Some _ _ _ Hi) as Hlt. fold n in Hlt.
    destruct (lookup_lt_is_Some_2 stypes i ltac:(lia)) as [t Ht].
    destruct (lookup_lt_is_Some_2 Efrac i ltac:(lia)) as [f Hf].
    exists t, f. split; [done|]. split; [done|].
    apply lookup_zip_with_Some. eauto.
  - intros Enu HE. unfold sample_tau_energies.
    rewrite (bind_ok _ _ _ _ _ H1), (bind_ok _ _ _ _ _ H2).
    unfold mret, M_ret, ret. do 2 f_equal. rewrite HE.
    symmetry. apply zip_with_repeated. done.
Qed.

(** ** The empty batch *)

(** C1: when the batch the geometry returns has no trial, [calculate]
    returns [0, 0, 0, 0]; the call of the geometry is the only entry it
    adds to the trace of calls (no exit lookup, no sampler, no voltage
    model, no horizon function), the generator is where it was and no
    array was created. *)
Theorem calculate_empty_batch (E : Env)
    (ra dec : Q) (lat lon altitude orientations fov : list Q)
    (tauexit : list Q -> list (option Q) * list Q)
    (voltage : VoltageArgs -> list (list Q))
    (maxview : Q) (N antennas : Z) (freqs : list Q) (trigger_SNR : Q)
    (s : state) :
  emergence (geometric_area E ra dec lat lon altitude maxview
                            orientations fov N) = [] ->
  calculate E ra dec lat lon altitude orientations fov tauexit voltage
            maxview N antennas freqs trigger_SNR s
  = Ok ([Fin 0; Fin 0; Fin 0; Fin 0],
        State (rng s) (heap s) (log s ++ [CallGeometricArea N])).
Proof.
  intros Hempty. unfold calculate.
  unfold mbind, M_bind, bind, emit. rewrite Hempty. done.
Qed.

(** ** The store *)

Lemma lift_ok {A} (r : result A) (a : A) (s : state) :
  r = Ok a -> lift r s = Ok (a, s).
Proof. intros ->. done. Qed.

Lemma getitem_ok {A} (l : list A) (i : nat) (x : A) (s : state) :
  l !! i = Some x -> getitem l i s = Ok (x, s).
Proof. intros H. unfold getitem. rewrite H. done. Qed.

Lemma getitem_row_ok (a : array2) (i : nat) (s : state) :
  (i < a_rows a)%nat ->
  getitem_row a i s =
  Ok ({| v_base := a_base a; v_off := i * a_cols a; v_len := a_cols a |}, s).
Proof.
  intros H. unfold getitem_row.
  destruct (Nat.ltb_spec i (a_rows a)); [done|lia].
Qed.

Lemma window_length (v : ndview) (buf : list Q) :
  (v_off v + v_len v <= length buf)%nat -> length (window v buf) = v_len v.
Proof.
  intros H. unfold window. rewrite length_take, length_drop. lia.
Qed.

Lemma set_window_length (v : ndview) (buf new : list Q) :
  (v_off v + v_len v <= length buf)%nat -> length new = v_len v ->
  length (set_window v buf new) = length buf.
Proof.
  intros H Hn. unfold set_window.
  rewrite !length_app, length_take, length_drop. lia.
Qed.

Lemma set_window_Forall (P : Q -> Prop) (v : ndview) (buf new : list Q) :
  Forall P buf -> Forall P new -> Forall P (set_window v buf new).
Proof.
  intros Hb Hn. unfold set_window. rewrite !Forall_app.
  split; [apply Forall_take; done|]. split; [done|apply Forall_drop; done].
Qed.

Lemma scatter_Forall {A} (P : A -> Prop) (a : list A) m v :
  Forall P a -> Forall P v -> Forall P (scatter a m v).
Proof.
  intros Ha. revert m v. induction Ha as [|x a Hx Ha IH]; intros m v Hv.
  - destruct m as [|[] m]; constructor.
  - destruct m as [|[] m]; simpl.
    + constructor; done.
    + destruct Hv as [|y v Hy Hv]; constructor; auto.
    + constructor; auto.
Qed.

Lemma view_setitem_mask_run (v : ndview) m x (s : state) (buf : list Q) :
  heap s !! v_base v = Some buf ->
  length m = length (window v buf) -> length x = count_true m ->
  view_setitem_mask v m x s =
  Ok (tt, State (rng s)
            (<[v_base v := set_window v buf (scatter (window v buf) m x)]>
               (heap s))
            (log s)).
Proof.
  intros Hb Hm Hx. unfold view_setitem_mask.
  erewrite bind_ok; [|unfold view_read; rewrite Hb; reflexivity].
  erewrite bind_ok; [|apply lift_ok, setitem_mask_ok; done].
  unfold view_write. rewrite Hb. done.
Qed.

(** [v[m][m2] = x]: the assignment goes to the copy that [v[m]] made, a
    new buffer at the end of the store; every buffer that was there
    before, the one [v] is a window on included, is as it was. *)
Lemma masked_copy_assign_run (v : ndview) m m2 (x : Q) (s : state)
    (buf : list Q) :
  heap s !! v_base v = Some buf ->
  length m = length (window v buf) -> length m2 = count_true m ->
  (tmp ← view_getitem_mask v m; view_setitem_mask_scalar tmp m2 x) s =
  Ok (tt, State (rng s)
            (heap s ++ [fill (select (window v buf) m) m2 x])
            (log s)).
Proof.
  intros Hb Hm Hm2. unfold view_getitem_mask.
  assert (length (select (window v buf) m) = length m2) as Hc
    by (rewrite Hm2; apply select_count; done).
  unfold mbind, M_bind, bind, view_read at 1. rewrite Hb.
  unfold lift. rewrite getitem_mask_ok by done.
  unfold alloc, mret, M_ret, ret, view_setitem_mask_scalar.
  unfold mbind, M_bind, bind, view_read. cbn [heap v_base rng log].
  rewrite lookup_app_r, Nat.sub_diag by done. cbn [lookup list_lookup].
  unfold window at 1. cbn [v_len v_off]. rewrite drop_0, firstn_all.
  unfold lift. rewrite setitem_mask_scalar_ok by done.
  unfold view_write. cbn [heap v_base rng log].
  rewrite lookup_app_r, Nat.sub_diag by done. cbn [lookup list_lookup].
  do 3 f_equal.
  rewrite insert_app_r_alt, Nat.sub_diag by done. cbn [insert list_insert].
  do 2 f_equal. unfold set_window. cbn [v_len v_off].
  rewrite take_0, Nat.add_0_l, drop_all, app_nil_r. done.
Qed.

Lemma masked_copy_assign_then {B} (v : ndview) m m2 (x : Q) (k : M B)
    (s : state) (buf : list Q) :
  heap s !! v_base v = Some buf ->
  length m = length (window v buf) -> length m2 = count_true m ->
  (tmp ← view_getitem_mask v m; view_setitem_mask_scalar tmp m2 x;; k) s =
  k (State (rng s) (heap s ++ [fill (select (window v buf) m) m2 x]) (log s)).
Proof.
  intros Hb Hm Hm2.
  pose proof (masked_copy_assign_run v m m2 x s buf Hb Hm Hm2) as H.
  unfold mbind, M_bind, bind in *.
  destruct (view_getitem_mask v m s) as [[tmp s1]|e]; [|discriminate].
  rewrite H. done.
Qed.

(** ** One station *)

Lemma b2q_is01 (b : bool) : is01 (b2q b).
Proof. destruct b; [right|left]; done. Qed.

Ltac step tac :=
  cbv beta zeta; erewrite bind_ok; [|solve [tac]]; cbn [rng heap log].

Section Station.
Context (E : Env) (Ag : GeometricArea)
        (tauexit : list Q -> list (option Q) * list Q)
        (voltage : VoltageArgs -> list (list Q))
        (maxview : Q) (antennas : Z) (freqs : list Q) (trigger_SNR : Q)
        (decay_length Eshower : list Q) (decay_point : list vec3)
        (decay_altitude exit_zenith : list Q)
        (decay_point_spherical : list vec3)
        (decay_zenith decay_azimuth : list Q) (vrms : Q)
        (b : nat) (ground_view : list (list Q)).

Let n := length (trials Ag).
Let m := length (stations_geocentric Ag).
Let Ptrig := {| a_base := b; a_rows := m; a_cols := n |}.

Hypothesis Hshapes : shapes_agree E Ag tauexit voltage.
Hypothesis Hdl : length decay_length = n.
Hypothesis Hes : length Eshower = n.
Hypothesis Hdp : length decay_point = n.
Hypothesis Hda : length decay_altitude = n.
Hypothesis Hdps : length decay_point_spherical = n.
Hypothesis Hdz : length decay_zenith = n.
Hypothesis Hdaz : length decay_azimuth = n.
Hypothesis Hgv : length ground_view = m.
Hypothesis Hgv_rows : Forall (fun r => length r = n) ground_view.

(** One turn of the loop succeeds.  It leaves in row [i] of [Ptrig],
    at the places in view, what [SNR > trigger_SNR] gave and nothing else:
    the two assignments under the horizon masks do not reach [Ptrig].  The
    altitude it hands to the voltage model and to the two horizon
    functions is the norm of the position with [Re] taken off every
    coordinate. *)
Lemma station_iteration_run (i : nat) (s : state) (buf : list Q) :
  (i < m)%nat ->
  heap s !! b = Some buf -> length buf = (m * n)%nat -> Forall is01 buf ->
  exists s' buf',
    station_iteration E Ag voltage maxview antennas freqs trigger_SNR
      decay_length Eshower decay_point decay_altitude exit_zenith
      decay_point_spherical decay_zenith decay_azimuth vrms
      Ptrig ground_view i s = Ok (tt, s') /\
    heap s' !! b = Some buf' /\ length buf' = (m * n)%nat /\
    Forall is01 buf' /\
    exists st gv args,
      stations_geocentric Ag !! i = Some st /\
      ground_view !! i = Some gv /\
      let row := {| v_base := b; v_off := i * n; v_len := n |} in
      let altitude := norm E (vsub_scalar st (Re E)) in
      buf' = set_window row buf
               (scatter (window row buf)
                  (map (fun g => Qle_bool g maxview) gv)
                  (map (fun r => b2q (np_gt (np_div (np_sum r) vrms)
                                            trigger_SNR))
                       (voltage args))) /\
      va_detector_altitude args = altitude /\
      log s' = log s ++ [CallVoltage i args;
                         CallDistanceToHorizon i altitude (Re E);
                         CallHorizonAngle i altitude (Re E)].
Proof.
  intros Hi Hb Hlen H01.
  destruct Hshapes as [_ _ _ _ Hgeo Hor Hfov Hdb Hdbr _ _ _ _ _ _ _ _ Hth Hvo].
  destruct (lookup_lt_is_Some_2 ground_view i ltac:(lia)) as [gv Hgvi].
  destruct (lookup_lt_is_Some_2 (stations_geocentric Ag) i ltac:(done))
    as [st Hst].
  destruct (lookup_lt_is_Some_2 (stations_geodetic Ag) i ltac:(lia))
    as [gd Hgd].
  destruct (lookup_lt_is_Some_2 (Ag_orientations Ag) i ltac:(lia))
    as [ori Hori].
  destruct (lookup_lt_is_Some_2 (Ag_fov Ag) i ltac:(lia)) as [fv Hfv].
  destruct (lookup_lt_is_Some_2 (dbeacon Ag) i ltac:(lia)) as [dbr Hdbi].
  assert (length gv = n) as Hgvl.
  { rewrite Forall_forall in Hgv_rows. apply Hgv_rows.
    apply list_elem_of_lookup. eauto. }
  assert (length dbr = n) as Hdbl.
  { rewrite Forall_forall in Hdbr. apply Hdbr.
    apply list_elem_of_lookup. eauto. }
  set (in_sight := map (fun g => Qle_bool g maxview) gv).
  assert (length in_sight = n) as Hin
    by (unfold in_sight; rewrite length_map; done).
  unfold station_iteration.
  step ltac:(apply getitem_ok; eassumption).
  step ltac:(apply getitem_ok; eassumption).
  fold in_sight.
  step ltac:(apply lift_ok, getitem_mask_ok; lia).
  step ltac:(apply getitem_ok; eassumption).
  step ltac:(apply lift_ok, getitem_mask_ok; lia).
  cbv beta zeta.
  pose proof (Hth st (select decay_point in_sight) gd
                  (select decay_point_spherical in_sight)) as Htheta.
  destruct (obs_zenith_azimuth E st (select decay_point in_sight) gd
              (select decay_point_spherical in_sight)) as [theta phi].
  cbn [fst] in Htheta.
  step ltac:(apply getitem_ok; eassumption).
  step ltac:(apply lift_ok, getitem_mask_ok; lia).
  step ltac:(apply lift_ok, getitem_mask_ok; lia).
  step ltac:(apply lift_ok, getitem_mask_ok; lia).
  step ltac:(apply lift_ok, getitem_mask_ok; lia).
  step ltac:(apply getitem_ok; eassumption).
  step ltac:(apply lift_ok, getitem_mask_ok; lia).
  step ltac:(apply lift_ok, getitem_mask_ok; lia).
  step ltac:(apply getitem_ok; eassumption).
  set (args := Build_VoltageArgs _ _ _ _ _ _ _ _ _ _ _ _ _ _ _ _).
  step ltac:(reflexivity).
  step ltac:(apply getitem_row_ok; done).
  set (trig := map (fun v => b2q (np_gt v trigger_SNR)) _).
  set (row := Build_ndview _ _ _).
  assert (v_off row + v_len row <= length buf)%nat as Hrow.
  { unfold row, Ptrig. cbn [v_off v_len a_cols]. rewrite Hlen.
    clear -Hi. nia. }
  assert (length (select decay_point in_sight) = count_true in_sight) as Hk
    by (apply select_count; lia).
  assert (length trig = count_true in_sight) as Htrig.
  { unfold trig. rewrite !length_map, Hvo. unfold args.
    cbn [va_distance_to_decay]. rewrite length_map. done. }
  step ltac:(apply (view_setitem_mask_run row in_sight trig _ buf);
             [done|rewrite window_length; [done|done]|done]).
  step ltac:(reflexivity).
  step ltac:(reflexivity).
  step ltac:(apply lift_ok, broadcast2_ok; rewrite !length_map; lia).
  step ltac:(apply getitem_row_ok; done).
  fold row.
  set (buf' := set_window row buf (scatter (window row buf) in_sight trig)).
  assert (length buf' = length buf) as Hlen'.
  { apply set_window_length; [done|].
    rewrite scatter_length. apply window_length. done. }
  assert (<[b:=buf']> (heap s) !! b = Some buf') as Hb1.
  { apply list_lookup_insert_eq. eapply lookup_lt_Some. exact Hb. }
  cbv beta zeta.
  erewrite (masked_copy_assign_then row in_sight _ _ _ _ buf');
    [|exact Hb1
     |rewrite window_length; [done|lia]
     |rewrite length_zip_with, !length_map; lia].
  cbn [rng heap log].
  step ltac:(apply getitem_row_ok; done).
  fold row. cbv beta zeta.
  erewrite (masked_copy_assign_run row in_sight _ _ _ buf');
    [|apply lookup_app_l_Some; exact Hb1
     |rewrite window_length; [done|lia]
     |rewrite !length_map; lia].
  cbn [rng heap log].
  do 2 eexists. split; [reflexivity|].
  split; [cbn [heap]; do 2 apply lookup_app_l_Some; exact Hb1|].
  split; [lia|]. split.
  - apply set_window_Forall; [done|].
    apply scatter_Forall.
    + unfold window. apply Forall_take, Forall_drop. done.
    + unfold trig. rewrite Forall_forall. intros q Hq.
      apply list_elem_of_In, in_map_iff in Hq as (v & <- & _).
      apply b2q_is01.
  - exists st, gv, args. split; [done|]. split; [done|]. cbv zeta.
    split; [|split; [reflexivity|]].
    + unfold buf', trig, row, Ptrig, in_sight. cbn [a_base a_cols].
      rewrite map_map. reflexivity.
    + cbn [log]. rewrite <- !app_assoc. reflexivity.
Qed.

Lemma station_loop_run (k : nat) :
  forall (a : nat) (s : state) (buf : list Q),
    (a + k <= m)%nat ->
    heap s !! b = Some buf -> length buf = (m * n)%nat -> Forall is01 buf ->
    exists s' buf',
      for_range (seq a k)
        (station_iteration E Ag voltage maxview antennas freqs trigger_SNR
           decay_length Eshower decay_point decay_altitude exit_zenith
           decay_point_spherical decay_zenith decay_azimuth vrms
           Ptrig ground_view) s = Ok (tt, s') /\
      heap s' !! b = Some buf' /\ length buf' = (m * n)%nat /\
      Forall is01 buf'.
Proof.
  induction k as [|k IH]; intros a s buf Ha Hb Hlen H01.
  - exists s, buf. done.
  - destruct (station_iteration_run a s buf ltac:(lia) Hb Hlen H01)
      as (s1 & buf1 & Hrun & Hb1 & Hlen1 & H011 & _).
    destruct (IH (S a) s1 buf1 ltac:(lia) Hb1 Hlen1 H011)
      as (s2 & buf2 & Hrun2 & Hb2 & Hlen2 & H012).
    exists s2, buf2. split; [|done].
    cbn [seq for_range]. rewrite (bind_ok _ _ _ _ _ Hrun). exact Hrun2.
Qed.

End Station.

(** ** The whole calculation on a batch that is not empty *)

Lemma sample_shower_energies_run (E : Env) (Etau : list Q) (s : state) :
  (0 < Nem E)%nat -> (0 < Nhad E)%nat ->
  exists Eshower s',
    sample_shower_energies E Etau (Z.of_nat (length Etau)) s
      = Ok (Eshower, s') /\
    length Eshower = length Etau /\ heap s' = heap s.
Proof.
  intros Hem Hhad. unfold sample_shower_energies.
  rewrite (bind_ok _ _ _ _ _ (sample_shower_type_run E (length Etau) s)).
  rewrite (bind_ok _ _ _ _ _
             (sample_energy_fraction_run E _ _ Hem Hhad)).
  unfold lift. rewrite broadcast2_ok.
  - do 2 eexists. split; [reflexivity|]. split; [|done].
    rewrite !length_zip_with, !length_map, !length_seq. lia.
  - rewrite !length_zip_with, !length_map, !length_seq. lia.
Qed.

Lemma sample_range_run (E : Env) (Etau : list Q) (s : state) :
  Forall (fun e => 0 <= e)%Q Etau ->
  exists decay_length,
    sample_range E Etau s =
      Ok (decay_length, State (rng s + length Etau) (heap s) (log s)) /\
    length decay_length = length Etau.
Proof.
  intros Hpos. unfold sample_range, np_random_exponential.
  assert (forallb (fun c => Qle_bool 0 c)
            (map (Qmult (49 # 1000000000000000000)) Etau) = true) as ->.
  { apply forallb_forall. intros c Hc.
    apply in_map_iff in Hc as (e & <- & He).
    rewrite Forall_forall in Hpos. apply list_elem_of_In, Hpos in He.
    apply Qle_bool_iff. apply Qmult_le_0_compat; [|done].
    unfold Qle. simpl. lia. }
  rewrite length_map. eexists. split; [reflexivity|].
  rewrite length_zip_with, !length_map, length_seq. lia.
Qed.

Lemma sum_axis0_length (c : nat) (rows : list (list Q)) :
  Forall (fun r => length r = c) rows -> length (sum_axis0 c rows) = c.
Proof.
  unfold sum_axis0. induction 1 as [|r rows Hr Hrows IH]; cbn [foldr].
  - apply length_replicate.
  - rewrite length_zip_with. lia.
Qed.

Lemma rows_of_length (r c : nat) (buf : list Q) :
  length (rows_of r c buf) = r.
Proof. unfold rows_of. rewrite length_map, length_seq. done. Qed.

Lemma rows_of_rows (r c : nat) (buf : list Q) :
  length buf = (r * c)%nat ->
  Forall (fun row => length row = c) (rows_of r c buf).
Proof.
  intros Hlen. unfold rows_of. rewrite Forall_forall. intros row Hrow.
  apply list_elem_of_In, in_map_iff in Hrow as (i & <- & Hi).
  apply in_seq in Hi. rewrite length_take, length_drop.
  assert (i * c + c <= r * c)%nat by nia. lia.
Qed.

Lemma rows_of_Forall (P : Q -> Prop) (r c : nat) (buf : list Q) :
  Forall P buf -> Forall (Forall P) (rows_of r c buf).
Proof.
  intros HP. unfold rows_of. rewrite Forall_forall. intros row Hrow.
  apply list_elem_of_In, in_map_iff in Hrow as (i & <- & Hi).
  apply Forall_take, Forall_drop. done.
Qed.

Lemma aggregate_run (Ag : GeometricArea) (N : Z) (n_stations : nat)
    (Pexit : list (option Q)) (P : list (list Q)) (ncols : nat) (s : state) :
  length (dot Ag) = ncols -> length Pexit = ncols ->
  Forall (fun r => length r = ncols) P ->
  aggregate Ag N n_stations Pexit P ncols s =
  Ok (aggregate_value Ag N n_stations Pexit P ncols, s).
Proof.
  intros Hdot HP Hrows. unfold aggregate.
  cbv beta zeta.
  erewrite bind_ok;
    [|apply lift_ok, broadcast2_ok; rewrite length_map; lia].
  erewrite bind_ok;
    [|apply lift_ok, broadcast2_ok;
      rewrite length_zip_with, !length_map, sum_axis0_length by done; lia].
  done.
Qed.

Section Calculate.
Context (E : Env)
        (ra dec : Q) (lat lon altitude orientations fov : list Q)
        (tauexit : list Q -> list (option Q) * list Q)
        (voltage : VoltageArgs -> list (list Q))
        (maxview : Q) (N antennas : Z) (freqs : list Q) (trigger_SNR : Q).

Local Abbreviation Ag :=
  (batch E ra dec lat lon altitude orientations fov maxview N).
Local Abbreviation Pexit0 :=
  (exit_probabilities E ra dec lat lon altitude orientations fov tauexit
                      maxview N).

Lemma calculate_run (s : state) :
  shapes_agree E Ag tauexit voltage -> emergence Ag <> [] ->
  exists s' buf,
    calculate E ra dec lat lon altitude orientations fov tauexit voltage
              maxview N antennas freqs trigger_SNR s
    = Ok (aggregate_value Ag N (length (stations_geocentric Ag))
            Pexit0
            (rows_of (length (stations_geocentric Ag))
                     (length (trials Ag)) buf)
            (length (trials Ag)), s') /\
    heap s' !! length (heap s) = Some buf /\
    length buf =
      (length (stations_geocentric Ag) * length (trials Ag))%nat /\
    Forall is01 buf.
Proof.
  intros Hshapes Hne. pose proof Hshapes as Hsh.
  destruct Hsh as [Hem Hhad Hemg Hdot _ _ _ _ _ HPe HEt HEp Hsph Hdz Hdaz
                   Hview Hviewr _ _].
  unfold calculate. fold Ag.
  step ltac:(reflexivity).
  destruct (Nat.eqb_spec (length (emergence Ag)) 0) as [H0|_].
  { destruct (emergence Ag); [done|discriminate]. }
  step ltac:(reflexivity).
  cbv beta zeta. unfold exit_probabilities.
  set (zenith := map (fun e => (90 - rad2deg E e)%Q) (emergence Ag)).
  pose proof (HPe zenith) as HP. pose proof (HEt zenith) as HE.
  pose proof (HEp zenith) as HEpos.
  destruct (tauexit zenith) as [Pexit Etau]. cbn [fst snd] in *.
  assert (length zenith = length (trials Ag)) as Hz
    by (unfold zenith; rewrite length_map; done).
  step ltac:(reflexivity).
  set (s1 := State _ _ _).
  destruct (sample_range_run E Etau s1 HEpos) as (decay_length & Hsr & Hdl).
  step ltac:(exact Hsr).
  step ltac:(reflexivity).
  rewrite Hdl.
  set (s2 := State _ _ _).
  destruct (sample_shower_energies_run E Etau s2 Hem Hhad)
    as (Eshower & s3 & Hsse & Hes & Hheap3).
  step ltac:(exact Hsse).
  step ltac:(apply lift_ok, broadcast2_ok; lia).
  cbv beta zeta.
  set (decay_point := zip_with _ (trials Ag) decay_length).
  assert (length decay_point = length (trials Ag)) as Hdp
    by (unfold decay_point; rewrite length_zip_with; lia).
  pose proof (Hdz decay_point (axis Ag)
                (cartesian_to_spherical E decay_point)
                (cartesian_to_spherical E [axis Ag])) as Hdz'.
  pose proof (Hdaz decay_point (axis Ag)
                (cartesian_to_spherical E decay_point)
                (cartesian_to_spherical E [axis Ag])) as Hdaz'.
  destruct (decay_zenith_azimuth E decay_point (axis Ag)
              (cartesian_to_spherical E decay_point)
              (cartesian_to_spherical E [axis Ag]))
    as [decay_zenith decay_azimuth]. cbn [fst snd] in *.
  step ltac:(reflexivity).
  step ltac:(reflexivity).
  cbn [a_cols].
  step ltac:(reflexivity).
  set (n := length (trials Ag)) in *.
  set (m := length (stations_geocentric Ag)) in *.
  set (s4 := State _ _ _).
  assert (heap s4 !! length (heap s) = Some (replicate (m * n) 0%Q)) as Hb4.
  { unfold s4. cbn [heap]. rewrite Hheap3. unfold s2, s1. cbn [heap].
    rewrite lookup_app_r, Nat.sub_diag by done. done. }
  destruct (station_loop_run E Ag tauexit voltage maxview antennas freqs
              trigger_SNR decay_length Eshower decay_point
              (map (fun p => (norm E p - Re E)%Q) decay_point)
              (map (fun e => (np_pi E / 2 - e)%Q) (emergence Ag))
              (cartesian_to_spherical E decay_point)
              decay_zenith decay_azimuth (Vrms E freqs antennas)
              (length (heap s))
              (view_angle E (trials Ag) (stations_geocentric Ag)
                          (axis Ag))
              Hshapes ltac:(lia) ltac:(lia) Hdp
              ltac:(rewrite length_map; done)
              ltac:(rewrite Hsph; done) ltac:(lia) ltac:(lia)
              (Hview _ _ _) (Hviewr _ _ _)
              m 0%nat s4 (replicate (m * n) 0%Q) ltac:(fold m; lia) Hb4
              ltac:(apply length_replicate)
              ltac:(apply Forall_replicate; left; done))
    as (s5 & buf & Hloop & Hb5 & Hlen5 & H015).
  fold m n in Hloop, Hlen5.
  assert (heap s3 = heap s) as Hh3 by (rewrite Hheap3; done).
  rewrite Hheap3. unfold s2, s1. cbn [heap].
  step ltac:(exact Hloop).
  step ltac:(unfold array2_read; cbn [a_base a_rows a_cols];
             rewrite Hb5; reflexivity).
  exists s5, buf. split; [|done].
  apply aggregate_run; [lia|lia|]. apply rows_of_rows. done.
Qed.

End Calculate.

(** ** The four coefficients, as the specification words them *)

Lemma np_div_nonzero (x d : Q) : ~ (d == 0)%Q -> np_div x d = Fin (x / d).
Proof.
  intros Hd. unfold np_div. destruct (Qeq_bool d 0) eqn:H; [|done].
  apply Qeq_bool_iff in H. done.
Qed.

Lemma ma_count_unmasked (l : list (option Q)) :
  ma_count l = length (unmasked l).
Proof.
  unfold ma_count, count_true.
  induction l as [|[q|] l IH]; simpl; auto.
Qed.

Lemma np_sum_filled0 (l : list (option Q)) :
  (np_sum (filled0 l) == np_sum (unmasked l))%Q.
Proof.
  induction l as [|[q|] l IH]; simpl; [reflexivity| |].
  - rewrite IH. reflexivity.
  - rewrite IH. ring.
Qed.

Lemma indicator_is01 (q : Q) : is01 q -> indicator q = Qltb 0 q.
Proof. intros [-> | ->]; done. Qed.

Lemma Qltb_plus01 (r c : Q) :
  is01 r -> (0 <= c)%Q -> Qltb 0 (r + c) = indicator r || Qltb 0 c.
Proof.
  intros Hr Hc. rewrite (indicator_is01 r Hr).
  destruct (Qltb 0 (r + c)) eqn:H1.
  - apply Qltb_lt in H1. symmetry. apply orb_true_iff.
    destruct Hr as [-> | ->]; [right|left]; apply Qltb_lt; lra.
  - apply Qltb_ge in H1. symmetry. apply orb_false_iff.
    split; apply Qltb_ge; destruct Hr as [-> | ->]; lra.
Qed.

Lemma sum_axis0_detections (ncols : nat) (P : list (list Q)) :
  Forall (Forall is01) P ->
  Forall (fun c => 0 <= c)%Q (sum_axis0 ncols P) /\
  map (fun c => Qltb 0 c) (sum_axis0 ncols P) = detections ncols P.
Proof.
  unfold sum_axis0, detections.
  induction 1 as [|r P Hr HP [IH0 IH]]; cbn [foldr map].
  - split.
    + apply Forall_replicate. lra.
    + induction ncols; simpl; [done|]. f_equal. done.
  - rewrite <- IH. clear IH. revert IH0.
    generalize (foldr (zip_with Qplus) (replicate ncols 0%Q) P) as c.
    induction Hr as [|x r Hx Hr IHr]; intros [|y c] Hc; cbn; try done.
    apply Forall_cons in Hc as [Hy Hc].
    destruct (IHr c Hc) as [IH1 IH2]. split.
    + constructor; [|done]. destruct Hx as [-> | ->]; lra.
    + f_equal; [|done]. apply Qltb_plus01; done.
Qed.

Lemma np_sum_b2q (bs : list bool) :
  (np_sum (map b2q bs) == nat2q (count_true bs))%Q.
Proof.
  unfold count_true. induction bs as [|[] bs IH]; cbn [map np_sum foldr select].
  - reflexivity.
  - fold (np_sum (map b2q bs)). rewrite IH. cbn [length b2q].
    rewrite nat2q_S. ring.
  - fold (np_sum (map b2q bs)). rewrite IH. cbn [b2q]. ring.
Qed.

Lemma detections_length (ncols : nat) (P : list (list Q)) :
  Forall (fun r => length r = ncols) P -> length (detections ncols P) = ncols.
Proof.
  unfold detections. induction 1 as [|r P Hr HP IH]; cbn [map foldr].
  - apply length_replicate.
  - rewrite length_zip_with, length_map. lia.
Qed.

Lemma weighted_terms (a : Q) (ds : list Q) :
  forall (ps : list (option Q)) (bs : list bool),
    zip_with masked_mul (zip_with mul_masked (map (Qmult a) ds) ps) bs
    = zip_with (fun dd p =>
                  match p with
                  | Some pv => Some (a * dd.1 * pv * b2q dd.2)%Q
                  | None => None
                  end) (zip ds bs) ps.
Proof.
  induction ds as [|d ds IH]; intros [|p ps] [|b0 bs]; cbn; try done.
  - f_equal; [destruct p; done|apply IH].
Qed.

Lemma ma_sum_unmasked (w : list (option Q)) (d : Q) :
  ~ (d == 0)%Q ->
  npval_eq (unmask (match ma_sum w with
                    | Some t => np_div t d
                    | None => Masked
                    end))
           (match unmasked w with
            | [] => NaN
            | ts => Fin (np_sum ts / d)
            end).
Proof.
  intros Hd. unfold ma_sum. rewrite ma_count_unmasked.
  pose proof (np_sum_filled0 w) as Hs.
  destruct (unmasked w) as [|t ts]; cbn [length Nat.eqb]; [done|].
  rewrite np_div_nonzero by done. cbn [unmask npval_eq]. rewrite Hs.
  reflexivity.
Qed.

Lemma ma_mean_unmasked (l : list (option Q)) :
  npval_eq (unmask (ma_mean l)) (spec_pexit l).
Proof.
  unfold ma_mean, spec_pexit. rewrite ma_count_unmasked.
  pose proof (np_sum_filled0 l) as Hs.
  destruct (unmasked l) as [|t ts]; cbn [length Nat.eqb]; [done|].
  cbn [unmask npval_eq]. rewrite Hs.
  assert (0 < nat2q (S (length ts)))%Q by (apply nat2q_pos; lia).
  field. lra.
Qed.

Lemma normalisation_nonzero (N : Z) (m : nat) :
  N <> 0%Z -> (0 < m)%nat -> ~ (inject_Z (N * Z.of_nat m) == 0)%Q.
Proof.
  intros HN Hm. unfold Qeq. simpl. lia.
Qed.

Lemma np_mean_nonempty (l : list Q) :
  l <> [] -> np_mean l = Fin (np_sum l / nat2q (length l)).
Proof. destruct l; done. Qed.

(** C3, with [N] read as the trial count that [calculate] is called
    with: on a batch of [n > 0] trials and at least one station, with
    shapes that agree and [N] not zero, [calculate] returns
    [geometric = area * sum(dot) / (N * M)], [pexit] = the mean of the exit
    probabilities that are not masked, [pdet] = the fraction of the [n]
    trials for which the indicator of some station is set in [Ptrig], and
    [effective_area] = the sum over the trials that are not masked of
    [area * dot * Pexit * detected] over [N * M]; [pexit] and
    [effective_area] are nan when every exit probability is masked: the
    mean and the sum of the masked array are the masked constant then,
    which [np.array] stores as nan.  Shapes that agree include a decay
    file with showers of both kinds and tau energies that are not
    negative, without which the samplers raise. *)
Theorem calculate_coefficients (E : Env)
    (ra dec : Q) (lat lon altitude orientations fov : list Q)
    (tauexit : list Q -> list (option Q) * list Q)
    (voltage : VoltageArgs -> list (list Q))
    (maxview : Q) (N antennas : Z) (freqs : list Q) (trigger_SNR : Q)
    (s : state) :
  let Ag := batch E ra dec lat lon altitude orientations fov maxview N in
  let M := length (stations_geocentric Ag) in
  let Pexit := exit_probabilities E ra dec lat lon altitude orientations fov
                                  tauexit maxview N in
  shapes_agree E Ag tauexit voltage ->
  emergence Ag <> [] -> N <> 0%Z -> (0 < M)%nat ->
  exists geometric pexit pdet effective_area s' buf,
    calculate E ra dec lat lon altitude orientations fov tauexit voltage
              maxview N antennas freqs trigger_SNR s
    = Ok ([Fin geometric; pexit; Fin pdet; effective_area], s') /\
    heap s' !! length (heap s) = Some buf /\
    let Ptrig := rows_of M (length (trials Ag)) buf in
    (geometric == spec_geometric Ag N M)%Q /\
    npval_eq pexit (spec_pexit Pexit) /\
    (pdet == spec_pdet Ag Ptrig)%Q /\
    npval_eq effective_area (spec_effective_area Ag N M Pexit Ptrig).
Proof.
  intros Ag M Pexit Hshapes Hne HN HM.
  destruct (calculate_run E ra dec lat lon altitude orientations fov tauexit
              voltage maxview N antennas freqs trigger_SNR s Hshapes Hne)
    as (s' & buf & Hrun & Hb & Hlen & H01).
  fold Ag M Pexit in Hrun, Hlen.
  set (n := length (trials Ag)) in *.
  set (P := rows_of M n buf) in *.
  assert (Forall (fun r => length r = n) P) as Hrows
    by (apply rows_of_rows; done).
  assert (Forall (Forall is01) P) as HP01 by (apply rows_of_Forall; done).
  destruct (sum_axis0_detections n P HP01) as [_ Hdet].
  pose proof (normalisation_nonzero N M HN HM) as Hd.
  assert (0 < n)%nat as Hn.
  { pose proof (sa_emergence _ _ _ _ Hshapes) as He. fold Ag n in He.
    destruct (emergence Ag); [done|]. simpl in He. lia. }
  unfold aggregate_value in Hrun. rewrite Hdet in Hrun.
  rewrite np_div_nonzero in Hrun by done.
  rewrite np_mean_nonempty in Hrun; cycle 1.
  { intros H0. apply (f_equal length) in H0.
    rewrite length_map, detections_length in H0 by done. simpl in H0. lia. }
  do 6 eexists. split; [exact Hrun|]. split; [exact Hb|].
  cbv zeta. fold n P.
  assert (inject_Z (N * Z.of_nat M) == normalisation N M)%Q as Hnorm
    by (unfold normalisation, nat2q; rewrite inject_Z_mult; reflexivity).
  split; [|split; [|split]].
  - unfold spec_geometric. rewrite Hnorm. reflexivity.
  - apply ma_mean_unmasked.
  - unfold spec_pdet. fold n.
    rewrite np_sum_b2q, length_map, detections_length by done. reflexivity.
  - unfold spec_effective_area, trial_terms. fold n.
    rewrite weighted_terms.
    pose proof (ma_sum_unmasked
      (zip_with (fun dd p => match p with
                             | Some pv => Some (area Ag * dd.1 * pv * b2q dd.2)%Q
                             | None => None
                             end) (zip (dot Ag) (detections n P)) Pexit)
      _ Hd) as Hms.
    destruct (unmasked _) as [|t ts]; [exact Hms|].
    destruct (ma_sum _); exact Hms.
Qed.

(** ** Bounds on the coefficients *)

Lemma np_sum_nonneg (l : list Q) :
  Forall (fun x => 0 <= x)%Q l -> (0 <= np_sum l)%Q.
Proof.
  induction 1 as [|x l Hx Hl IH]; cbn [np_sum foldr]; [lra|].
  fold (np_sum l). lra.
Qed.

Lemma count_true_le (bs : list bool) : (count_true bs <= length bs)%nat.
Proof.
  unfold count_true. induction bs as [|[] bs IH]; simpl; lia.
Qed.

Lemma filled0_bounds (l : list (option Q)) :
  Forall probability_or_masked l ->
  (0 <= np_sum (filled0 l) <= nat2q (ma_count l))%Q.
Proof.
  induction 1 as [|p l Hp Hl IH].
  - change (0 <= 0 <= 0)%Q. lra.
  - destruct p as [q|].
    + change (np_sum (filled0 (Some q :: l))) with (q + np_sum (filled0 l))%Q.
      change (ma_count (Some q :: l)) with (S (ma_count l)).
      rewrite nat2q_S. cbn in Hp. lra.
    + change (np_sum (filled0 (None :: l))) with (0 + np_sum (filled0 l))%Q.
      change (ma_count (None :: l)) with (ma_count l). lra.
Qed.

Lemma weighted_nonneg (xs : list Q) :
  forall (ps : list (option Q)) (bs : list bool),
    Forall (fun x => 0 <= x)%Q xs -> Forall probability_or_masked ps ->
    Forall (fun x => 0 <= x)%Q
      (filled0 (zip_with masked_mul (zip_with mul_masked xs ps) bs)).
Proof.
  induction xs as [|x xs IH]; intros [|p ps] [|b0 bs] Hx Hp; cbn;
    try constructor.
  - apply Forall_cons in Hx as [Hx Hxs]. apply Forall_cons in Hp as [Hp Hps].
    destruct p as [q|]; cbn in *; [|lra].
    destruct b0; cbn; nra.
  - apply Forall_cons in Hx as [Hx Hxs]. apply Forall_cons in Hp as [Hp Hps].
    apply IH; done.
Qed.

Lemma ma_count_weighted (xs : list Q) :
  forall (ps : list (option Q)) (bs : list bool),
    length xs = length ps -> length bs = length ps ->
    ma_count (zip_with masked_mul (zip_with mul_masked xs ps) bs)
    = ma_count ps.
Proof.
  unfold ma_count, count_true.
  induction xs as [|x xs IH]; intros [|p ps] [|b0 bs] Hx Hb;
    try discriminate; [done|].
  cbn in Hx, Hb. destruct p; cbn; rewrite IH by lia; done.
Qed.

Lemma calculate_bounds_nonempty (E : Env)
    (ra dec : Q) (lat lon altitude orientations fov : list Q)
    (tauexit : list Q -> list (option Q) * list Q)
    (voltage : VoltageArgs -> list (list Q))
    (maxview : Q) (N antennas : Z) (freqs : list Q) (trigger_SNR : Q)
    (s : state) :
  let Ag := batch E ra dec lat lon altitude orientations fov maxview N in
  let Pexit := exit_probabilities E ra dec lat lon altitude orientations fov
                                  tauexit maxview N in
  shapes_agree E Ag tauexit voltage -> emergence Ag <> [] ->
  (0 < N)%Z -> (0 < length (stations_geocentric Ag))%nat ->
  (0 <= area Ag)%Q -> Forall (fun d => 0 <= d)%Q (dot Ag) ->
  Forall probability_or_masked Pexit ->
  exists geometric pexit pdet effective_area s',
    calculate E ra dec lat lon altitude orientations fov tauexit voltage
              maxview N antennas freqs trigger_SNR s
    = Ok ([Fin geometric; pexit; Fin pdet; effective_area], s') /\
    (0 <= geometric)%Q /\ (0 <= pdet <= 1)%Q /\
    match unmasked Pexit with
    | [] => pexit = NaN /\ effective_area = NaN
    | _ => (exists q, pexit = Fin q /\ (0 <= q <= 1)%Q) /\
           (exists q, effective_area = Fin q /\ (0 <= q)%Q)
    end.
Proof.
  intros Ag Pexit Hshapes Hne HN HM Harea Hdot Hprob.
  destruct (calculate_run E ra dec lat lon altitude orientations fov tauexit
              voltage maxview N antennas freqs trigger_SNR s Hshapes Hne)
    as (s' & buf & Hrun & Hb & Hlen & H01).
  fold Ag Pexit in Hrun, Hlen.
  set (M := length (stations_geocentric Ag)) in *.
  set (n := length (trials Ag)) in *.
  set (P := rows_of M n buf) in *.
  assert (Forall (fun r => length r = n) P) as Hrows
    by (apply rows_of_rows; done).
  assert (0 < n)%nat as Hn.
  { pose proof (sa_emergence _ _ _ _ Hshapes) as He. fold Ag n in He.
    destruct (emergence Ag); [done|]. simpl in He. lia. }
  assert (length (sum_axis0 n P) = n) as Hcs by (apply sum_axis0_length; done).
  assert (length Pexit = n) as HPl.
  { unfold Pexit, exit_probabilities.
    rewrite (sa_Pexit _ _ _ _ Hshapes), length_map.
    apply (sa_emergence _ _ _ _ Hshapes). }
  pose proof (sa_dot _ _ _ _ Hshapes) as Hdl. fold Ag n in Hdl.
  assert (0 < inject_Z (N * Z.of_nat M))%Q as Hd
    by (unfold Qlt; simpl; nia).
  unfold aggregate_value in Hrun.
  rewrite np_div_nonzero in Hrun by lra.
  set (Pdet := map (fun c => Qltb 0 c) (sum_axis0 n P)) in *.
  assert (length Pdet = n) as HPd by (unfold Pdet; rewrite length_map; done).
  rewrite np_mean_nonempty in Hrun; cycle 1.
  { intros H0. apply (f_equal length) in H0.
    rewrite length_map, HPd in H0. simpl in H0. lia. }
  set (w := zip_with masked_mul _ Pdet) in *.
  assert (ma_count w = ma_count Pexit) as Hcw
    by (apply ma_count_weighted; rewrite ?length_map; lia).
  assert (Forall (fun x => 0 <= x)%Q (filled0 w)) as Hw.
  { apply weighted_nonneg; [|done]. rewrite Forall_forall in Hdot.
    rewrite Forall_forall. intros x Hx.
    apply list_elem_of_In, in_map_iff in Hx as (d & <- & Hdi).
    apply list_elem_of_In, Hdot in Hdi. nra. }
  pose proof (filled0_bounds Pexit Hprob) as [Hp0 Hp1].
  pose proof (ma_count_unmasked Pexit) as Hcu.
  do 5 eexists. split; [exact Hrun|].
  split; [|split].
  - apply Qle_shift_div_l; [done|]. pose proof (np_sum_nonneg _ Hdot). nra.
  - rewrite np_sum_b2q, length_map.
    pose proof (count_true_le Pdet) as Hc.
    pose proof (nat2q_pos (length Pdet) ltac:(lia)) as Hl.
    pose proof (nat2q_le _ _ Hc) as Hc'.
    pose proof (nat2q_le 0 (count_true Pdet) ltac:(lia)) as Hc0.
    change (nat2q 0) with 0%Q in Hc0.
    split; [apply Qle_shift_div_l; lra|apply Qle_shift_div_r; lra].
  - unfold ma_mean, ma_sum. rewrite Hcw, Hcu in *.
    destruct (unmasked Pexit) as [|q qs]; cbn [length Nat.eqb];
      [split; reflexivity|].
    pose proof (nat2q_pos (S (length qs)) ltac:(lia)) as Hl.
    cbn [length] in Hp1. rewrite np_div_nonzero by lra.
    split; eexists; (split; [reflexivity|]).
    + split; [apply Qle_shift_div_l; lra|apply Qle_shift_div_r; lra].
    + apply Qle_shift_div_l; [done|]. pose proof (np_sum_nonneg _ Hw). lra.
Qed.

(** C9, with what the claim leaves out: when moreover the shapes agree,
    [N] is positive and there is a station, [geometric] is at least 0,
    [pdet] lies in [0, 1], [pexit] is a number of [0, 1] or nan, and
    [effective_area] is a number that is at least 0 or nan; nan comes out
    exactly when the batch is not empty and every exit probability is
    masked: the mean and the sum of the masked array are the masked
    constant then, which [np.array] stores as nan. *)
Theorem calculate_bounds (E : Env)
    (ra dec : Q) (lat lon altitude orientations fov : list Q)
    (tauexit : list Q -> list (option Q) * list Q)
    (voltage : VoltageArgs -> list (list Q))
    (maxview : Q) (N antennas : Z) (freqs : list Q) (trigger_SNR : Q)
    (s : state) :
  let Ag := batch E ra dec lat lon altitude orientations fov maxview N in
  let Pexit := exit_probabilities E ra dec lat lon altitude orientations fov
                                  tauexit maxview N in
  let all_masked := emergence Ag <> [] /\ unmasked Pexit = [] in
  shapes_agree E Ag tauexit voltage ->
  (0 < N)%Z -> (0 < length (stations_geocentric Ag))%nat ->
  (0 <= area Ag)%Q -> Forall (fun d => 0 <= d)%Q (dot Ag) ->
  Forall probability_or_masked Pexit ->
  exists geometric pexit pdet effective_area s',
    calculate E ra dec lat lon altitude orientations fov tauexit voltage
              maxview N antennas freqs trigger_SNR s
    = Ok ([Fin geometric; pexit; Fin pdet; effective_area], s') /\
    (0 <= geometric)%Q /\ (0 <= pdet <= 1)%Q /\
    match pexit with
    | Fin q => (0 <= q <= 1)%Q /\ ~ all_masked
    | NaN => all_masked
    | _ => False
    end /\
    match effective_area with
    | Fin q => (0 <= q)%Q /\ ~ all_masked
    | NaN => all_masked
    | _ => False
    end.
Proof.
  intros Ag Pexit all_masked Hshapes HN HM Harea Hdot Hprob.
  destruct (emergence Ag) as [|e es] eqn:Hem.
  - exists 0%Q, (Fin 0), 0%Q, (Fin 0). eexists. split.
    + unfold calculate, mbind, M_bind, bind, emit.
      unfold Ag, batch in Hem. rewrite Hem. reflexivity.
    + unfold all_masked.
      repeat split; try lra; intros [? _]; done.
  - destruct (calculate_bounds_nonempty E ra dec lat lon altitude orientations
                fov tauexit voltage maxview N antennas freqs trigger_SNR s
                Hshapes ltac:(fold Ag; rewrite Hem; done) HN HM Harea Hdot
                Hprob)
      as (g & pe & pd & ea & s' & Hrun & Hg & Hpd & Hm).
    exists g, pe, pd, ea, s'. split; [exact Hrun|].
    split; [exact Hg|]. split; [exact Hpd|].
    fold Pexit in Hm. unfold all_masked.
    destruct (unmasked Pexit) as [|q qs].
    + destruct Hm as [-> ->]. done.
    + destruct Hm as [(q1 & -> & H1) (q2 & -> & H2)].
      split; (split; [done|intros [_ ?]; done]).
Qed.

(** ** The small configuration, evaluated *)

Lemma example_shapes (n : nat) (stations : list vec3) (theta0 hd ha : Q)
    (p : option Q) (v : Q) :
  shapes_agree (example_env (example_batch n stations) theta0 hd ha)
               (example_batch n stations)
               (example_tauexit p) (example_voltage v).
Proof.
  split; cbn [example_env example_batch example_tauexit example_voltage
              emergence trials dot stations_geodetic stations_geocentric
              Ag_orientations Ag_fov dbeacon cartesian_to_spherical
              decay_zenith_azimuth view_angle obs_zenith_azimuth fst snd];
    intros; rewrite ?length_map, ?length_replicate; try done.
  - vm_compute. lia.
  - vm_compute. lia.
  - rewrite Forall_forall. intros r Hr.
    apply list_elem_of_In, in_map_iff in Hr as (x & <- & _).
    apply length_replicate.
  - rewrite Forall_forall. intros e He.
    apply list_elem_of_In, in_map_iff in He as (x & <- & _). done.
  - rewrite Forall_forall. intros r Hr.
    apply list_elem_of_In, in_map_iff in Hr as (x & <- & _).
    apply length_map.
  - unfold example_voltage. apply length_map.
Qed.

Lemma sample_shower_type_spec_witness :
  exists stypes s',
    sample_shower_type sampler_env 4 state0 = Ok (stypes, s') /\
    length stypes = 4%nat.
Proof.
  destruct (sample_shower_type_spec sampler_env 4 state0 ltac:(lia))
    as (stypes & Hrun & Hlen & _).
  exists stypes. eexists. split; [exact Hrun|exact Hlen].
Defined.

Lemma sampler_env_Nem : (0 < Nem sampler_env)%nat.
Proof. vm_compute. lia. Qed.

Lemma sampler_env_Nhad : (0 < Nhad sampler_env)%nat.
Proof. vm_compute. lia. Qed.

Lemma sample_energy_fraction_spec_witness :
  exists fractions s',
    sample_energy_fraction sampler_env [0; 1; 1]%Z state0
      = Ok (fractions, s') /\
    length fractions = 3%nat.
Proof.
  assert (Forall (fun t => t = Hadronic \/ t = Electromagnetic) [0; 1; 1]%Z)
    as Hst by (repeat constructor).
  destruct (sample_energy_fraction_spec sampler_env [0; 1; 1]%Z state0
              sampler_env_Nem sampler_env_Nhad Hst)
    as (fr & Hrun & Hlen & _).
  exists fr. eexists. split; [exact Hrun|exact Hlen].
Defined.

Lemma sample_energy_fraction_unknown_type_witness :
  exists fractions s',
    sample_energy_fraction sampler_env [0; 1; 1; 7]%Z state0
      = Ok (fractions, s') /\
    fractions !! 3%nat = Some 0%Q.
Proof.
  destruct (sample_energy_fraction_unknown_type sampler_env [0; 1; 1; 7]%Z
              state0 3 7%Z sampler_env_Nem sampler_env_Nhad eq_refl
              ltac:(discriminate) ltac:(discriminate))
    as (fr & s' & Hrun & Hz & _).
  exists fr, s'. split; [exact Hrun|exact Hz].
Defined.

Lemma sample_shower_energies_spec_witness :
  exists Eshower s',
    sample_shower_energies sampler_env [100; 200; 300]%Q 3 state0
      = Ok (Eshower, s') /\
    length Eshower = 3%nat.
Proof.
  destruct (sample_shower_energies_spec sampler_env [100; 200; 300]%Q state0
              sampler_env_Nem sampler_env_Nhad)
    as (stypes & Efrac & s1 & s2 & Esh & _ & _ & Hrun & Hlen & _).
  exists Esh, s2. split; [exact Hrun|exact Hlen].
Defined.

Lemma calculate_empty_batch_witness :
  example_calculate (example_batch 0 [example_station]) 0 100 (-1 # 30)
                    (Some 1%Q) 100 10 state0
  = Ok ([Fin 0; Fin 0; Fin 0; Fin 0], State 0 [] [CallGeometricArea 10]).
Proof.
  apply (calculate_empty_batch
           (example_env (example_batch 0 [example_station]) 0 100 (-1 # 30))).
  reflexivity.
Defined.

Lemma calculate_coefficients_witness :
  exists geometric pexit pdet effective_area s',
    example_calculate two_trials (17 # 10) 100 (-1 # 30) (Some 1%Q) 100 10
                      state0
    = Ok ([Fin geometric; pexit; Fin pdet; effective_area], s') /\
    (geometric == spec_geometric two_trials 10 1)%Q.
Proof.
  destruct (calculate_coefficients
              (example_env two_trials (17 # 10) 100 (-1 # 30))
              0 0 [] [] [] [] [] (example_tauexit (Some 1%Q))
              (example_voltage 100) (3 # 100) 10 4 [35; 45; 55; 65; 75]%Q 5
              state0
              (example_shapes 2 [example_station] (17 # 10) 100 (-1 # 30)
                              (Some 1%Q) 100)
              ltac:(discriminate) ltac:(discriminate)
              ltac:(simpl; lia))
    as (g & pe & pd & ea & s' & buf & Hrun & _ & Hg & _).
  exists g, pe, pd, ea, s'. split; [exact Hrun|exact Hg].
Defined.

(** C3 as it is worded, with [N] the size of the batch, does not hold:
    asked for 10 trials, the geometry returns a batch of 2, and
    [geometric] is [50 * 1 / (10 * 1)], not [50 * 1 / (2 * 1)]. *)
Lemma calculate_divides_by_requested_count :
  exists geometric rest s',
    example_calculate two_trials (17 # 10) 100 (-1 # 30) (Some 1%Q) 100 10
                      state0
    = Ok (Fin geometric :: rest, s') /\
    length (trials two_trials) = 2%nat /\
    length (stations_geocentric two_trials) = 1%nat /\
    ~ (geometric ==
       area two_trials * np_sum (dot two_trials) / (nat2q 2 * nat2q 1))%Q /\
    (geometric ==
       area two_trials * np_sum (dot two_trials) / (10 * nat2q 1))%Q.
Proof.
  do 3 eexists. split; [vm_compute; reflexivity|].
  split; [reflexivity|]. split; [reflexivity|].
  split; [vm_compute; discriminate|vm_compute; reflexivity].
Qed.

Lemma calculate_bounds_witness :
  exists geometric pexit pdet effective_area s',
    example_calculate two_trials (17 # 10) 100 (-1 # 30) (Some 1%Q) 100 10
                      state0
    = Ok ([Fin geometric; pexit; Fin pdet; effective_area], s') /\
    (0 <= geometric)%Q /\ (0 <= pdet <= 1)%Q.
Proof.
  destruct (calculate_bounds
              (example_env two_trials (17 # 10) 100 (-1 # 30))
              0 0 [] [] [] [] [] (example_tauexit (Some 1%Q))
              (example_voltage 100) (3 # 100) 10 4 [35; 45; 55; 65; 75]%Q 5
              state0
              (example_shapes 2 [example_station] (17 # 10) 100 (-1 # 30)
                              (Some 1%Q) 100)
              ltac:(lia) ltac:(simpl; lia)
              ltac:(vm_compute; discriminate)
              ltac:(repeat constructor; vm_compute; discriminate)
              ltac:(repeat constructor; vm_compute; discriminate))
    as (g & pe & pd & ea & s' & Hrun & Hg & Hpd & _).
  exists g, pe, pd, ea, s'. split; [exact Hrun|]. split; [exact Hg|exact Hpd].
Defined.

(** C9 as it is worded does not hold.  With every exit probability
    masked, [pexit] and [effective_area] are nan and no number of [0, 1];
    with a negative [N], [geometric] is negative.  The area and the dot
    weights are positive in both runs and no exit probability lies
    outside [0, 1]. *)
Lemma calculate_out_of_bounds :
  (0 <= area two_trials)%Q /\
  Forall (fun d => 0 <= d)%Q (dot two_trials) /\
  (exists geometric pdet s',
     example_calculate two_trials (17 # 10) 100 (-1 # 30) None 100 10 state0
     = Ok ([geometric; NaN; pdet; NaN], s')) /\
  (exists geometric rest s',
     example_calculate two_trials (17 # 10) 100 (-1 # 30) (Some 1%Q) 100
                       (-10) state0
     = Ok (Fin geometric :: rest, s') /\ (geometric < 0)%Q).
Proof.
  split; [vm_compute; discriminate|].
  split; [repeat constructor; vm_compute; discriminate|].
  split.
  - do 3 eexists. vm_compute. reflexivity.
  - do 3 eexists. split; [vm_compute; reflexivity|]. vm_compute. reflexivity.
Qed.

(** C8 as it is worded does not hold.  A negative trial count does not
    stop [calculate]: it divides by it, and [geometric] and
    [effective_area] are -5.  An array of dot weights with one entry for
    three trials does not stop it either: the entry is summed once for
    [geometric], 2.5, and repeated for [effective_area], 7.5. *)
Lemma calculate_accepts_malformed_input :
  (exists s',
     example_calculate two_trials (17 # 10) 100 (-1 # 30) (Some 1%Q) 100
                       (-10) state0
     = Ok ([Fin (-200 # 40); Fin (2 # 2); Fin (2 # 2); Fin (-200 # 40)],
           s')) /\
  length (dot (short_dot_batch 3 [example_station])) = 1%nat /\
  length (trials (short_dot_batch 3 [example_station])) = 3%nat /\
  (exists s',
     example_calculate (short_dot_batch 3 [example_station]) (17 # 10) 100
                       (-1 # 30) (Some 1%Q) 100 10 state0
     = Ok ([Fin (50 # 20); Fin (3 # 3); Fin (3 # 3); Fin (600 # 80)], s')).
Proof.
  split; [eexists; vm_compute; reflexivity|].
  split; [reflexivity|]. split; [reflexivity|].
  eexists. vm_compute. reflexivity.
Qed.

(** ** The horizon masks and the altitude of the station *)

(** C2 does not hold of the code.  [Ptrig[i][in_sight]] is a copy, so the
    two assignments of 0.0 that follow the trigger decision go to copies
    and [Ptrig] keeps the decision.  One station, one trial in view:
    - seen at the zenith (elevation pi/2 > 0), it is detected when the
      voltage is high and not when the voltage is zero; the store ends
      with [Ptrig] at 1 and the copy of the second assignment at 0;
    - seen 2 rad from the zenith (elevation below the horizon angle
      -1/30) at more than the horizon distance 1, it is detected as well;
      the store ends with [Ptrig] at 1 and the copy of the first
      assignment at 0. *)
Theorem horizon_masks_miss_Ptrig :
  let above := example_calculate one_trial 0 100 (-1 # 30) (Some 1%Q) in
  let behind := example_calculate one_trial 2 1 (-1 # 30) (Some 1%Q) in
  (0 < (355 # 113) / 2 - 0)%Q /\
  value_of (above 100%Q 10%Z state0)
    = Some [Fin (50 # 20); Fin 1; Fin 1; Fin (50 # 20)] /\
  store_of (above 100%Q 10%Z state0) = [[1%Q]; [1%Q]; [0%Q]] /\
  value_of (above 0%Q 10%Z state0)
    = Some [Fin (50 # 20); Fin 1; Fin 0; Fin (0 # 20)] /\
  ((355 # 113) / 2 - 2 < -1 # 30)%Q /\
  Forall (fun d => 1 < d)%Q
         (distances_handed_over (trace_of (behind 100%Q 10%Z state0))) /\
  distances_handed_over (trace_of (behind 100%Q 10%Z state0)) <> [] /\
  value_of (behind 100%Q 10%Z state0)
    = Some [Fin (50 # 20); Fin 1; Fin 1; Fin (50 # 20)] /\
  store_of (behind 100%Q 10%Z state0) = [[1%Q]; [0%Q]; [1%Q]] /\
  value_of (behind 0%Q 10%Z state0)
    = Some [Fin (50 # 20); Fin 1; Fin 0; Fin (0 # 20)].
Proof.
  cbv zeta. repeat split; try (vm_compute; reflexivity).
  - vm_compute. repeat constructor.
  - vm_compute. discriminate.
Qed.

(** C7 does not hold of the code.  The value handed to the voltage
    model, to the horizon distance and to the horizon angle is one and the
    same, but it is the norm of (position - Re), with Re taken off every
    coordinate, and not (norm of position) - Re.  For the station at
    (6371 + 6371/2378, 0, 0) and Re = 6371, where both norms are rational,
    the three calls receive 21425673/2378 (about 9010 km) while the station
    is 6371/2378 (about 2.7 km) above the sphere. *)
Theorem detector_altitude_is_not_the_altitude :
  let run := example_calculate one_trial (17 # 10) 100 (-1 # 30) (Some 1%Q)
                               100 10 state0 in
  let E := example_env one_trial (17 # 10) 100 (-1 # 30) in
  let handed := norm E (vsub_scalar example_station (Re E)) in
  let altitude := (norm E example_station - Re E)%Q in
  altitudes_handed_over (trace_of run) = [handed; handed; handed] /\
  (handed == 21425673 # 2378)%Q /\
  (altitude == 6371 # 2378)%Q /\
  ~ (handed == altitude)%Q /\
  (handed * handed ==
     (vx example_station - Re E) * (vx example_station - Re E)
     + Re E * Re E + Re E * Re E)%Q /\
  ((altitude + Re E) * (altitude + Re E)
   == vx example_station * vx example_station)%Q.
Proof.
  cbv zeta. repeat split; try (vm_compute; reflexivity).
  vm_compute. discriminate.
Qed.

(** * Further properties *)

(** ** The decay file *)

Lemma count_true_cons (b : bool) (bs : list bool) :
  count_true (b :: bs) = ((if b then 1 else 0) + count_true bs)%nat.
Proof. unfold count_true. destruct b; reflexivity. Qed.

Lemma count_true_orb (a : list bool) :
  forall b : list bool, length a = length b ->
    (count_true a <= count_true (zip_with orb a b))%nat /\
    (count_true b <= count_true (zip_with orb a b))%nat /\
    (count_true (zip_with orb a b) <= count_true a + count_true b)%nat.
Proof.
  induction a as [|x a IH]; intros [|y b] Hlen; try discriminate.
  - unfold count_true. simpl. lia.
  - cbn [zip_with]. rewrite !count_true_cons.
    destruct (IH b ltac:(simpl in Hlen; lia)) as (H1 & H2 & H3).
    destruct x, y; cbn [orb]; lia.
Qed.

(** X1: the counts taken from the decay file on import: a shower counted as
    electromagnetic or as hadronic is counted as a shower, a shower is
    counted as one of the two at least, and no count exceeds the number of
    rows.  So Nem / Nshowers is a probability as soon as the file has a
    shower, and nan when it has none. *)
Theorem shower_counts (E : Env) :
  (Nem E <= Nshowers E)%nat /\ (Nhad E <= Nshowers E)%nat /\
  (Nshowers E <= Nem E + Nhad E)%nat /\
  (Nshowers E <= length (decays E))%nat /\
  ((0 < Nshowers E)%nat ->
     exists q, Pem E = Fin q /\ (0 <= q <= 1)%Q) /\
  (Nshowers E = 0%nat -> Pem E = NaN).
Proof.
  unfold Nem, Nhad, Nshowers.
  assert (length (positive (electrons E)) = length (positive (hadrons E)))
    as Hlen.
  { unfold positive, electrons, hadrons. rewrite !length_map. done. }
  destruct (count_true_orb _ _ Hlen) as (H1 & H2 & H3).
  split; [done|]. split; [done|]. split; [done|].
  split.
  { etransitivity; [apply count_true_le|].
    rewrite length_zip_with. unfold positive, electrons.
    rewrite !length_map. lia. }
  split.
  - intros Hpos. unfold Pem, Nem, Nshowers.
    set (a := count_true (positive (electrons E))) in *.
    set (c := count_true (zip_with orb _ _)) in *.
    pose proof (nat2q_pos c Hpos) as Hc.
    pose proof (nat2q_le _ _ H1) as Hac.
    pose proof (nat2q_le 0 a ltac:(lia)) as Ha.
    change (nat2q 0) with 0%Q in Ha.
    rewrite np_div_nonzero by lra. eexists. split; [reflexivity|].
    split; [apply Qle_shift_div_l; lra|apply Qle_shift_div_r; lra].
  - intros H0. unfold Pem, Nem, Nshowers.
    set (a := count_true (positive (electrons E))) in *.
    set (c := count_true (zip_with orb _ _)) in *.
    assert (a = 0%nat) as -> by lia. rewrite H0. reflexivity.
Qed.

(** ** [sample_range] *)

(** X2: on tau energies that are not negative, [sample_range] returns one
    range per energy and takes one double per energy from the generator: the
    range of an energy is 4.9e-17 times the energy times the standard
    exponential deviate made from its own double.  No range is negative
    when no deviate is. *)
Theorem sample_range_spec (E : Env) (Etau : list Q) (s : state) :
  Forall (fun e => 0 <= e)%Q Etau ->
  exists ranges,
    sample_range E Etau s =
      Ok (ranges, State (rng s + length Etau) (heap s) (log s)) /\
    length ranges = length Etau /\
    (forall i e, Etau !! i = Some e ->
       ranges !! i =
       Some ((49 # 1000000000000000000) * e
             * std_exponential E (draws E (rng s + i)))%Q) /\
    ((forall u, 0 <= std_exponential E u)%Q ->
     Forall (fun r => 0 <= r)%Q ranges).
Proof.
  intros Hpos. unfold sample_range, np_random_exponential.
  assert (Forall (fun c => 0 <= c)%Q
            (map (Qmult (49 # 1000000000000000000)) Etau)) as Hscale.
  { rewrite Forall_forall in Hpos. rewrite Forall_forall. intros c Hc.
    apply list_elem_of_In, in_map_iff in Hc as (e & <- & He).
    apply list_elem_of_In, Hpos in He.
    apply Qmult_le_0_compat; [|done]. unfold Qle. simpl. lia. }
  assert (forallb (fun c => Qle_bool 0 c)
            (map (Qmult (49 # 1000000000000000000)) Etau) = true) as ->.
  { apply forallb_forall. intros c Hc. apply Qle_bool_iff.
    rewrite Forall_forall in Hscale. apply Hscale, list_elem_of_In. done. }
  rewrite length_map. eexists. split; [reflexivity|].
  split; [rewrite length_zip_with, !length_map, length_seq; lia|].
  split.
  - intros i e Hi. apply lookup_zip_with_Some.
    exists ((49 # 1000000000000000000) * e)%Q, (draws E (rng s + i)).
    split; [done|]. split.
    + rewrite lookup_map, Hi. done.
    + rewrite lookup_map, lookup_seq_lt; [done|].
      apply lookup_lt_Some in Hi. done.
  - intros Hstd. rewrite Forall_forall. intros r Hr.
    apply elem_of_lookup_zip_with in Hr as (i & c & u & -> & Hc & Hu).
    rewrite Forall_forall in Hscale.
    assert (0 <= c)%Q by (apply Hscale, list_elem_of_lookup; eauto).
    apply Qmult_le_0_compat; [done|apply Hstd].
Qed.

(** X3: a negative tau energy makes [sample_range] raise the ValueError of
    [np.random.exponential]; nothing is returned. *)
Theorem sample_range_negative_energy (E : Env) (Etau : list Q) (s : state) :
  Exists (fun e => e < 0)%Q Etau ->
  sample_range E Etau s = Raise (ValueError "scale < 0").
Proof.
  intros Hneg. unfold sample_range, np_random_exponential.
  assert (forallb (fun c => Qle_bool 0 c)
            (map (Qmult (49 # 1000000000000000000)) Etau) = false) as ->;
    [|done].
  apply not_true_iff_false. intros Hall.
  rewrite forallb_forall in Hall.
  apply Exists_exists in Hneg as (e & He & Hlt).
  specialize (Hall ((49 # 1000000000000000000) * e)%Q).
  rewrite Qle_bool_iff in Hall.
  assert (0 <= (49 # 1000000000000000000) * e)%Q as Hge.
  { apply Hall, in_map, list_elem_of_In. done. }
  assert (0 < 49 # 1000000000000000000)%Q by (unfold Qlt; simpl; lia).
  nra.
Qed.

(** ** [sample_tau_energies] and the errors of the sampler *)

(** X4: for a count that is not negative and a decay file with showers of
    both kinds, [sample_tau_energies] returns [count] energies and takes
    [2 * count] doubles from the generator: the first [count] decide the
    shower types, the next [count] the fractions.  The energy at a place is
    the primary energy times the fraction the place received, a fraction
    in (0, max] of the fractions of the shower type of the place. *)
Theorem sample_tau_energies_spec (E : Env) (Enu : Q) (count : Z) (s : state) :
  (0 <= count)%Z -> (0 < Nem E)%nat -> (0 < Nhad E)%nat ->
  let n := Z.to_nat count in
  exists energies,
    sample_tau_energies E Enu count s =
      Ok (energies, State (rng s + n + n) (heap s) (log s)) /\
    length energies = n /\
    forall i, (i < n)%nat ->
      let t := shower_type_of E (draws E (rng s + i)) in
      let f := fraction_of E t (draws E (rng s + n + i)) in
      energies !! i = Some (Enu * f)%Q /\
      (t = Hadronic \/ t = Electromagnetic) /\
      (0 < f <= np_max (reference_fractions E t))%Q.
Proof.
  intros Hc Hem Hhad. cbv zeta.
  assert (count = Z.of_nat (Z.to_nat count)) as -> by lia.
  rewrite Nat2Z.id. generalize (Z.to_nat count) as n. intros n.
  unfold sample_tau_energies.
  rewrite (bind_ok _ _ _ _ _ (sample_shower_type_run E n s)).
  rewrite (bind_ok _ _ _ _ _ (sample_energy_fraction_run E _ _ Hem Hhad)).
  set (stypes := map (shower_type_of E) (map (draws E) (seq (rng s) n))).
  assert (length stypes = n) as Hls
    by (unfold stypes; rewrite !length_map, length_seq; done).
  rewrite Hls. cbn [rng heap log].
  eexists. split; [reflexivity|].
  split; [rewrite length_map, length_zip_with, length_map, length_seq; lia|].
  intros i Hi.
  assert (stypes !! i = Some (shower_type_of E (draws E (rng s + i)))) as Ht.
  { unfold stypes. rewrite map_map, lookup_map, lookup_seq_lt by done. done. }
  split; [|split].
  - rewrite lookup_map.
    pose proof (zip_with_lookup_draws (fraction_of E) E stypes (rng s + n) i
                  _ Ht) as Hz.
    rewrite Hls in Hz. rewrite Hz. done.
  - unfold shower_type_of. destruct (gt_float _ _); auto.
  - unfold fraction_of, reference_fractions, shower_type_of.
    destruct (gt_float _ _); cbn [Z.eqb Electromagnetic Hadronic].
    + apply interp1_arange_bounds; [done|apply Eem_length|apply Eem_range].
    + apply interp1_arange_bounds; [done|apply Ehad_length|apply Ehad_range].
Qed.

(** X5: a negative count makes [sample_shower_type] raise a ValueError, and
    [sample_tau_energies] with it, before any fraction is sampled. *)
Theorem sampler_negative_count (E : Env) (Enu : Q) (count : Z) (s : state) :
  (count < 0)%Z ->
  sample_shower_type E count s
    = Raise (ValueError "negative dimensions are not allowed") /\
  sample_tau_energies E Enu count s
    = Raise (ValueError "negative dimensions are not allowed").
Proof.
  intros Hc.
  assert (np_random_uniform E count s
          = Raise (ValueError "negative dimensions are not allowed")) as Hu.
  { unfold np_random_uniform. destruct (Z.ltb_spec count 0); [done|lia]. }
  assert (sample_shower_type E count s
          = Raise (ValueError "negative dimensions are not allowed")) as Hs.
  { unfold sample_shower_type, mbind, M_bind, bind. rewrite Hu. done. }
  split; [done|].
  unfold sample_tau_energies, mbind, M_bind, bind. rewrite Hs. done.
Qed.

(** X6: when the decay file has no electromagnetic shower, or no hadronic
    one, [sample_energy_fraction] raises the ValueError of [np.interp] on
    every input, the empty array and the arrays of the other shower type
    included. *)
Theorem sample_energy_fraction_empty_category
    (E : Env) (stypes : list Z) (s : state) :
  Nem E = 0%nat \/ Nhad E = 0%nat ->
  sample_energy_fraction E stypes s
  = Raise (ValueError "array of sample points is empty").
Proof.
  intros Hcat. unfold sample_energy_fraction.
  rewrite (bind_ok _ _ _ _ _ (np_random_uniform_ok E (length stypes) s)).
  set (u := map (draws E) (seq (rng s) (length stypes))).
  assert (length u = length stypes) as Hu
    by (unfold u; rewrite length_map, length_seq; done).
  rewrite (bind_lift_ok _ _ _ _ (getitem_mask_ok u _
             ltac:(rewrite length_map; done))).
  destruct (Nat.eq_dec (Nem E) 0) as [H0|Hem].
  - unfold mbind, M_bind, bind, lift, np_interp, np_arange.
    rewrite H0. done.
  - destruct Hcat as [?|Hhad]; [done|].
    rewrite (bind_lift_ok _ _ _ _
               (np_interp_ok _ (Nem E) _ ltac:(lia) (Eem_length E))).
    rewrite map_map.
    erewrite bind_lift_ok; cycle 1.
    { apply setitem_mask_ok; [rewrite !length_map; done|].
      rewrite length_map. apply select_count. rewrite length_map. done. }
    rewrite (bind_lift_ok _ _ _ _ (getitem_mask_ok u _
               ltac:(rewrite length_map; done))).
    unfold mbind, M_bind, bind, lift, np_interp, np_arange.
    rewrite Hhad. done.
Qed.

(** X7: the test of [sample_shower_type] is [u > Nem / Nshowers].  With
    doubles in [0, 1), a decay file whose showers are all electromagnetic
    (Nem = Nshowers) gives Hadronic at every place, and a decay file with
    showers but no electromagnetic one (Nem = 0) gives Electromagnetic
    wherever the double is not zero. *)
Theorem sample_shower_type_extremes (E : Env) (n : nat) (s : state) :
  (forall i, 0 <= draws E i < 1)%Q -> (0 < Nshowers E)%nat ->
  exists stypes s',
    sample_shower_type E (Z.of_nat n) s = Ok (stypes, s') /\
    (Nem E = Nshowers E -> stypes = replicate n Hadronic) /\
    (Nem E = 0%nat ->
     forall i, (i < n)%nat -> (0 < draws E (rng s + i))%Q ->
               stypes !! i = Some Electromagnetic).
Proof.
  intros Hu Hsh. do 2 eexists.
  split; [apply sample_shower_type_run|].
  pose proof (nat2q_pos _ Hsh) as Hq.
  split.
  - intros Hall. rewrite map_map.
    generalize (rng s) as r. induction n as [|n IH]; intros r; [done|].
    cbn [seq map replicate]. f_equal; [|apply IH].
    unfold shower_type_of.
    destruct (gt_float (draws E r) (Pem E)) eqn:Hgt; [|done].
    apply gt_float_Pem in Hgt as [_ Hgt]. rewrite Hall in Hgt.
    assert (nat2q (Nshowers E) / nat2q (Nshowers E) == 1)%Q as H1
      by (field; lra).
    rewrite H1 in Hgt. specialize (Hu r). lra.
  - intros H0 i Hi Hpos.
    rewrite map_map, lookup_map, lookup_seq_lt by done. cbn [option_map].
    unfold shower_type_of.
    assert (gt_float (draws E (rng s + i)) (Pem E) = true) as ->; [|done].
    apply gt_float_Pem. split; [done|]. rewrite H0.
    change (nat2q 0) with 0%Q.
    assert (0 / nat2q (Nshowers E) == 0)%Q as -> by (field; lra). done.
Qed.

(** ** The rows of [Ptrig] after the station loop *)

Lemma window_row_set_same (b n i : nat) (buf new : list Q) :
  (i * n + n <= length buf)%nat -> length new = n ->
  window (row_view b n i) (set_window (row_view b n i) buf new) = new.
Proof.
  intros Hb Hn. unfold window, set_window, row_view. cbn [v_off v_len].
  rewrite drop_app_length' by (rewrite length_take; lia).
  rewrite take_app_length' by done. done.
Qed.

Lemma window_row_set_other (b n i j : nat) (buf new : list Q) :
  i <> j -> (i * n + n <= length buf)%nat -> length new = n ->
  window (row_view b n j) (set_window (row_view b n i) buf new)
  = window (row_view b n j) buf.
Proof.
  intros Hij Hb Hn. unfold window, set_window, row_view. cbn [v_off v_len].
  assert (length (take (i * n) buf) = (i * n)%nat) as Ht
    by (rewrite length_take; lia).
  destruct (Nat.lt_ge_cases j i) as [Hlt|Hge].
  - assert (j * n + n <= i * n)%nat as Hle by nia.
    rewrite drop_app_le by lia.
    rewrite take_app_le by (rewrite length_drop; lia).
    rewrite skipn_firstn_comm, take_take.
    replace (n `min` (i * n - j * n))%nat with n by lia. done.
  - assert (i * n + n <= j * n)%nat as Hle by nia.
    rewrite drop_app_ge by lia. rewrite Ht.
    rewrite drop_app_ge by lia. rewrite Hn, drop_drop.
    replace (i * n + n + (j * n - i * n - n))%nat with (j * n)%nat by lia.
    done.
Qed.

Section StationRows.
Context (E : Env) (Ag : GeometricArea)
        (tauexit : list Q -> list (option Q) * list Q)
        (voltage : VoltageArgs -> list (list Q))
        (maxview : Q) (antennas : Z) (freqs : list Q) (trigger_SNR : Q)
        (decay_length Eshower : list Q) (decay_point : list vec3)
        (decay_altitude exit_zenith : list Q)
        (decay_point_spherical : list vec3)
        (decay_zenith decay_azimuth : list Q) (vrms : Q)
        (b : nat) (ground_view : list (list Q)).

Let n := length (trials Ag).
Let m := length (stations_geocentric Ag).
Let Ptrig := {| a_base := b; a_rows := m; a_cols := n |}.

Local Abbreviation pt :=
  (Build_per_trial decay_length Eshower decay_point decay_altitude
                   exit_zenith decay_point_spherical decay_zenith
                   decay_azimuth).

Hypothesis Hshapes : shapes_agree E Ag tauexit voltage.
Hypothesis Hdl : length decay_length = n.
Hypothesis Hes : length Eshower = n.
Hypothesis Hdp : length decay_point = n.
Hypothesis Hda : length decay_altitude = n.
Hypothesis Hdps : length decay_point_spherical = n.
Hypothesis Hdz : length decay_zenith = n.
Hypothesis Hdaz : length decay_azimuth = n.
Hypothesis Hgv : length ground_view = m.
Hypothesis Hgv_rows : Forall (fun r => length r = n) ground_view.

(** One turn of the loop, with the arguments of its voltage call. *)
Lemma station_iteration_call (i : nat) (s : state) (buf : list Q) :
  (i < m)%nat ->
  heap s !! b = Some buf -> length buf = (m * n)%nat -> Forall is01 buf ->
  exists s' buf',
    station_iteration E Ag voltage maxview antennas freqs trigger_SNR
      decay_length Eshower decay_point decay_altitude exit_zenith
      decay_point_spherical decay_zenith decay_azimuth vrms
      Ptrig ground_view i s = Ok (tt, s') /\
    heap s' !! b = Some buf' /\ length buf' = (m * n)%nat /\
    Forall is01 buf' /\
    exists st gv args,
      stations_geocentric Ag !! i = Some st /\
      ground_view !! i = Some gv /\
      station_call E Ag maxview antennas freqs pt ground_view i
        = Some args /\
      length (voltage args) = count_true (in_sight_mask maxview gv) /\
      buf' = set_window (row_view b n i) buf
               (scatter (window (row_view b n i) buf)
                  (in_sight_mask maxview gv)
                  (trigger_values vrms trigger_SNR (voltage args))) /\
      log s' = log s ++ station_events E i st args.
Proof.
  intros Hi Hb Hlen H01.
  destruct Hshapes as [_ _ _ _ Hgeo Hor Hfov Hdb Hdbr _ _ _ _ _ _ _ _ Hth Hvo].
  destruct (lookup_lt_is_Some_2 ground_view i ltac:(lia)) as [gv Hgvi].
  destruct (lookup_lt_is_Some_2 (stations_geocentric Ag) i ltac:(done))
    as [st Hst].
  destruct (lookup_lt_is_Some_2 (stations_geodetic Ag) i ltac:(lia))
    as [gd Hgd].
  destruct (lookup_lt_is_Some_2 (Ag_orientations Ag) i ltac:(lia))
    as [ori Hori].
  destruct (lookup_lt_is_Some_2 (Ag_fov Ag) i ltac:(lia)) as [fv Hfv].
  destruct (lookup_lt_is_Some_2 (dbeacon Ag) i ltac:(lia)) as [dbr Hdbi].
  assert (length gv = n) as Hgvl.
  { rewrite Forall_forall in Hgv_rows. apply Hgv_rows.
    apply list_elem_of_lookup. eauto. }
  assert (length dbr = n) as Hdbl.
  { rewrite Forall_forall in Hdbr. apply Hdbr.
    apply list_elem_of_lookup. eauto. }
  assert (station_call E Ag maxview antennas freqs pt ground_view i
          = Some (voltage_arguments E Ag antennas freqs pt
                    (in_sight_mask maxview gv) st gd ori dbr fv)) as Hcall.
  { unfold station_call. rewrite Hgvi, Hst, Hgd, Hori, Hdbi, Hfv. done. }
  unfold voltage_arguments in Hcall.
  cbn [pt_decay_length pt_Eshower pt_decay_point pt_decay_altitude
       pt_exit_zenith pt_decay_point_spherical pt_decay_zenith
       pt_decay_azimuth] in Hcall.
  unfold in_sight_mask in *.
  set (in_sight := map (fun g => Qle_bool g maxview) gv) in *.
  assert (length in_sight = n) as Hin
    by (unfold in_sight; rewrite length_map; done).
  unfold station_iteration.
  step ltac:(apply getitem_ok; eassumption).
  step ltac:(apply getitem_ok; eassumption).
  fold in_sight.
  step ltac:(apply lift_ok, getitem_mask_ok; lia).
  step ltac:(apply getitem_ok; eassumption).
  step ltac:(apply lift_ok, getitem_mask_ok; lia).
  cbv beta zeta. cbv zeta in Hcall.
  pose proof (Hth st (select decay_point in_sight) gd
                  (select decay_point_spherical in_sight)) as Htheta.
  destruct (obs_zenith_azimuth E st (select decay_point in_sight) gd
              (select decay_point_spherical in_sight)) as [theta phi].
  cbn [fst snd] in Htheta, Hcall.
  step ltac:(apply getitem_ok; eassumption).
  step ltac:(apply lift_ok, getitem_mask_ok; lia).
  step ltac:(apply lift_ok, getitem_mask_ok; lia).
  step ltac:(apply lift_ok, getitem_mask_ok; lia).
  step ltac:(apply lift_ok, getitem_mask_ok; lia).
  step ltac:(apply getitem_ok; eassumption).
  step ltac:(apply lift_ok, getitem_mask_ok; lia).
  step ltac:(apply lift_ok, getitem_mask_ok; lia).
  step ltac:(apply getitem_ok; eassumption).
  fold (detector_altitude E st).
  set (args := Build_VoltageArgs _ _ _ _ _ _ _ _ _ _ _ _ _ _ _ _) in *.
  step ltac:(reflexivity).
  step ltac:(apply getitem_row_ok; done).
  set (trig := map (fun v => b2q (np_gt v trigger_SNR)) _).
  set (row := Build_ndview _ _ _).
  assert (v_off row + v_len row <= length buf)%nat as Hrow.
  { unfold row, Ptrig. cbn [v_off v_len a_cols]. rewrite Hlen.
    clear -Hi. nia. }
  assert (length (select decay_point in_sight) = count_true in_sight) as Hk
    by (apply select_count; lia).
  assert (length (voltage args) = count_true in_sight) as Hvl.
  { rewrite Hvo. unfold args. cbn [va_distance_to_decay].
    rewrite length_map. done. }
  assert (length trig = count_true in_sight) as Htrig
    by (unfold trig; rewrite !length_map; done).
  step ltac:(apply (view_setitem_mask_run row in_sight trig _ buf);
             [done|rewrite window_length; [done|done]|done]).
  step ltac:(reflexivity).
  step ltac:(reflexivity).
  step ltac:(apply lift_ok, broadcast2_ok; rewrite !length_map; lia).
  step ltac:(apply getitem_row_ok; done).
  fold row.
  set (buf' := set_window row buf (scatter (window row buf) in_sight trig)).
  assert (length buf' = length buf) as Hlen'.
  { apply set_window_length; [done|].
    rewrite scatter_length. apply window_length. done. }
  assert (<[b:=buf']> (heap s) !! b = Some buf') as Hb1.
  { apply list_lookup_insert_eq. eapply lookup_lt_Some. exact Hb. }
  cbv beta zeta.
  erewrite (masked_copy_assign_then row in_sight _ _ _ _ buf');
    [|exact Hb1
     |rewrite window_length; [done|lia]
     |rewrite length_zip_with, !length_map; lia].
  cbn [rng heap log].
  step ltac:(apply getitem_row_ok; done).
  fold row. cbv beta zeta.
  erewrite (masked_copy_assign_run row in_sight _ _ _ buf');
    [|apply lookup_app_l_Some; exact Hb1
     |rewrite window_length; [done|lia]
     |rewrite !length_map; lia].
  cbn [rng heap log].
  do 2 eexists. split; [reflexivity|].
  split; [cbn [heap]; do 2 apply lookup_app_l_Some; exact Hb1|].
  split; [lia|]. split.
  - apply set_window_Forall; [done|].
    apply scatter_Forall.
    + unfold window. apply Forall_take, Forall_drop. done.
    + unfold trig. rewrite Forall_forall. intros q Hq.
      apply list_elem_of_In, in_map_iff in Hq as (v & <- & _).
      apply b2q_is01.
  - exists st, gv, args. split; [done|]. split; [done|].
    split; [exact Hcall|]. split; [exact Hvl|].
    split.
    + unfold buf', trig, row, row_view, trigger_values, Ptrig.
      cbn [a_base a_cols]. rewrite map_map. reflexivity.
    + cbn [log]. unfold station_events. rewrite <- !app_assoc. reflexivity.
Qed.

Lemma station_loop_rows (k : nat) :
  forall (a : nat) (s : state) (buf : list Q),
    (a + k <= m)%nat ->
    heap s !! b = Some buf -> length buf = (m * n)%nat -> Forall is01 buf ->
    exists s' buf' calls,
      for_range (seq a k)
        (station_iteration E Ag voltage maxview antennas freqs trigger_SNR
           decay_length Eshower decay_point decay_altitude exit_zenith
           decay_point_spherical decay_zenith decay_azimuth vrms
           Ptrig ground_view) s = Ok (tt, s') /\
      heap s' !! b = Some buf' /\ length buf' = (m * n)%nat /\
      Forall is01 buf' /\
      length calls = k /\
      log s' = log s ++ loop_trace E (stations_geocentric Ag) a calls /\
      (forall j args, calls !! j = Some args ->
         station_call E Ag maxview antennas freqs pt ground_view (a + j)
           = Some args /\
         forall gv, ground_view !! (a + j)%nat = Some gv ->
           length (voltage args) = count_true (in_sight_mask maxview gv) /\
           window (row_view b n (a + j)) buf'
           = scatter (window (row_view b n (a + j)) buf)
                     (in_sight_mask maxview gv)
                     (trigger_values vrms trigger_SNR (voltage args))) /\
      (forall j, (j < m)%nat -> (j < a \/ a + k <= j)%nat ->
         window (row_view b n j) buf' = window (row_view b n j) buf).
Proof.
  induction k as [|k IH]; intros a s buf Ha Hb Hlen H01.
  - exists s, buf, []. split; [done|]. split; [done|]. split; [done|].
    split; [done|]. split; [done|]. split; [rewrite app_nil_r; done|].
    split; [intros j args Hj; done|done].
  - destruct (station_iteration_call a s buf ltac:(lia) Hb Hlen H01)
      as (s1 & buf1 & Hrun & Hb1 & Hlen1 & H011 & st & gv & args & Hst & Hgva
          & Hcall & Hvl & Hbuf1 & Hlog1).
    set (new := scatter (window (row_view b n a) buf)
                        (in_sight_mask maxview gv)
                        (trigger_values vrms trigger_SNR (voltage args)))
      in *.
    assert (a * n + n <= length buf)%nat as Hfit by (rewrite Hlen; nia).
    assert (length new = n) as Hnew.
    { unfold new. rewrite scatter_length. unfold window, row_view.
      cbn [v_off v_len]. rewrite length_take, length_drop. lia. }
    destruct (IH (S a) s1 buf1 ltac:(lia) Hb1 Hlen1 H011)
      as (s2 & buf2 & calls & Hrun2 & Hb2 & Hlen2 & H012 & Hlc & Hlog2
          & Hrows & Hframe).
    exists s2, buf2, (args :: calls).
    split; [cbn [seq for_range]; rewrite (bind_ok _ _ _ _ _ Hrun);
            exact Hrun2|].
    split; [done|]. split; [done|]. split; [done|].
    split; [simpl; lia|].
    split.
    { rewrite Hlog2, Hlog1. cbn [loop_trace]. rewrite Hst.
      rewrite <- app_assoc. done. }
    split.
    + intros [|j] args' Hj.
      * simpl in Hj. injection Hj as <-. rewrite Nat.add_0_r.
        split; [done|].
        intros gv' Hgv'. rewrite Hgva in Hgv'. injection Hgv' as <-.
        split; [done|].
        rewrite (Hframe a ltac:(lia) ltac:(lia)).
        rewrite Hbuf1. apply window_row_set_same; done.
      * simpl in Hj. destruct (Hrows j args' Hj) as [Hcall' Hrow'].
        replace (a + S j)%nat with (S a + j)%nat by lia. split; [done|].
        intros gv' Hgv'. destruct (Hrow' gv' Hgv') as [Hvl' ->].
        split; [done|].
        rewrite Hbuf1, window_row_set_other by (done || lia). done.
    + intros j Hj Hout.
      rewrite (Hframe j Hj ltac:(lia)).
      rewrite Hbuf1, window_row_set_other by (done || lia). done.
Qed.

End StationRows.

(** ** The whole calculation, row by row *)

Lemma sample_shower_energies_state (E : Env) (Etau : list Q) (s : state) :
  (0 < Nem E)%nat -> (0 < Nhad E)%nat ->
  exists Eshower,
    sample_shower_energies E Etau (Z.of_nat (length Etau)) s
      = Ok (Eshower,
            State (rng s + length Etau + length Etau) (heap s) (log s)) /\
    length Eshower = length Etau.
Proof.
  intros Hem Hhad. unfold sample_shower_energies.
  rewrite (bind_ok _ _ _ _ _ (sample_shower_type_run E (length Etau) s)).
  rewrite (bind_ok _ _ _ _ _
             (sample_energy_fraction_run E _ _ Hem Hhad)).
  unfold lift. rewrite broadcast2_ok.
  - eexists. split.
    + cbn [rng heap log]. rewrite !length_map, !length_seq. reflexivity.
    + rewrite !length_zip_with, !length_map, !length_seq. lia.
  - rewrite !length_zip_with, !length_map, !length_seq. lia.
Qed.

Lemma window_replicate (b n m j : nat) (x : Q) :
  (j < m)%nat ->
  window (row_view b n j) (replicate (m * n) x) = replicate n x.
Proof.
  intros Hj. unfold window, row_view. cbn [v_off v_len].
  rewrite drop_replicate, take_replicate.
  assert (j * n + n <= m * n)%nat by nia.
  replace (n `min` (m * n - j * n))%nat with n by lia. done.
Qed.

Lemma rows_of_lookup (b r c j : nat) (buf : list Q) :
  (j < r)%nat -> rows_of r c buf !! j = Some (window (row_view b c j) buf).
Proof.
  intros Hj. unfold rows_of. rewrite lookup_map, lookup_seq_lt by done.
  done.
Qed.

Lemma window_lookup (b n j r : nat) (buf : list Q) :
  (r < n)%nat -> window (row_view b n j) buf !! r = buf !! (j * n + r)%nat.
Proof.
  intros Hr. unfold window, row_view. cbn [v_off v_len].
  rewrite lookup_take_lt, lookup_drop by done. done.
Qed.

(** A buffer of [m] rows is the rows it holds. *)
Lemma buffer_ext (b n m : nat) (b1 b2 : list Q) :
  length b1 = (m * n)%nat -> length b2 = (m * n)%nat ->
  (forall j, (j < m)%nat ->
     window (row_view b n j) b1 = window (row_view b n j) b2) ->
  b1 = b2.
Proof.
  intros H1 H2 Hw. apply (list_eq_same_length _ _ (m * n)); [done|done|].
  intros i x y Hi Hx Hy.
  assert (0 < n)%nat as Hn by nia.
  pose proof (Nat.div_mod_eq i n) as Hdm.
  pose proof (Nat.mod_upper_bound i n ltac:(lia)) as Hr.
  assert (i `div` n < m)%nat as Hj.
  { apply Nat.Div0.div_lt_upper_bound. lia. }
  assert (i = (i `div` n * n + i `mod` n)%nat) as Hi' by lia.
  rewrite Hi' in Hx, Hy.
  rewrite <- (window_lookup b n) in Hx, Hy by done.
  rewrite (Hw _ Hj) in Hx. congruence.
Qed.

Lemma with_dot_id (Ag : GeometricArea) : with_dot Ag (dot Ag) = Ag.
Proof. destruct Ag. reflexivity. Qed.

Lemma shapes_agree_horizon (E : Env) (Ag : GeometricArea)
    (tauexit : list Q -> list (option Q) * list Q)
    (voltage : VoltageArgs -> list (list Q)) (hd ha : Q -> Q -> Q) :
  shapes_agree E Ag tauexit voltage ->
  shapes_agree (with_horizon E hd ha) Ag tauexit voltage.
Proof. intros H. destruct H. split; assumption. Qed.

Lemma loop_trace_horizon (E : Env) (hd ha : Q -> Q -> Q)
    (stations : list vec3) (calls : list VoltageArgs) :
  forall a : nat,
    loop_trace (with_horizon E hd ha) stations a calls
    = loop_trace E stations a calls.
Proof.
  induction calls as [|args calls IH]; intros a; cbn [loop_trace]; [done|].
  rewrite IH. reflexivity.
Qed.

Section CalculateRows.
Context (E : Env)
        (ra dec : Q) (lat lon altitude orientations fov : list Q)
        (tauexit : list Q -> list (option Q) * list Q)
        (voltage : VoltageArgs -> list (list Q))
        (maxview : Q) (N antennas : Z) (freqs : list Q) (trigger_SNR : Q).

Local Abbreviation Ag :=
  (batch E ra dec lat lon altitude orientations fov maxview N).
Local Abbreviation Pexit0 :=
  (exit_probabilities E ra dec lat lon altitude orientations fov tauexit
                      maxview N).
Local Abbreviation n_stations := (length (stations_geocentric Ag)).
Local Abbreviation n_trials := (length (trials Ag)).
Local Abbreviation GV :=
  (view_angle E (trials Ag) (stations_geocentric Ag) (axis Ag)).

(** A run on a batch that is not empty, whatever the two horizon
    functions are and whatever the number of dot weights is, up to the
    four coefficients: the calls in their order with one voltage call per
    station, and the rows of [Ptrig], each one zero but at the places in
    view, where it holds what [SNR > trigger_SNR] gave for the voltages of
    its station.  The dot weights are read at lines 191 and 194 only. *)
Lemma calculate_rows_any_dot (ds : list Q) (s : state) :
  shapes_agree E (with_dot Ag ds) tauexit voltage -> emergence Ag <> [] ->
  exists decay_length Eshower buf calls,
    let pt := per_trial_of E Ag decay_length Eshower in
    length decay_length = n_trials /\ length Eshower = n_trials /\
    length buf = (n_stations * n_trials)%nat /\ Forall is01 buf /\
    length calls = n_stations /\
    (forall j, (j < n_stations)%nat ->
       exists gv args,
         GV !! j = Some gv /\ calls !! j = Some args /\
         station_call E Ag maxview antennas freqs pt GV j = Some args /\
         length (voltage args) = count_true (in_sight_mask maxview gv) /\
         rows_of n_stations n_trials buf !! j
         = Some (scatter (replicate n_trials 0%Q) (in_sight_mask maxview gv)
                         (trigger_values (Vrms E freqs antennas) trigger_SNR
                                         (voltage args)))) /\
    forall hd ha : Q -> Q -> Q,
      exists s',
        calculate (with_horizon E hd ha) ra dec lat lon altitude orientations
                  fov tauexit voltage maxview N antennas freqs trigger_SNR s
        = aggregate Ag N n_stations Pexit0
                    (rows_of n_stations n_trials buf) n_trials s' /\
        heap s' !! length (heap s) = Some buf /\
        log s' = log s ++ preamble E Ag tauexit N antennas freqs
                       ++ loop_trace E (stations_geocentric Ag) 0 calls.
Proof.
  intros Hshapes Hne. pose proof Hshapes as Hsh.
  destruct Hsh as [Hem Hhad Hemg0 _ _ _ _ _ _ HPe HEt HEp Hsph Hdz Hdaz
                   Hview Hviewr _ _].
  pose proof (Hemg0 : length (emergence Ag) = n_trials) as Hemg.
  clear Hemg0.
  unfold preamble, exit_probabilities.
  set (zenith := map (fun e => (90 - rad2deg E e)%Q) (emergence Ag)).
  pose proof (HPe zenith) as HP. pose proof (HEt zenith) as HE.
  pose proof (HEp zenith) as HEpos.
  destruct (tauexit zenith) as [Pexit Etau] eqn:Htau. cbn [fst snd] in *.
  assert (length zenith = n_trials) as Hz
    by (unfold zenith; rewrite length_map; done).
  set (s1 := State (rng s) (heap s)
                   (((log s ++ [CallGeometricArea N])
                     ++ [CallTauExit zenith]) ++ [CallSampleRange Etau])).
  destruct (sample_range_run E Etau s1 HEpos) as (decay_length & Hsr & Hdl).
  set (s2 := State (rng s1 + length Etau) (heap s1)
                   (log s1 ++ [CallSampleShowerEnergies Etau
                                 (Z.of_nat (length Etau))])).
  destruct (sample_shower_energies_state E Etau s2 Hem Hhad)
    as (Eshower & Hsse & Hes).
  exists decay_length, Eshower.
  unfold per_trial_of.
  set (decay_point := zip_with (fun t d => vadd t (vscale (axis Ag) d))
                               (trials Ag) decay_length).
  assert (length decay_point = n_trials) as Hdp
    by (unfold decay_point; rewrite length_zip_with; lia).
  pose proof (Hdz decay_point (axis Ag)
                (cartesian_to_spherical E decay_point)
                (cartesian_to_spherical E [axis Ag])) as Hdz'.
  pose proof (Hdaz decay_point (axis Ag)
                (cartesian_to_spherical E decay_point)
                (cartesian_to_spherical E [axis Ag])) as Hdaz'.
  destruct (decay_zenith_azimuth E decay_point (axis Ag)
              (cartesian_to_spherical E decay_point)
              (cartesian_to_spherical E [axis Ag]))
    as [decay_zenith decay_azimuth] eqn:Hdza. cbn [fst snd] in *.
  set (b := length (heap s)).
  set (zeros := replicate (n_stations * n_trials) 0%Q).
  (* the loop, on a store that holds [Ptrig] and nothing else *)
  assert (length decay_length = n_trials) as Hdl_n by lia.
  assert (length Eshower = n_trials) as Hes_n by lia.
  assert (length (map (fun p => (norm E p - Re E)%Q) decay_point) = n_trials)
    as Hda_n by (rewrite length_map; done).
  assert (length (cartesian_to_spherical E decay_point) = n_trials)
    as Hdps_n by (rewrite Hsph; done).
  assert (length decay_zenith = n_trials) as Hdz_n by lia.
  assert (length decay_azimuth = n_trials) as Hdaz_n by lia.
  destruct (station_loop_rows E (with_dot Ag ds) tauexit voltage maxview
              antennas freqs
              trigger_SNR decay_length Eshower decay_point
              (map (fun p => (norm E p - Re E)%Q) decay_point)
              (map (fun e => (np_pi E / 2 - e)%Q) (emergence Ag))
              (cartesian_to_spherical E decay_point)
              decay_zenith decay_azimuth (Vrms E freqs antennas) b GV
              Hshapes Hdl_n Hes_n Hdp Hda_n Hdps_n Hdz_n Hdaz_n
              (Hview _ _ _) (Hviewr _ _ _)
              n_stations 0%nat (State 0 (replicate b [] ++ [zeros]) []) zeros
              (Nat.le_refl _)
              ltac:(cbn [heap]; rewrite lookup_app_r, length_replicate,
                      Nat.sub_diag by (rewrite length_replicate; done); done)
              (length_replicate _ _)
              ltac:(apply Forall_replicate; left; done))
    as (s0 & buf & calls & _ & _ & Hlen0 & H01 & Hlc0 & _ & Hrows0 & _).
  pose proof (Hlen0 : length buf = (n_stations * n_trials)%nat) as Hlen.
  pose proof (Hlc0 : length calls = n_stations) as Hlc.
  pose proof
    (Hrows0 :
       forall j args, calls !! j = Some args ->
         station_call E Ag maxview antennas freqs
           (Build_per_trial decay_length Eshower decay_point
              (map (fun p => (norm E p - Re E)%Q) decay_point)
              (map (fun e => (np_pi E / 2 - e)%Q) (emergence Ag))
              (cartesian_to_spherical E decay_point)
              decay_zenith decay_azimuth) GV (0 + j) = Some args /\
         forall gv, GV !! (0 + j)%nat = Some gv ->
           length (voltage args) = count_true (in_sight_mask maxview gv) /\
           window (row_view b n_trials (0 + j)) buf
           = scatter (window (row_view b n_trials (0 + j)) zeros)
                     (in_sight_mask maxview gv)
                     (trigger_values (Vrms E freqs antennas) trigger_SNR
                                     (voltage args))) as Hrows.
  clear Hlen0 Hlc0 Hrows0.
  exists buf, calls. cbv zeta.
  split; [lia|]. split; [lia|]. split; [done|]. split; [done|].
  split; [done|].
  assert (forall j, (j < n_stations)%nat ->
            exists gv args,
              GV !! j = Some gv /\ calls !! j = Some args /\
              station_call E Ag maxview antennas freqs
                (Build_per_trial decay_length Eshower decay_point
                   (map (fun p => (norm E p - Re E)%Q) decay_point)
                   (map (fun e => (np_pi E / 2 - e)%Q) (emergence Ag))
                   (cartesian_to_spherical E decay_point)
                   decay_zenith decay_azimuth) GV j = Some args /\
              length (voltage args) = count_true (in_sight_mask maxview gv) /\
              window (row_view b n_trials j) buf
              = scatter (replicate n_trials 0%Q) (in_sight_mask maxview gv)
                        (trigger_values (Vrms E freqs antennas) trigger_SNR
                                        (voltage args))) as Hall.
  { intros j Hj.
    destruct (lookup_lt_is_Some_2 GV j ltac:(rewrite Hview; done))
      as [gv Hgvj].
    destruct (lookup_lt_is_Some_2 calls j ltac:(lia)) as [args Hargs].
    destruct (Hrows j args Hargs) as [Hcall Hrow].
    destruct (Hrow gv Hgvj) as [Hvl Hw].
    exists gv, args. split; [done|]. split; [done|]. split; [exact Hcall|].
    split; [done|]. cbn [Nat.add] in Hw. rewrite Hw. unfold zeros.
    rewrite window_replicate by done. done. }
  split.
  { intros j Hj.
    destruct (Hall j Hj) as (gv & args & H1 & H2 & H3 & H4 & H5).
    exists gv, args. split; [done|]. split; [done|]. split; [exact H3|].
    split; [done|]. rewrite (rows_of_lookup b) by done. rewrite H5. done. }
  intros hd ha.
  unfold calculate.
  cbn [with_horizon geometric_area rad2deg np_pi norm Re
       cartesian_to_spherical decay_zenith_azimuth view_angle Vrms].
  change (geometric_area E ra dec lat lon altitude maxview orientations fov N)
    with Ag.
  step ltac:(reflexivity).
  destruct (Nat.eqb_spec (length (emergence Ag)) 0) as [H0|_].
  { destruct (emergence Ag); [done|discriminate]. }
  step ltac:(reflexivity).
  cbv beta zeta. fold zenith. rewrite Htau.
  step ltac:(reflexivity).
  step ltac:(exact Hsr).
  step ltac:(reflexivity).
  rewrite Hdl.
  step ltac:(exact Hsse).
  step ltac:(apply lift_ok, broadcast2_ok; lia).
  cbv beta zeta. fold decay_point. rewrite Hdza.
  step ltac:(reflexivity).
  step ltac:(reflexivity).
  cbn [a_cols].
  step ltac:(reflexivity).
  set (s4 := State _ _ _).
  assert (heap s4 !! b = Some zeros) as Hb4.
  { unfold s4, s2, s1. cbn [heap].
    rewrite lookup_app_r, Nat.sub_diag by done. done. }
  destruct (station_loop_rows (with_horizon E hd ha) (with_dot Ag ds)
              tauexit voltage maxview antennas freqs
              trigger_SNR decay_length Eshower decay_point
              (map (fun p => (norm E p - Re E)%Q) decay_point)
              (map (fun e => (np_pi E / 2 - e)%Q) (emergence Ag))
              (cartesian_to_spherical E decay_point)
              decay_zenith decay_azimuth (Vrms E freqs antennas) b GV
              (shapes_agree_horizon _ _ _ _ hd ha Hshapes)
              Hdl_n Hes_n Hdp Hda_n Hdps_n Hdz_n Hdaz_n
              (Hview _ _ _) (Hviewr _ _ _)
              n_stations 0%nat s4 zeros (Nat.le_refl _) Hb4
              (length_replicate _ _)
              ltac:(apply Forall_replicate; left; done))
    as (s5 & buf2 & calls2 & Hloop0 & Hb5 & Hlen50 & _ & Hlc20 & Hlog50
        & Hrows20 & _).
  pose proof (Hlen50 : length buf2 = (n_stations * n_trials)%nat) as Hlen5.
  pose proof (Hlc20 : length calls2 = n_stations) as Hlc2.
  pose proof
    (Hlog50 : log s5 = log s4 ++ loop_trace (with_horizon E hd ha)
                                  (stations_geocentric Ag) 0 calls2)
    as Hlog5.
  pose proof
    (Hrows20 :
       forall j args, calls2 !! j = Some args ->
         station_call E Ag maxview antennas freqs
           (Build_per_trial decay_length Eshower decay_point
              (map (fun p => (norm E p - Re E)%Q) decay_point)
              (map (fun e => (np_pi E / 2 - e)%Q) (emergence Ag))
              (cartesian_to_spherical E decay_point)
              decay_zenith decay_azimuth) GV (0 + j) = Some args /\
         forall gv, GV !! (0 + j)%nat = Some gv ->
           length (voltage args) = count_true (in_sight_mask maxview gv) /\
           window (row_view b n_trials (0 + j)) buf2
           = scatter (window (row_view b n_trials (0 + j)) zeros)
                     (in_sight_mask maxview gv)
                     (trigger_values (Vrms E freqs antennas) trigger_SNR
                                     (voltage args))) as Hrows2.
  pose proof
    (Hloop0 :
       for_range (seq 0 n_stations)
         (station_iteration (with_horizon E hd ha) Ag voltage maxview
            antennas freqs trigger_SNR decay_length Eshower decay_point
            (map (fun p => (norm E p - Re E)%Q) decay_point)
            (map (fun e => (np_pi E / 2 - e)%Q) (emergence Ag))
            (cartesian_to_spherical E decay_point)
            decay_zenith decay_azimuth (Vrms E freqs antennas)
            {| a_base := b; a_rows := n_stations; a_cols := n_trials |} GV) s4
       = Ok (tt, s5)) as Hloop.
  clear Hlen50 Hlc20 Hlog50 Hrows20 Hloop0.
  assert (calls2 = calls) as ->.
  { apply (list_eq_same_length _ _ n_stations); [done|done|].
    intros j x y Hj Hx Hy.
    destruct (Hrows2 j x Hx) as [Hcx _]. destruct (Hrows j y Hy) as [Hcy _].
    assert (Some x = Some y) as [=] by (rewrite <- Hcx, <- Hcy; reflexivity).
    done. }
  assert (buf2 = buf) as ->.
  { apply (buffer_ext b n_trials n_stations); [done|done|].
    intros j Hj.
    destruct (Hall j Hj) as (gv & args & H1 & H2 & _ & _ & H5).
    destruct (Hrows2 j args H2) as [_ Hrow2].
    destruct (Hrow2 gv H1) as [_ Hw]. cbn [Nat.add] in Hw.
    rewrite Hw, H5. unfold zeros. rewrite window_replicate by done. done. }
  step ltac:(exact Hloop).
  step ltac:(unfold array2_read; cbn [a_base a_rows a_cols];
             unfold s2, s1; cbn [heap]; fold b; rewrite Hb5; reflexivity).
  exists s5.
  split; [reflexivity|].
  split; [exact Hb5|].
  rewrite Hlog5, loop_trace_horizon. unfold s4, s2, s1. cbn [log].
  rewrite HE, Hz.
  rewrite <- !app_assoc. done.
Qed.

(** The same with as many dot weights as trials, where the four
    coefficients come out. *)
Lemma calculate_rows (s : state) :
  shapes_agree E Ag tauexit voltage -> emergence Ag <> [] ->
  exists decay_length Eshower buf calls,
    let pt := per_trial_of E Ag decay_length Eshower in
    length decay_length = n_trials /\ length Eshower = n_trials /\
    length buf = (n_stations * n_trials)%nat /\ Forall is01 buf /\
    length calls = n_stations /\
    (forall j, (j < n_stations)%nat ->
       exists gv args,
         GV !! j = Some gv /\ calls !! j = Some args /\
         station_call E Ag maxview antennas freqs pt GV j = Some args /\
         length (voltage args) = count_true (in_sight_mask maxview gv) /\
         rows_of n_stations n_trials buf !! j
         = Some (scatter (replicate n_trials 0%Q) (in_sight_mask maxview gv)
                         (trigger_values (Vrms E freqs antennas) trigger_SNR
                                         (voltage args)))) /\
    forall hd ha : Q -> Q -> Q,
      exists s',
        calculate (with_horizon E hd ha) ra dec lat lon altitude orientations
                  fov tauexit voltage maxview N antennas freqs trigger_SNR s
        = Ok (aggregate_value Ag N n_stations Pexit0
                (rows_of n_stations n_trials buf) n_trials, s') /\
        heap s' !! length (heap s) = Some buf /\
        log s' = log s ++ preamble E Ag tauexit N antennas freqs
                       ++ loop_trace E (stations_geocentric Ag) 0 calls.
Proof.
  intros Hshapes Hne.
  destruct (calculate_rows_any_dot (dot Ag) s
              ltac:(rewrite with_dot_id; exact Hshapes) Hne)
    as (dl & es & buf & calls & H1 & H2 & H3 & H4 & H5 & H6 & Hruns).
  exists dl, es, buf, calls. cbv zeta.
  split; [done|]. split; [done|]. split; [done|]. split; [done|].
  split; [done|]. split; [exact H6|].
  intros hd ha. destruct (Hruns hd ha) as (s' & Hrun & Hheap & Hlog).
  exists s'. split; [|done]. rewrite Hrun. apply aggregate_run.
  - apply (sa_dot _ _ _ _ Hshapes).
  - unfold exit_probabilities.
    rewrite (sa_Pexit _ _ _ _ Hshapes), length_map.
    apply (sa_emergence _ _ _ _ Hshapes).
  - apply rows_of_rows. done.
Qed.

End CalculateRows.

Lemma with_horizon_id (E : Env) :
  with_horizon E (distance_to_horizon E) (horizon_angle E) = E.
Proof. destruct E. reflexivity. Qed.

Lemma station_call_inv (E : Env) (Ag : GeometricArea) (maxview : Q)
    (antennas : Z) (freqs : list Q) (pt : per_trial)
    (ground_view : list (list Q)) (i : nat) (args : VoltageArgs) :
  station_call E Ag maxview antennas freqs pt ground_view i = Some args ->
  exists gv st gd ori dbr fv,
    ground_view !! i = Some gv /\ stations_geocentric Ag !! i = Some st /\
    stations_geodetic Ag !! i = Some gd /\ Ag_orientations Ag !! i = Some ori /\
    dbeacon Ag !! i = Some dbr /\ Ag_fov Ag !! i = Some fv /\
    args = voltage_arguments E Ag antennas freqs pt
                             (in_sight_mask maxview gv) st gd ori dbr fv.
Proof.
  unfold station_call. intros H.
  destruct (ground_view !! i) as [gv|]; [|discriminate].
  destruct (stations_geocentric Ag !! i) as [st|]; [|discriminate].
  destruct (stations_geodetic Ag !! i) as [gd|]; [|discriminate].
  destruct (Ag_orientations Ag !! i) as [ori|]; [|discriminate].
  destruct (dbeacon Ag !! i) as [dbr|]; [|discriminate].
  destruct (Ag_fov Ag !! i) as [fv|]; [|discriminate].
  injection H as <-. exists gv, st, gd, ori, dbr, fv. done.
Qed.

Section CalculateHere.
Context (E : Env)
        (ra dec : Q) (lat lon altitude orientations fov : list Q)
        (tauexit : list Q -> list (option Q) * list Q)
        (voltage : VoltageArgs -> list (list Q))
        (maxview : Q) (N antennas : Z) (freqs : list Q) (trigger_SNR : Q).

Local Abbreviation Ag :=
  (batch E ra dec lat lon altitude orientations fov maxview N).
Local Abbreviation Pexit0 :=
  (exit_probabilities E ra dec lat lon altitude orientations fov tauexit
                      maxview N).
Local Abbreviation n_stations := (length (stations_geocentric Ag)).
Local Abbreviation n_trials := (length (trials Ag)).
Local Abbreviation GV :=
  (view_angle E (trials Ag) (stations_geocentric Ag) (axis Ag)).

(** [calculate_rows], for the horizon functions of the environment. *)
Lemma calculate_rows_here (s : state) :
  shapes_agree E Ag tauexit voltage -> emergence Ag <> [] ->
  exists decay_length Eshower buf calls s',
    let pt := per_trial_of E Ag decay_length Eshower in
    length decay_length = n_trials /\ length Eshower = n_trials /\
    length buf = (n_stations * n_trials)%nat /\ Forall is01 buf /\
    length calls = n_stations /\
    (forall j, (j < n_stations)%nat ->
       exists gv args,
         GV !! j = Some gv /\ calls !! j = Some args /\
         station_call E Ag maxview antennas freqs pt GV j = Some args /\
         length (voltage args) = count_true (in_sight_mask maxview gv) /\
         rows_of n_stations n_trials buf !! j
         = Some (scatter (replicate n_trials 0%Q) (in_sight_mask maxview gv)
                         (trigger_values (Vrms E freqs antennas) trigger_SNR
                                         (voltage args)))) /\
    calculate E ra dec lat lon altitude orientations
              fov tauexit voltage maxview N antennas freqs trigger_SNR s
    = Ok (aggregate_value Ag N n_stations Pexit0
            (rows_of n_stations n_trials buf) n_trials, s') /\
    heap s' !! length (heap s) = Some buf /\
    log s' = log s ++ preamble E Ag tauexit N antennas freqs
                   ++ loop_trace E (stations_geocentric Ag) 0 calls.
Proof.
  intros Hshapes Hne.
  destruct (calculate_rows E ra dec lat lon altitude orientations fov tauexit
              voltage maxview N antennas freqs trigger_SNR s Hshapes Hne)
    as (dl & es & buf & calls & H1 & H2 & H3 & H4 & H5 & H6 & Hruns).
  destruct (Hruns (distance_to_horizon E) (horizon_angle E))
    as (s' & Hrun & Hheap & Hlog).
  rewrite with_horizon_id in Hrun.
  exists dl, es, buf, calls, s'. cbv zeta. done.
Qed.

End CalculateHere.

Lemma voltage_calls_loop_trace (E : Env) (stations : list vec3)
    (calls : list VoltageArgs) :
  forall a : nat,
    (a + length calls <= length stations)%nat ->
    voltage_calls (loop_trace E stations a calls) = calls.
Proof.
  induction calls as [|args calls IH]; intros a Hlen; [done|].
  simpl in Hlen.
  destruct (lookup_lt_is_Some_2 stations a ltac:(lia)) as [st Hst].
  cbn [loop_trace]. rewrite Hst. unfold voltage_calls in *.
  rewrite flat_map_app, (IH (S a)) by lia. done.
Qed.

(** The voltage calls of a run on a batch that is not empty are those of
    its station loop. *)
Lemma voltage_calls_of_run {A} (E : Env) (Ag : GeometricArea)
    (tauexit : list Q -> list (option Q) * list Q)
    (N antennas : Z) (freqs : list Q)
    (s s' : state) (v : A) (calls : list VoltageArgs) :
  log s' = log s ++ preamble E Ag tauexit N antennas freqs
                 ++ loop_trace E (stations_geocentric Ag) 0 calls ->
  length calls = length (stations_geocentric Ag) ->
  voltage_calls (calls_of_run s (Ok (v, s'))) = calls.
Proof.
  intros Hlog Hlen. unfold calls_of_run. cbn [trace_of].
  rewrite Hlog, drop_app_length. unfold voltage_calls.
  rewrite flat_map_app. cbn [preamble flat_map app].
  apply voltage_calls_loop_trace. lia.
Qed.

(** ** No validation of the trial count and of the dot weights *)

Lemma broadcast2_one {A B C} (f : A -> B -> C) (x : A) (b : list B) :
  broadcast2 f [x] b = Ok (map (f x) b).
Proof. destruct b as [|y [|z b]]; reflexivity. Qed.

Lemma broadcast2_mismatch {A B C} (f : A -> B -> C) (a : list A)
    (b : list B) :
  length a <> length b -> length a <> 1%nat -> length b <> 1%nat ->
  broadcast2 f a b
  = Raise (ValueError "operands could not be broadcast together").
Proof.
  intros Hab Ha Hb. unfold broadcast2.
  rewrite (proj2 (Nat.eqb_neq _ _) Hab).
  destruct a as [|x [|x' a]]; destruct b as [|y [|y' b]]; simpl in *;
    try done; lia.
Qed.

Lemma map_replicate {A B} (f : A -> B) (k : nat) (x : A) :
  map f (replicate k x) = replicate k (f x).
Proof. induction k as [|k IH]; [done|]. simpl. rewrite IH. done. Qed.

Lemma zip_with_replicate_l {A B C} (f : A -> B -> C) (x : A) (b : list B) :
  zip_with f (replicate (length b) x) b = map (f x) b.
Proof. induction b as [|y b IH]; [done|]. simpl. rewrite IH. done. Qed.

(** Lines 188 to 198 with one dot weight: it is summed once for
    [geometric] and repeated for [effective_area]. *)
Lemma aggregate_run_one_dot (Ag : GeometricArea) (N : Z) (n_stations : nat)
    (Pexit : list (option Q)) (P : list (list Q)) (ncols : nat) (d : Q)
    (s : state) :
  dot Ag = [d] -> length Pexit = ncols ->
  Forall (fun r => length r = ncols) P ->
  aggregate Ag N n_stations Pexit P ncols s =
  Ok (unmask (np_div (area Ag * np_sum [d])
                     (inject_Z (N * Z.of_nat n_stations)))
      :: drop 1 (aggregate_value (with_dot Ag (replicate ncols d)) N
                                 n_stations Pexit P ncols), s).
Proof.
  intros Hdot HP Hrows. unfold aggregate, aggregate_value.
  cbv beta zeta. rewrite Hdot. cbn [map with_dot dot area].
  erewrite bind_ok; [|apply lift_ok, broadcast2_one].
  erewrite bind_ok;
    [|apply lift_ok, broadcast2_ok;
      rewrite !length_map, sum_axis0_length by done; lia].
  rewrite map_replicate, <- HP, zip_with_replicate_l. done.
Qed.

(** Lines 188 to 198 with a number of dot weights that is neither 1 nor
    the number of trials: the product at line 194 raises. *)
Lemma aggregate_mismatch (Ag : GeometricArea) (N : Z) (n_stations : nat)
    (Pexit : list (option Q)) (P : list (list Q)) (ncols : nat)
    (s : state) :
  length (dot Ag) <> length Pexit -> length (dot Ag) <> 1%nat ->
  length Pexit <> 1%nat ->
  aggregate Ag N n_stations Pexit P ncols s
  = Raise (ValueError "operands could not be broadcast together").
Proof.
  intros Hlen Hd HP. unfold aggregate. cbv beta zeta.
  unfold mbind, M_bind, bind, lift.
  rewrite broadcast2_mismatch by (rewrite ?length_map; done). done.
Qed.

(** C8, as the code has it: [calculate] does not validate the trial
    count or the number of dot weights, and raises no error of its own.
    On a batch of [n > 0] trials with at least one station and [N] not
    zero, the rest of the shapes agreeing (they agree once the dot
    weights are replaced by some array [ds] of [n] entries):
    - with [n] dot weights, [N] of either sign is the divisor of
      [geometric = area * sum(dot) / (N * M)], which is negative when [N]
      is and [area * sum(dot)] is positive;
    - one dot weight [d] is accepted: it is summed once for
      [geometric = area * d / (N * M)] and repeated for every trial in
      [effective_area];
    - any other number of dot weights makes numpy raise when the product
      of line 194 is formed, after the turn of every station. *)
Theorem calculate_checks_nothing (E : Env)
    (ra dec : Q) (lat lon altitude orientations fov : list Q)
    (tauexit : list Q -> list (option Q) * list Q)
    (voltage : VoltageArgs -> list (list Q))
    (maxview : Q) (N antennas : Z) (freqs : list Q) (trigger_SNR : Q)
    (ds : list Q) (s : state) :
  let Ag := batch E ra dec lat lon altitude orientations fov maxview N in
  let M := length (stations_geocentric Ag) in
  let n := length (trials Ag) in
  let Pexit := exit_probabilities E ra dec lat lon altitude orientations fov
                                  tauexit maxview N in
  let run := calculate E ra dec lat lon altitude orientations fov tauexit
                       voltage maxview N antennas freqs trigger_SNR s in
  shapes_agree E (with_dot Ag ds) tauexit voltage ->
  emergence Ag <> [] -> N <> 0%Z -> (0 < M)%nat ->
  (length (dot Ag) = n ->
   exists geometric pexit pdet effective_area s',
     run = Ok ([Fin geometric; pexit; pdet; effective_area], s') /\
     (geometric == area Ag * np_sum (dot Ag) / normalisation N M)%Q /\
     ((N < 0)%Z -> (0 < area Ag * np_sum (dot Ag))%Q ->
      (geometric < 0)%Q)) /\
  (forall d, dot Ag = [d] ->
   exists geometric pexit pdet effective_area s' buf,
     run = Ok ([Fin geometric; pexit; pdet; effective_area], s') /\
     heap s' !! length (heap s) = Some buf /\
     (geometric == area Ag * d / normalisation N M)%Q /\
     npval_eq effective_area
       (spec_effective_area (with_dot Ag (replicate n d)) N M Pexit
                            (rows_of M n buf))) /\
  (length (dot Ag) <> n -> length (dot Ag) <> 1%nat -> n <> 1%nat ->
   exists s5 buf calls,
     length calls = M /\
     log s5 = log s ++ preamble E Ag tauexit N antennas freqs
                    ++ loop_trace E (stations_geocentric Ag) 0 calls /\
     run = aggregate Ag N M Pexit (rows_of M n buf) n s5 /\
     run = Raise (ValueError "operands could not be broadcast together")).
Proof.
  intros Ag M n Pexit run Hshapes Hne HN HM.
  destruct (calculate_rows_any_dot E ra dec lat lon altitude orientations
              fov tauexit voltage maxview N antennas freqs trigger_SNR ds s
              Hshapes Hne)
    as (dl & es & buf & calls & _ & _ & Hlen & H01 & Hlc & _ & Hruns).
  destruct (Hruns (distance_to_horizon E) (horizon_angle E))
    as (s5 & Hrun & Hheap & Hlog).
  rewrite with_horizon_id in Hrun.
  fold Ag M n Pexit run in Hlen, Hlc, Hrun, Hlog.
  assert (length Pexit = n) as HPl.
  { unfold Pexit, exit_probabilities.
    rewrite (sa_Pexit _ _ _ _ Hshapes), length_map.
    apply (sa_emergence _ _ _ _ Hshapes). }
  set (P := rows_of M n buf) in *.
  assert (Forall (fun r => length r = n) P) as Hrows
    by (apply rows_of_rows; done).
  pose proof (normalisation_nonzero N M HN HM) as Hd.
  assert (inject_Z (N * Z.of_nat M) == normalisation N M)%Q as Hnorm
    by (unfold normalisation, nat2q; rewrite inject_Z_mult; reflexivity).
  split; [|split].
  - intros Hdot.
    rewrite (aggregate_run Ag N M Pexit P n s5 Hdot HPl Hrows) in Hrun.
    unfold aggregate_value in Hrun.
    rewrite np_div_nonzero in Hrun by done.
    do 5 eexists. split; [exact Hrun|].
    split; [rewrite Hnorm; reflexivity|].
    intros Hneg Hpos.
    assert (inject_Z (N * Z.of_nat M) < 0)%Q as Hd0
      by (unfold Qlt; simpl; nia).
    set (a := (area Ag * np_sum (dot Ag))%Q) in *.
    set (dd := inject_Z (N * Z.of_nat M)) in *.
    assert (a / dd * dd == a)%Q as Hmul by (field; lra).
    nra.
  - intros d Hdot.
    rewrite (aggregate_run_one_dot Ag N M Pexit P n d s5 Hdot HPl Hrows)
      in Hrun.
    unfold aggregate_value in Hrun.
    rewrite np_div_nonzero in Hrun by done.
    cbn [np_array map drop unmask] in Hrun.
    do 6 eexists. split; [exact Hrun|]. split; [exact Hheap|].
    split.
    + rewrite Hnorm. cbn [np_sum foldr]. field.
      rewrite <- Hnorm. done.
    + destruct (sum_axis0_detections n P (rows_of_Forall is01 M n buf H01))
        as [_ Hdet].
      rewrite Hdet. unfold spec_effective_area, trial_terms.
      cbn [with_dot dot trials area]. fold n.
      rewrite weighted_terms.
      pose proof (ma_sum_unmasked
        (zip_with (fun dd p => match p with
                               | Some pv =>
                                   Some (area Ag * dd.1 * pv * b2q dd.2)%Q
                               | None => None
                               end)
                  (zip (replicate n d) (detections n P)) Pexit)
        _ Hd) as Hms.
      destruct (unmasked _) as [|t ts]; [exact Hms|].
      destruct (ma_sum _); exact Hms.
  - intros Hk Hk1 Hn1. exists s5, buf, calls.
    split; [exact Hlc|]. split; [exact Hlog|]. split; [exact Hrun|].
    rewrite Hrun. apply aggregate_mismatch; lia.
Qed.

(** ** The horizon functions *)

(** X8: on shapes that agree, what [calculate] returns and the calls it makes
    do not depend on [geometry.distance_to_horizon] and
    [geometry.horizon_angle]: with any two other functions in their place
    the four coefficients and the trace are the same.  The two assignments
    under the horizon masks (lines 182 and 186) change no coefficient,
    whatever the input. *)
Theorem calculate_ignores_horizon (E : Env)
    (ra dec : Q) (lat lon altitude orientations fov : list Q)
    (tauexit : list Q -> list (option Q) * list Q)
    (voltage : VoltageArgs -> list (list Q))
    (maxview : Q) (N antennas : Z) (freqs : list Q) (trigger_SNR : Q)
    (hd ha : Q -> Q -> Q) (s : state) :
  shapes_agree E (batch E ra dec lat lon altitude orientations fov maxview N)
               tauexit voltage ->
  exists out s1 s2,
    calculate E ra dec lat lon altitude orientations fov tauexit voltage
              maxview N antennas freqs trigger_SNR s = Ok (out, s1) /\
    calculate (with_horizon E hd ha) ra dec lat lon altitude orientations fov
              tauexit voltage maxview N antennas freqs trigger_SNR s
      = Ok (out, s2) /\
    log s2 = log s1.
Proof.
  intros Hshapes.
  destruct (emergence (batch E ra dec lat lon altitude orientations fov
                             maxview N)) as [|e es] eqn:Hem.
  - exists [Fin 0; Fin 0; Fin 0; Fin 0]. do 2 eexists.
    unfold calculate, mbind, M_bind, bind, emit.
    cbn [with_horizon geometric_area].
    unfold batch in Hem. rewrite Hem. cbn [length Nat.eqb].
    split; [reflexivity|]. split; reflexivity.
  - destruct (calculate_rows E ra dec lat lon altitude orientations fov
                tauexit voltage maxview N antennas freqs trigger_SNR s
                Hshapes ltac:(rewrite Hem; done))
      as (dl & es' & buf & calls & _ & _ & _ & _ & _ & _ & Hruns).
    destruct (Hruns (distance_to_horizon E) (horizon_angle E))
      as (s1 & Hrun1 & _ & Hlog1).
    destruct (Hruns hd ha) as (s2 & Hrun2 & _ & Hlog2).
    rewrite with_horizon_id in Hrun1.
    do 3 eexists. split; [exact Hrun1|]. split; [exact Hrun2|].
    rewrite Hlog1, Hlog2. done.
Qed.

(** ** The calls of a run *)

(** X9: on a batch that is not empty, [calculate] calls the geometry, the exit
    model on the zenith angles in degrees, [sample_range],
    [sample_shower_energies] for as many energies as there are tau
    energies, [Vrms] and [view_angle], in this order and once each; then,
    station after station, the voltage model once, [distance_to_horizon]
    and [horizon_angle]. *)
Theorem calculate_call_order (E : Env)
    (ra dec : Q) (lat lon altitude orientations fov : list Q)
    (tauexit : list Q -> list (option Q) * list Q)
    (voltage : VoltageArgs -> list (list Q))
    (maxview : Q) (N antennas : Z) (freqs : list Q) (trigger_SNR : Q)
    (s : state) :
  let Ag := batch E ra dec lat lon altitude orientations fov maxview N in
  shapes_agree E Ag tauexit voltage -> emergence Ag <> [] ->
  exists calls,
    length calls = length (stations_geocentric Ag) /\
    trace_of (calculate E ra dec lat lon altitude orientations fov tauexit
                        voltage maxview N antennas freqs trigger_SNR s)
    = log s ++ preamble E Ag tauexit N antennas freqs
            ++ loop_trace E (stations_geocentric Ag) 0 calls.
Proof.
  intros Ag Hshapes Hne.
  destruct (calculate_rows_here E ra dec lat lon altitude orientations fov
              tauexit voltage maxview N antennas freqs trigger_SNR s
              Hshapes Hne)
    as (dl & es & buf & calls & s' & _ & _ & _ & _ & Hlc & _ & Hrun & _
        & Hlog).
  exists calls. split; [exact Hlc|]. rewrite Hrun. exact Hlog.
Qed.

Lemma altitudes_loop_trace (E : Env) (stations : list vec3)
    (calls : list VoltageArgs) :
  forall a : nat,
    (a + length calls = length stations)%nat ->
    (forall j args, calls !! j = Some args ->
       forall st, stations !! (a + j)%nat = Some st ->
                  va_detector_altitude args = detector_altitude E st) ->
    altitudes_handed_over (loop_trace E stations a calls)
    = flat_map (fun st => replicate 3 (detector_altitude E st))
               (drop a stations).
Proof.
  induction calls as [|args calls IH]; intros a Hlen Halt.
  - simpl in Hlen. rewrite drop_ge by lia. done.
  - simpl in Hlen.
    destruct (lookup_lt_is_Some_2 stations a ltac:(lia)) as [st Hst].
    cbn [loop_trace]. rewrite Hst, (drop_S _ _ _ Hst).
    unfold altitudes_handed_over in *. rewrite flat_map_app.
    cbn [flat_map]. rewrite (IH (S a)); cycle 1.
    + lia.
    + intros j args' Hj st' Hst'.
      apply (Halt (S j) args' Hj). rewrite <- Hst'. f_equal. lia.
    + cbn [station_events flat_map app replicate].
      rewrite (Halt 0%nat args eq_refl st)
        by (rewrite Nat.add_0_r; done).
      done.
Qed.

(** X10: for every station of a batch that is not empty, the altitude handed
    to the voltage model, to [distance_to_horizon] and to [horizon_angle]
    is the norm of the position of the station with [Re] taken off every
    coordinate: three times the same number per station, in the order of
    the stations. *)
Theorem calculate_altitudes (E : Env)
    (ra dec : Q) (lat lon altitude orientations fov : list Q)
    (tauexit : list Q -> list (option Q) * list Q)
    (voltage : VoltageArgs -> list (list Q))
    (maxview : Q) (N antennas : Z) (freqs : list Q) (trigger_SNR : Q)
    (s : state) :
  let Ag := batch E ra dec lat lon altitude orientations fov maxview N in
  shapes_agree E Ag tauexit voltage -> emergence Ag <> [] ->
  altitudes_handed_over
    (trace_of (calculate E ra dec lat lon altitude orientations fov tauexit
                         voltage maxview N antennas freqs trigger_SNR s))
  = altitudes_handed_over (log s)
    ++ flat_map (fun st => replicate 3 (detector_altitude E st))
                (stations_geocentric Ag).
Proof.
  intros Ag Hshapes Hne.
  destruct (calculate_rows_here E ra dec lat lon altitude orientations fov
              tauexit voltage maxview N antennas freqs trigger_SNR s
              Hshapes Hne)
    as (dl & es & buf & calls & s' & _ & _ & _ & _ & Hlc & Hall & Hrun & _
        & Hlog).
  rewrite Hrun. cbn [trace_of]. rewrite Hlog. subst Ag.
  pose proof (altitudes_loop_trace E _ calls 0 ltac:(rewrite Hlc; done))
    as Hloop.
  unfold altitudes_handed_over in *. rewrite !flat_map_app.
  rewrite Hloop; [done|].
  intros j args Hj st Hst. cbn [Nat.add] in Hst.
  apply lookup_lt_Some in Hj as Hjm.
  destruct (Hall j ltac:(lia)) as (gv & args' & _ & Hj' & Hcall & _).
  rewrite Hj in Hj'. injection Hj' as <-.
  apply station_call_inv in Hcall
    as (gv' & st' & gd & ori & dbr & fv & _ & Hst' & _ & _ & _ & _ & ->).
  rewrite Hst in Hst'. injection Hst' as <-. done.
Qed.

(** ** The voltage call of a station *)

(** X11: the voltage call of a station gets the exit zenith angles of every
    trial of the batch, in degrees, and the other arrays with one entry
    per trial cut down to the trials in view of the station; the model
    returns one row per trial in view.  The frequencies and the number of
    antennas are passed on as they came. *)
Theorem voltage_call_shapes (E : Env)
    (ra dec : Q) (lat lon altitude orientations fov : list Q)
    (tauexit : list Q -> list (option Q) * list Q)
    (voltage : VoltageArgs -> list (list Q))
    (maxview : Q) (N antennas : Z) (freqs : list Q) (trigger_SNR : Q)
    (s : state) :
  let Ag := batch E ra dec lat lon altitude orientations fov maxview N in
  let GV := view_angle E (trials Ag) (stations_geocentric Ag) (axis Ag) in
  shapes_agree E Ag tauexit voltage -> emergence Ag <> [] ->
  exists calls,
    trace_of (calculate E ra dec lat lon altitude orientations fov tauexit
                        voltage maxview N antennas freqs trigger_SNR s)
    = log s ++ preamble E Ag tauexit N antennas freqs
            ++ loop_trace E (stations_geocentric Ag) 0 calls /\
    forall i args gv,
      calls !! i = Some args -> GV !! i = Some gv ->
      let k := count_true (in_sight_mask maxview gv) in
      va_exit_zenith args
      = map (rad2deg E) (map (fun e => (np_pi E / 2 - e)%Q) (emergence Ag)) /\
      length (va_exit_zenith args) = length (trials Ag) /\
      length (va_decay_altitude args) = k /\
      length (va_decay_length args) = k /\
      length (va_decay_zenith args) = k /\
      length (va_decay_azimuth args) = k /\
      length (va_distance_to_decay args) = k /\
      length (va_dbeacon args) = k /\
      length (va_Eshower args) = k /\
      length (va_theta args) = k /\
      length (voltage args) = k /\
      va_freqs args = freqs /\ va_antennas args = antennas.
Proof.
  intros Ag GV Hshapes Hne.
  destruct (calculate_rows_here E ra dec lat lon altitude orientations fov
              tauexit voltage maxview N antennas freqs trigger_SNR s
              Hshapes Hne)
    as (dl & es & buf & calls & s' & Hdl & Hes & _ & _ & Hlc & Hall & Hrun & _
        & Hlog).
  exists calls. split; [rewrite Hrun; exact Hlog|].
  intros i args gv Hi Hgv k.
  apply lookup_lt_Some in Hi as Him.
  destruct (Hall i ltac:(lia)) as (gv' & args' & Hgv' & Hi' & Hcall & Hvl & _).
  fold Ag GV in Hgv', Hcall. rewrite Hgv in Hgv'. injection Hgv' as <-.
  rewrite Hi in Hi'. injection Hi' as <-.
  apply station_call_inv in Hcall
    as (gv' & st & gd & ori & dbr & fv & Hgv' & Hst & _ & _ & Hdb & _ & ->).
  rewrite Hgv in Hgv'. injection Hgv' as <-. fold k in Hvl |- *.
  destruct Hshapes as [_ _ Hemg _ _ _ _ _ Hdbr _ _ _ Hsph Hdz Hdaz _ Hviewr
                       Hth _].
  fold Ag in Hemg, Hdbr, Hdl, Hes.
  set (n := length (trials Ag)) in *.
  assert (length (in_sight_mask maxview gv) = n) as Hm.
  { unfold in_sight_mask. rewrite length_map.
    pose proof (Hviewr (trials Ag) (stations_geocentric Ag) (axis Ag)) as Hr.
    rewrite Forall_forall in Hr. apply Hr, list_elem_of_lookup. eauto. }
  assert (length dbr = n) as Hdbl.
  { rewrite Forall_forall in Hdbr. apply Hdbr, list_elem_of_lookup. eauto. }
  assert (length (zip_with (fun t d => vadd t (vscale (axis Ag) d))
                           (trials Ag) dl) = n) as Hdp
    by (rewrite length_zip_with; lia).
  unfold voltage_arguments, per_trial_of.
  cbn [va_exit_zenith va_decay_altitude va_decay_length va_decay_zenith
       va_decay_azimuth va_distance_to_decay va_dbeacon va_Eshower va_theta
       va_freqs va_antennas pt_decay_length pt_Eshower pt_decay_point
       pt_decay_altitude pt_exit_zenith pt_decay_point_spherical
       pt_decay_zenith pt_decay_azimuth].
  rewrite !length_map, Hth.
  assert (forall {A} (l : list A), length l = n ->
            length (select l (in_sight_mask maxview gv)) = k) as Hsel.
  { intros A l Hl. apply select_count. lia. }
  split; [done|]. split; [done|].
  split; [apply Hsel; rewrite length_map; done|].
  split; [apply Hsel; done|].
  split; [apply Hsel; rewrite Hdz; done|].
  split; [apply Hsel; rewrite Hdaz; done|].
  split; [apply Hsel; done|].
  split; [apply Hsel; done|].
  split; [apply Hsel; done|].
  split; [apply Hsel; done|].
  split; [exact Hvl|]. done.
Qed.

(** ** [Ptrig] when the loop is over *)

(** X12: on a batch that is not empty, when the loop over the stations is
    over, row [i] of [Ptrig] is what line 159 put there: zero at the
    trials out of view of station [i] and, at the trials in view, in their
    order, 1 where the SNR of the trial exceeds [trigger_SNR] and 0
    elsewhere.  The coefficients are made from these rows. *)
Theorem Ptrig_after_the_loop (E : Env)
    (ra dec : Q) (lat lon altitude orientations fov : list Q)
    (tauexit : list Q -> list (option Q) * list Q)
    (voltage : VoltageArgs -> list (list Q))
    (maxview : Q) (N antennas : Z) (freqs : list Q) (trigger_SNR : Q)
    (s : state) :
  let Ag := batch E ra dec lat lon altitude orientations fov maxview N in
  let M := length (stations_geocentric Ag) in
  let n := length (trials Ag) in
  let GV := view_angle E (trials Ag) (stations_geocentric Ag) (axis Ag) in
  let Pexit := exit_probabilities E ra dec lat lon altitude orientations fov
                                  tauexit maxview N in
  shapes_agree E Ag tauexit voltage -> emergence Ag <> [] ->
  exists buf calls s',
    calculate E ra dec lat lon altitude orientations fov tauexit voltage
              maxview N antennas freqs trigger_SNR s
    = Ok (aggregate_value Ag N M Pexit (rows_of M n buf) n, s') /\
    heap s' !! length (heap s) = Some buf /\
    log s' = log s ++ preamble E Ag tauexit N antennas freqs
                   ++ loop_trace E (stations_geocentric Ag) 0 calls /\
    length (rows_of M n buf) = M /\
    forall i row, rows_of M n buf !! i = Some row ->
      exists gv args,
        GV !! i = Some gv /\ calls !! i = Some args /\
        row = scatter (replicate n 0%Q) (in_sight_mask maxview gv)
                (trigger_values (Vrms E freqs antennas) trigger_SNR
                                (voltage args)).
Proof.
  intros Ag M n GV Pexit Hshapes Hne.
  destruct (calculate_rows_here E ra dec lat lon altitude orientations fov
              tauexit voltage maxview N antennas freqs trigger_SNR s
              Hshapes Hne)
    as (dl & es & buf & calls & s' & _ & _ & _ & _ & Hlc & Hall & Hrun & Hheap
        & Hlog).
  exists buf, calls, s'. split; [exact Hrun|]. split; [exact Hheap|].
  split; [exact Hlog|]. split; [apply rows_of_length|].
  intros i row Hi. apply lookup_lt_Some in Hi as Him.
  rewrite rows_of_length in Him.
  destruct (Hall i Him) as (gv & args & Hgv & Hc & _ & _ & Hrow).
  fold Ag M n in Hrow. rewrite Hi in Hrow. injection Hrow as ->.
  exists gv, args. done.
Qed.

(** ** Trials out of view, voltages under the threshold *)

Lemma scatter_lookup_false {A} (a : list A) :
  forall (m : list bool) (v : list A) (j : nat),
    m !! j = Some false -> scatter a m v !! j = a !! j.
Proof.
  induction a as [|x a IH]; intros [|[] m] v [|j] H; simpl in *;
    try done; try discriminate.
  - destruct v; simpl; apply IH; done.
  - apply IH. done.
Qed.

Lemma detections_lookup_false (ncols : nat) (P : list (list Q)) (j : nat) :
  (j < ncols)%nat -> Forall (fun r => r !! j = Some 0%Q) P ->
  detections ncols P !! j = Some false.
Proof.
  intros Hj. unfold detections.
  induction 1 as [|r P Hr HP IH]; cbn [map foldr].
  - apply lookup_replicate_2. done.
  - apply lookup_zip_with_Some. exists (indicator 0), false.
    split; [done|]. split; [|done]. rewrite lookup_map, Hr. done.
Qed.

Lemma in_sight_false (maxview g : Q) :
  (maxview < g)%Q -> Qle_bool g maxview = false.
Proof.
  intros H. destruct (Qle_bool g maxview) eqn:Hle; [|done].
  apply Qle_bool_iff in Hle. lra.
Qed.

(** X13: a trial that is out of view of every station is not detected,
    whatever the voltage model returns: its entry of
    [Pdet = np.sum(Ptrig, axis=0) > 0] is false. *)
Theorem trial_out_of_view_not_detected (E : Env)
    (ra dec : Q) (lat lon altitude orientations fov : list Q)
    (tauexit : list Q -> list (option Q) * list Q)
    (voltage : VoltageArgs -> list (list Q))
    (maxview : Q) (N antennas : Z) (freqs : list Q) (trigger_SNR : Q)
    (s : state) (j : nat) :
  let Ag := batch E ra dec lat lon altitude orientations fov maxview N in
  let M := length (stations_geocentric Ag) in
  let n := length (trials Ag) in
  let GV := view_angle E (trials Ag) (stations_geocentric Ag) (axis Ag) in
  let Pexit := exit_probabilities E ra dec lat lon altitude orientations fov
                                  tauexit maxview N in
  shapes_agree E Ag tauexit voltage -> emergence Ag <> [] ->
  (j < n)%nat ->
  (forall i gv, GV !! i = Some gv ->
     exists g, gv !! j = Some g /\ (maxview < g)%Q) ->
  exists buf s',
    calculate E ra dec lat lon altitude orientations fov tauexit voltage
              maxview N antennas freqs trigger_SNR s
    = Ok (aggregate_value Ag N M Pexit (rows_of M n buf) n, s') /\
    heap s' !! length (heap s) = Some buf /\
    Pdet_of n (rows_of M n buf) !! j = Some false.
Proof.
  intros Ag M n GV Pexit Hshapes Hne Hj Hout.
  destruct (calculate_rows_here E ra dec lat lon altitude orientations fov
              tauexit voltage maxview N antennas freqs trigger_SNR s
              Hshapes Hne)
    as (dl & es & buf & calls & s' & _ & _ & Hlen & H01 & Hlc & Hall & Hrun
        & Hheap & _).
  fold Ag M n GV in Hlen, Hall.
  exists buf, s'. split; [exact Hrun|]. split; [exact Hheap|].
  unfold Pdet_of.
  destruct (sum_axis0_detections n (rows_of M n buf)
              (rows_of_Forall is01 M n buf H01)) as [_ ->].
  apply detections_lookup_false; [done|].
  apply Forall_lookup. intros i row Hi.
  apply lookup_lt_Some in Hi as Him. rewrite rows_of_length in Him.
  destruct (Hall i Him) as (gv & args & Hgv & _ & _ & _ & Hrow).
  rewrite Hi in Hrow. injection Hrow as ->.
  destruct (Hout i gv Hgv) as (g & Hg & Hlt).
  rewrite scatter_lookup_false.
  - apply lookup_replicate_2. done.
  - unfold in_sight_mask. rewrite lookup_map, Hg. cbn [option_map].
    rewrite in_sight_false by done. done.
Qed.

Lemma zip_with_Qplus_zeros (k : nat) :
  zip_with Qplus (replicate k 0%Q) (replicate k 0%Q) = replicate k 0%Q.
Proof. induction k as [|k IH]; [done|]. cbn. rewrite IH. done. Qed.

Lemma sum_axis0_zeros (ncols : nat) (P : list (list Q)) :
  Forall (fun r => r = replicate ncols 0%Q) P ->
  sum_axis0 ncols P = replicate ncols 0%Q.
Proof.
  unfold sum_axis0. induction 1 as [|r P -> HP IH]; cbn [foldr]; [done|].
  rewrite IH. apply zip_with_Qplus_zeros.
Qed.

Lemma count_true_replicate (k : nat) (x : bool) :
  count_true (replicate k x) = if x then k else 0%nat.
Proof.
  unfold count_true.
  induction k as [|k IH]; destruct x; simpl in *; try done.
  rewrite IH. done.
Qed.

Lemma np_sum_undetected (X : list (option Q)) :
  forall k : nat,
    (np_sum (filled0 (zip_with masked_mul X (replicate k false))) == 0)%Q.
Proof.
  induction X as [|x X IH]; intros [|k]; try reflexivity.
  cbn [replicate zip_with]. unfold filled0. cbn [map np_sum foldr].
  fold (filled0 (zip_with masked_mul X (replicate k false))).
  fold (np_sum (filled0 (zip_with masked_mul X (replicate k false)))).
  rewrite IH. destruct x; cbn [masked_mul b2q]; ring.
Qed.

(** The coefficients when no row of [Ptrig] has a trigger. *)
Lemma aggregate_value_no_detection (Ag : GeometricArea) (N : Z) (M : nat)
    (Pexit : list (option Q)) (P : list (list Q)) (ncols : nat) :
  (0 < ncols)%nat -> N <> 0%Z -> (0 < M)%nat ->
  length (dot Ag) = ncols -> length Pexit = ncols ->
  Forall (fun r => r = replicate ncols 0%Q) P ->
  exists geometric pexit pdet effective_area,
    aggregate_value Ag N M Pexit P ncols
    = [geometric; pexit; Fin pdet; effective_area] /\
    (pdet == 0)%Q /\
    match unmasked Pexit with
    | [] => effective_area = NaN
    | _ => exists q, effective_area = Fin q /\ (q == 0)%Q
    end.
Proof.
  intros Hn HN HM Hdot HPl HP. unfold aggregate_value.
  rewrite (sum_axis0_zeros ncols P HP), !map_replicate.
  change (Qltb 0 0) with false.
  pose proof (normalisation_nonzero N M HN HM) as Hd.
  assert (ma_count (zip_with masked_mul
                      (zip_with mul_masked (map (Qmult (area Ag)) (dot Ag))
                                Pexit) (replicate ncols false))
          = length (unmasked Pexit)) as Hc.
  { rewrite ma_count_weighted, ma_count_unmasked
      by (rewrite ?length_map, ?length_replicate; lia). done. }
  destruct ncols as [|k]; [lia|].
  do 4 eexists. split; [reflexivity|]. split.
  - rewrite <- (map_replicate b2q (S k) false), np_sum_b2q,
      count_true_replicate.
    change (nat2q 0) with 0%Q.
    assert (0 < nat2q (length (map b2q (replicate (S k) false))))%Q
      by (apply nat2q_pos; rewrite length_map, length_replicate; lia).
    field. lra.
  - unfold ma_sum. rewrite Hc.
    destruct (unmasked Pexit) as [|q qs]; cbn [length Nat.eqb];
      [reflexivity|].
    rewrite np_div_nonzero by done. eexists. split; [reflexivity|].
    rewrite np_sum_undetected. field. done.
Qed.

(** X14: when no row of voltages the model returned to the run has an SNR
    above [trigger_SNR], nothing is detected: [pdet] is 0, and
    [effective_area] is 0, or nan when every exit probability is
    masked. *)
Theorem calculate_no_trigger (E : Env)
    (ra dec : Q) (lat lon altitude orientations fov : list Q)
    (tauexit : list Q -> list (option Q) * list Q)
    (voltage : VoltageArgs -> list (list Q))
    (maxview : Q) (N antennas : Z) (freqs : list Q) (trigger_SNR : Q)
    (s : state) :
  let Ag := batch E ra dec lat lon altitude orientations fov maxview N in
  let Pexit := exit_probabilities E ra dec lat lon altitude orientations fov
                                  tauexit maxview N in
  let run := calculate E ra dec lat lon altitude orientations fov tauexit
                       voltage maxview N antennas freqs trigger_SNR s in
  shapes_agree E Ag tauexit voltage -> emergence Ag <> [] ->
  N <> 0%Z -> (0 < length (stations_geocentric Ag))%nat ->
  Forall (fun args =>
            Forall (fun row => triggers (Vrms E freqs antennas) trigger_SNR
                                        row = false) (voltage args))
         (voltage_calls (calls_of_run s run)) ->
  exists geometric pexit pdet effective_area s',
    run = Ok ([geometric; pexit; Fin pdet; effective_area], s') /\
    (pdet == 0)%Q /\
    match unmasked Pexit with
    | [] => effective_area = NaN
    | _ => exists q, effective_area = Fin q /\ (q == 0)%Q
    end.
Proof.
  intros Ag Pexit run Hshapes Hne HN HM Hno.
  destruct (calculate_rows_here E ra dec lat lon altitude orientations fov
              tauexit voltage maxview N antennas freqs trigger_SNR s
              Hshapes Hne)
    as (dl & es & buf & calls & s' & _ & _ & Hlen & H01 & Hlc & Hall & Hrun
        & _ & Hlog).
  fold Ag Pexit run in Hlen, Hall, Hrun, Hlog, Hlc.
  rewrite Hrun, (voltage_calls_of_run _ _ _ _ _ _ _ _ _ _ Hlog Hlc) in Hno.
  set (M := length (stations_geocentric Ag)) in *.
  set (n := length (trials Ag)) in *.
  assert (0 < n)%nat as Hn.
  { pose proof (sa_emergence _ _ _ _ Hshapes) as He. fold Ag n in He.
    destruct (emergence Ag); [done|]. simpl in He. lia. }
  destruct (aggregate_value_no_detection Ag N M Pexit (rows_of M n buf) n
              Hn HN HM)
    as (g & pe & pd & ea & Hval & Hpd & Hea).
  { apply (sa_dot _ _ _ _ Hshapes). }
  { unfold Pexit, exit_probabilities.
    rewrite (sa_Pexit _ _ _ _ Hshapes), length_map.
    apply (sa_emergence _ _ _ _ Hshapes). }
  { apply Forall_lookup. intros i row Hi.
    apply lookup_lt_Some in Hi as Him. rewrite rows_of_length in Him.
    destruct (Hall i Him) as (gv & args & _ & Hc & _ & _ & Hrow).
    rewrite Hi in Hrow. injection Hrow as ->.
    symmetry. apply replicate_as_Forall. split.
    - rewrite scatter_length, length_replicate. done.
    - apply scatter_Forall; [apply Forall_replicate; done|].
      unfold trigger_values. rewrite Forall_forall. intros q Hq.
      apply list_elem_of_In, in_map_iff in Hq as (r & <- & Hr).
      pose proof (Forall_lookup_1 _ _ _ _ Hno Hc) as Hargs.
      rewrite Forall_forall in Hargs.
      apply list_elem_of_In, Hargs in Hr. unfold triggers in Hr.
      rewrite Hr. done. }
  exists g, pe, pd, ea, s'. rewrite Hrun, Hval. done.
Qed.

(** ** The detection probability and the trials in view *)

Lemma any_row_length (ncols : nat) (Bs : list (list bool)) :
  Forall (fun r => length r = ncols) Bs -> length (any_row ncols Bs) = ncols.
Proof.
  unfold any_row. induction 1 as [|r Bs Hr HBs IH]; cbn [foldr].
  - apply length_replicate.
  - rewrite length_zip_with. lia.
Qed.

Lemma any_row_true (ncols : nat) (Bs : list (list bool)) (j : nat) :
  Forall (fun r => length r = ncols) Bs ->
  any_row ncols Bs !! j = Some true <->
  exists r, r ∈ Bs /\ r !! j = Some true.
Proof.
  induction 1 as [|r Bs Hr HBs IH].
  - unfold any_row. cbn [foldr]. split.
    + intros H. apply lookup_replicate in H as [? _]. done.
    + intros (r & Hin & _). inversion Hin.
  - pose proof (any_row_length ncols Bs HBs) as Hlen.
    change (any_row ncols (r :: Bs))
      with (zip_with orb r (any_row ncols Bs)).
    rewrite lookup_zip_with_Some. split.
    + intros (x & y & Hxy & Hx & Hy).
      destruct x.
      * exists r. split; [left|done].
      * cbn in Hxy. subst y. apply IH in Hy as (r' & Hin & Hr').
        exists r'. split; [right; done|done].
    + intros (r' & Hin & Hr').
      assert (j < ncols)%nat as Hj.
      { apply lookup_lt_Some in Hr'.
        apply elem_of_cons in Hin as [->|Hin]; [lia|].
        rewrite Forall_forall in HBs. rewrite <- (HBs r' Hin). done. }
      destruct (lookup_lt_is_Some_2 r j ltac:(lia)) as [x Hx].
      destruct (lookup_lt_is_Some_2 (any_row ncols Bs) j ltac:(lia))
        as [y Hy].
      exists x, y. split; [|done].
      apply elem_of_cons in Hin as [->|Hin].
      * rewrite Hx in Hr'. injection Hr' as ->. done.
      * assert (any_row ncols Bs !! j = Some true) as Hy'
          by (apply IH; eauto).
        rewrite Hy in Hy'. injection Hy' as ->. destruct x; done.
Qed.

Lemma count_true_mono (a : list bool) :
  forall b : list bool,
    length a = length b ->
    (forall j, a !! j = Some true -> b !! j = Some true) ->
    (count_true a <= count_true b)%nat.
Proof.
  induction a as [|x a IH]; intros [|y b] Hlen H; try discriminate.
  - done.
  - rewrite !count_true_cons.
    specialize (IH b ltac:(simpl in Hlen; lia) (fun j => H (S j))).
    destruct x; [|destruct y; lia].
    specialize (H 0%nat eq_refl). injection H as ->. lia.
Qed.

Lemma detections_any_row (ncols : nat) (P : list (list Q)) :
  detections ncols P = any_row ncols (map (map indicator) P).
Proof. reflexivity. Qed.

(** X16: the detection probability is at most the fraction of the trials that
    are in view of one station at least. *)
Theorem pdet_at_most_fraction_in_view (E : Env)
    (ra dec : Q) (lat lon altitude orientations fov : list Q)
    (tauexit : list Q -> list (option Q) * list Q)
    (voltage : VoltageArgs -> list (list Q))
    (maxview : Q) (N antennas : Z) (freqs : list Q) (trigger_SNR : Q)
    (s : state) :
  let Ag := batch E ra dec lat lon altitude orientations fov maxview N in
  let n := length (trials Ag) in
  let GV := view_angle E (trials Ag) (stations_geocentric Ag) (axis Ag) in
  shapes_agree E Ag tauexit voltage -> emergence Ag <> [] ->
  exists geometric pexit pdet effective_area s',
    calculate E ra dec lat lon altitude orientations fov tauexit voltage
              maxview N antennas freqs trigger_SNR s
    = Ok ([geometric; pexit; Fin pdet; effective_area], s') /\
    (pdet <= nat2q (count_true (in_view_of_some_station maxview n GV))
             / nat2q n)%Q.
Proof.
  intros Ag n GV Hshapes Hne.
  destruct (calculate_rows_here E ra dec lat lon altitude orientations fov
              tauexit voltage maxview N antennas freqs trigger_SNR s
              Hshapes Hne)
    as (dl & es & buf & calls & s' & _ & _ & Hlen & H01 & Hlc & Hall & Hrun
        & _).
  fold Ag n GV in Hlen, Hall, Hrun.
  set (M := length (stations_geocentric Ag)) in *.
  set (P := rows_of M n buf) in *.
  assert (0 < n)%nat as Hn.
  { pose proof (sa_emergence _ _ _ _ Hshapes) as He. fold Ag n in He.
    destruct (emergence Ag); [done|]. simpl in He. lia. }
  assert (Forall (fun r => length r = n) P) as Hrows
    by (apply rows_of_rows; done).
  assert (Forall (fun r => length r = n) GV) as HGV
    by (apply (sa_view_rows _ _ _ _ Hshapes)).
  destruct (sum_axis0_detections n P (rows_of_Forall is01 M n buf H01))
    as [_ Hdet].
  unfold aggregate_value in Hrun. rewrite Hdet in Hrun.
  rewrite np_mean_nonempty in Hrun; cycle 1.
  { intros H0. apply (f_equal length) in H0.
    rewrite length_map, detections_length in H0 by done. simpl in H0. lia. }
  do 5 eexists. split; [exact Hrun|].
  rewrite np_sum_b2q, length_map, detections_length by done.
  pose proof (nat2q_pos n Hn) as Hnq.
  apply Qmult_le_compat_r; [|apply Qlt_le_weak, Qinv_lt_0_compat; done].
  apply nat2q_le, count_true_mono.
  - rewrite detections_length by done. unfold in_view_of_some_station.
    rewrite any_row_length; [done|].
    rewrite Forall_forall. intros r Hr.
    apply list_elem_of_In, in_map_iff in Hr as (gv & <- & Hgv).
    unfold in_sight_mask. rewrite length_map.
    rewrite Forall_forall in HGV. apply HGV, list_elem_of_In. done.
  - intros j Hj. rewrite detections_any_row in Hj.
    apply any_row_true in Hj as (r & Hin & Hr); cycle 1.
    { rewrite Forall_forall. intros r Hr.
      apply list_elem_of_In, in_map_iff in Hr as (row & <- & Hrow).
      rewrite length_map. rewrite Forall_forall in Hrows.
      apply Hrows, list_elem_of_In. done. }
    apply list_elem_of_In, in_map_iff in Hin as (row & <- & Hrow).
    apply list_elem_of_In, list_elem_of_lookup in Hrow as [i Hi].
    apply lookup_lt_Some in Hi as Him. unfold P in Him.
    rewrite rows_of_length in Him.
    destruct (Hall i Him) as (gv & args & Hgv & _ & _ & _ & Hrow).
    fold P in Hrow. rewrite Hi in Hrow. injection Hrow as ->.
    unfold in_view_of_some_station. apply any_row_true.
    { rewrite Forall_forall. intros r Hr'.
      apply list_elem_of_In, in_map_iff in Hr' as (gv' & <- & Hgv').
      unfold in_sight_mask. rewrite length_map.
      rewrite Forall_forall in HGV. apply HGV, list_elem_of_In. done. }
    exists (in_sight_mask maxview gv). split.
    { apply list_elem_of_In, in_map, list_elem_of_In, list_elem_of_lookup.
      eauto. }
    rewrite lookup_map in Hr.
    destruct (in_sight_mask maxview gv !! j) as [[]|] eqn:Hm; [done| |].
    + rewrite scatter_lookup_false in Hr by done.
      apply lookup_lt_Some in Hm.
      rewrite lookup_replicate_2 in Hr; [discriminate|].
      unfold in_sight_mask in Hm. rewrite length_map in Hm.
      rewrite Forall_forall in HGV.
      rewrite <- (HGV gv); [done|]. apply list_elem_of_lookup. eauto.
    + apply lookup_ge_None in Hm.
      destruct (scatter _ _ _ !! j) as [q|] eqn:Hq; [|discriminate].
      apply lookup_lt_Some in Hq.
      rewrite scatter_length, length_replicate in Hq.
      unfold in_sight_mask in Hm. rewrite length_map in Hm.
      rewrite Forall_forall in HGV.
      rewrite (HGV gv) in Hm; [lia|]. apply list_elem_of_lookup. eauto.
Qed.

(** ** A station that sees and triggers on every trial *)

Lemma scatter_all_true {A} (a : list A) :
  forall v : list A,
    length v = length a -> scatter a (replicate (length a) true) v = v.
Proof.
  induction a as [|x a IH]; intros [|y v] Hlen; try discriminate; [done|].
  cbn. rewrite IH by (simpl in Hlen; lia). done.
Qed.

Lemma masked_mul_true (X : list (option Q)) :
  forall k : nat,
    (length X <= k)%nat ->
    ma_count (zip_with masked_mul X (replicate k true)) = ma_count X /\
    (np_sum (filled0 (zip_with masked_mul X (replicate k true)))
     == np_sum (filled0 X))%Q.
Proof.
  unfold ma_count.
  induction X as [|x X IH]; intros k Hk; [destruct k; done|].
  destruct k as [|k]; [simpl in Hk; lia|].
  destruct (IH k ltac:(simpl in Hk; lia)) as [IH1 IH2].
  cbn [replicate zip_with map]. rewrite !count_true_cons.
  unfold filled0 in *. cbn [map np_sum foldr].
  fold (np_sum (map (fun o : option Q =>
                       match o with Some q => q | None => 0%Q end)
                    (zip_with masked_mul X (replicate k true)))).
  fold (np_sum (map (fun o : option Q =>
                       match o with Some q => q | None => 0%Q end) X)).
  rewrite IH2. destruct x; cbn [masked_mul b2q]; split; try lia; ring.
Qed.

(** X17: when one station has every trial in view and every row of
    voltages the model returned to the run has an SNR above
    [trigger_SNR], every trial is detected: [pdet] is 1, and
    [effective_area] is
    [np.sum(Ag.area * Ag.dot * Pexit) / (N * n_stations)], nan when every
    exit probability is masked. *)
Theorem calculate_all_detected (E : Env)
    (ra dec : Q) (lat lon altitude orientations fov : list Q)
    (tauexit : list Q -> list (option Q) * list Q)
    (voltage : VoltageArgs -> list (list Q))
    (maxview : Q) (N antennas : Z) (freqs : list Q) (trigger_SNR : Q)
    (s : state) (i : nat) (gv : list Q) :
  let Ag := batch E ra dec lat lon altitude orientations fov maxview N in
  let M := length (stations_geocentric Ag) in
  let GV := view_angle E (trials Ag) (stations_geocentric Ag) (axis Ag) in
  let Pexit := exit_probabilities E ra dec lat lon altitude orientations fov
                                  tauexit maxview N in
  let run := calculate E ra dec lat lon altitude orientations fov tauexit
                       voltage maxview N antennas freqs trigger_SNR s in
  shapes_agree E Ag tauexit voltage -> emergence Ag <> [] -> N <> 0%Z ->
  GV !! i = Some gv -> Forall (fun g => g <= maxview)%Q gv ->
  Forall (fun args =>
            Forall (fun row => triggers (Vrms E freqs antennas) trigger_SNR
                                        row = true) (voltage args))
         (voltage_calls (calls_of_run s run)) ->
  exists geometric pexit pdet effective_area s',
    run = Ok ([geometric; pexit; Fin pdet; effective_area], s') /\
    (pdet == 1)%Q /\
    npval_eq effective_area
      (match ma_sum (zip_with mul_masked (map (Qmult (area Ag)) (dot Ag))
                              Pexit) with
       | Some t => Fin (t / normalisation N M)
       | None => NaN
       end).
Proof.
  intros Ag M GV Pexit run Hshapes Hne HN Hgv Hsee Hall1.
  destruct (calculate_rows_here E ra dec lat lon altitude orientations fov
              tauexit voltage maxview N antennas freqs trigger_SNR s
              Hshapes Hne)
    as (dl & es & buf & calls & s' & _ & _ & Hlen & H01 & Hlc & Hall & Hrun
        & _ & Hlog).
  fold Ag M GV Pexit run in Hlen, Hall, Hrun, Hlog, Hlc.
  rewrite Hrun, (voltage_calls_of_run _ _ _ _ _ _ _ _ _ _ Hlog Hlc) in Hall1.
  set (n := length (trials Ag)) in *.
  set (P := rows_of M n buf) in *.
  assert (0 < n)%nat as Hn.
  { pose proof (sa_emergence _ _ _ _ Hshapes) as He. fold Ag n in He.
    destruct (emergence Ag); [done|]. simpl in He. lia. }
  assert (i < M)%nat as Hi.
  { apply lookup_lt_Some in Hgv. unfold GV in Hgv.
    rewrite (sa_view _ _ _ _ Hshapes) in Hgv. done. }
  assert (Forall (fun r => length r = n) P) as Hrows
    by (apply rows_of_rows; done).
  assert (length gv = n) as Hgvl.
  { pose proof (sa_view_rows _ _ _ _ Hshapes (trials Ag)
                  (stations_geocentric Ag) (axis Ag)) as Hr.
    rewrite Forall_forall in Hr. apply Hr, list_elem_of_lookup. eauto. }
  (* the row of station [i] is all ones *)
  assert (P !! i = Some (replicate n 1%Q)) as Hrow.
  { destruct (Hall i Hi) as (gv' & args & Hgv' & Hc & _ & Hvl & Hrow).
    rewrite Hgv in Hgv'. injection Hgv' as <-.
    rewrite Hrow. f_equal.
    assert (in_sight_mask maxview gv = replicate n true) as Hm.
    { symmetry. apply replicate_as_Forall. unfold in_sight_mask.
      split; [rewrite length_map; done|].
      rewrite Forall_forall. intros x Hx.
      apply list_elem_of_In, in_map_iff in Hx as (g & <- & Hg).
      rewrite Forall_forall in Hsee. apply list_elem_of_In, Hsee in Hg.
      symmetry. apply Qle_bool_iff. done. }
    rewrite Hm in Hvl |- *. rewrite count_true_replicate in Hvl.
    assert (trigger_values (Vrms E freqs antennas) trigger_SNR (voltage args)
            = replicate n 1%Q) as ->.
    { symmetry. apply replicate_as_Forall. unfold trigger_values.
      split; [rewrite length_map; done|].
      rewrite Forall_forall. intros x Hx.
      apply list_elem_of_In, in_map_iff in Hx as (r & <- & Hr).
      pose proof (Forall_lookup_1 _ _ _ _ Hall1 Hc) as Hargs.
      rewrite Forall_forall in Hargs.
      apply list_elem_of_In, Hargs in Hr. unfold triggers in Hr.
      rewrite Hr. done. }
    rewrite <- (length_replicate n 0%Q) at 2.
    apply scatter_all_true. rewrite !length_replicate. done. }
  (* so every trial is detected *)
  assert (detections n P = replicate n true) as Hdet1.
  { symmetry. apply replicate_as_Forall.
    split; [apply detections_length; done|].
    apply Forall_lookup. intros j x Hj.
    apply lookup_lt_Some in Hj as Hjn.
    rewrite detections_length in Hjn by done.
    assert (detections n P !! j = Some true) as Ht.
    { rewrite detections_any_row. apply any_row_true.
      - rewrite Forall_forall. intros r Hr.
        apply list_elem_of_In, in_map_iff in Hr as (row & <- & Hr).
        rewrite length_map. rewrite Forall_forall in Hrows.
        apply Hrows, list_elem_of_In. done.
      - exists (map indicator (replicate n 1%Q)). split.
        + apply list_elem_of_In, in_map, list_elem_of_In,
            list_elem_of_lookup. eauto.
        + rewrite lookup_map, lookup_replicate_2 by done. done. }
    rewrite Hj in Ht. injection Ht as ->. done. }
  destruct (sum_axis0_detections n P (rows_of_Forall is01 M n buf H01))
    as [_ Hdet].
  unfold aggregate_value in Hrun. rewrite Hdet, Hdet1 in Hrun.
  assert (0 < M)%nat as HM by lia.
  pose proof (normalisation_nonzero N M HN HM) as Hd.
  rewrite np_mean_nonempty in Hrun; cycle 1.
  { intros H0. apply (f_equal length) in H0.
    rewrite length_map, length_replicate in H0. simpl in H0. lia. }
  do 5 eexists. split; [exact Hrun|]. split.
  - rewrite np_sum_b2q, length_map, length_replicate, count_true_replicate.
    pose proof (nat2q_pos n Hn). field. lra.
  - set (X := zip_with mul_masked (map (Qmult (area Ag)) (dot Ag)) Pexit).
    destruct (masked_mul_true X n) as [Hc Hs].
    { unfold X. rewrite length_zip_with, length_map.
      pose proof (sa_dot _ _ _ _ Hshapes). fold Ag n in H. lia. }
    unfold ma_sum. rewrite Hc.
    destruct (ma_count X =? 0)%nat; [done|].
    rewrite np_div_nonzero by done. cbn [unmask npval_eq]. rewrite Hs.
    unfold normalisation, nat2q. rewrite inject_Z_mult. reflexivity.
Qed.

(** ** The further properties on the small configuration *)

Lemma shower_counts_witness :
  exists q, Pem sampler_env = Fin q /\ (0 <= q <= 1)%Q.
Proof.
  destruct (shower_counts sampler_env) as (_ & _ & _ & _ & H & _).
  apply H. vm_compute. lia.
Defined.

Lemma sample_range_spec_witness :
  exists ranges s',
    sample_range sampler_env [100; 200]%Q state0 = Ok (ranges, s') /\
    length ranges = 2%nat.
Proof.
  destruct (sample_range_spec sampler_env [100; 200]%Q state0
              ltac:(repeat constructor; vm_compute; discriminate))
    as (ranges & Hrun & Hlen & _).
  exists ranges. eexists. split; [exact Hrun|exact Hlen].
Defined.

Lemma sample_range_negative_energy_witness :
  sample_range sampler_env [100; -1]%Q state0
  = Raise (ValueError "scale < 0").
Proof.
  apply sample_range_negative_energy.
  apply Exists_cons_tl, Exists_cons_hd. reflexivity.
Defined.

Lemma sample_tau_energies_spec_witness :
  exists energies s',
    sample_tau_energies sampler_env 1000 3 state0 = Ok (energies, s') /\
    length energies = 3%nat.
Proof.
  destruct (sample_tau_energies_spec sampler_env 1000 3 state0 ltac:(lia)
              sampler_env_Nem sampler_env_Nhad)
    as (energies & Hrun & Hlen & _).
  exists energies. eexists. split; [exact Hrun|exact Hlen].
Defined.

Lemma sampler_negative_count_witness :
  sample_tau_energies sampler_env 1000 (-1) state0
  = Raise (ValueError "negative dimensions are not allowed").
Proof.
  apply (sampler_negative_count sampler_env 1000 (-1) state0). lia.
Defined.

Lemma sample_energy_fraction_empty_category_witness :
  sample_energy_fraction (with_decays sampler_env hadronic_decays)
                         [0; 0]%Z state0
  = Raise (ValueError "array of sample points is empty").
Proof.
  apply sample_energy_fraction_empty_category. left. reflexivity.
Defined.

Lemma example_draws_unit (i : nat) : (0 <= example_draws i < 1)%Q.
Proof.
  unfold example_draws.
  pose proof (Nat.mod_upper_bound (3 * i + 1) 8 ltac:(lia)) as H.
  generalize dependent ((3 * i + 1) `mod` 8)%nat. intros k Hk.
  unfold Qle, Qlt, Qdiv, Qmult, Qinv, inject_Z. simpl. lia.
Qed.

Lemma sample_shower_type_extremes_witness :
  exists s',
    sample_shower_type (with_decays sampler_env electromagnetic_decays) 3
                       state0
    = Ok ([Hadronic; Hadronic; Hadronic], s').
Proof.
  destruct (sample_shower_type_extremes
              (with_decays sampler_env electromagnetic_decays) 3 state0
              example_draws_unit ltac:(vm_compute; lia))
    as (stypes & s' & Hrun & Hall & _).
  exists s'. rewrite (Hall eq_refl) in Hrun. exact Hrun.
Defined.

Lemma calculate_ignores_horizon_witness :
  exists out s1 s2,
    example_calculate two_trials (17 # 10) 100 (-1 # 30) (Some 1%Q) 100 10
                      state0 = Ok (out, s1) /\
    example_calculate two_trials (17 # 10) 0 2 (Some 1%Q) 100 10 state0
      = Ok (out, s2).
Proof.
  destruct (calculate_ignores_horizon
              (example_env two_trials (17 # 10) 100 (-1 # 30))
              0 0 [] [] [] [] [] (example_tauexit (Some 1%Q))
              (example_voltage 100) (3 # 100) 10 4 [35; 45; 55; 65; 75]%Q 5
              (fun _ _ => 0%Q) (fun _ _ => 2%Q) state0
              (example_shapes 2 [example_station] (17 # 10) 100 (-1 # 30)
                              (Some 1%Q) 100))
    as (out & s1 & s2 & H1 & H2 & _).
  exists out, s1, s2. split; [exact H1|exact H2].
Defined.

Lemma calculate_call_order_witness :
  exists calls,
    length calls = 1%nat /\
    trace_of (example_calculate two_trials (17 # 10) 100 (-1 # 30)
                                (Some 1%Q) 100 10 state0)
    = preamble (example_env two_trials (17 # 10) 100 (-1 # 30)) two_trials
               (example_tauexit (Some 1%Q)) 10 4 [35; 45; 55; 65; 75]%Q
      ++ loop_trace (example_env two_trials (17 # 10) 100 (-1 # 30))
                    [example_station] 0 calls.
Proof.
  exact (calculate_call_order
           (example_env two_trials (17 # 10) 100 (-1 # 30))
           0 0 [] [] [] [] [] (example_tauexit (Some 1%Q))
           (example_voltage 100) (3 # 100) 10 4 [35; 45; 55; 65; 75]%Q 5
           state0
           (example_shapes 2 [example_station] (17 # 10) 100 (-1 # 30)
                           (Some 1%Q) 100)
           ltac:(discriminate)).
Defined.

Lemma calculate_altitudes_witness :
  altitudes_handed_over
    (trace_of (example_calculate two_trials (17 # 10) 100 (-1 # 30)
                                 (Some 1%Q) 100 10 state0))
  = replicate 3 (detector_altitude
                   (example_env two_trials (17 # 10) 100 (-1 # 30))
                   example_station).
Proof.
  exact (calculate_altitudes
           (example_env two_trials (17 # 10) 100 (-1 # 30))
           0 0 [] [] [] [] [] (example_tauexit (Some 1%Q))
           (example_voltage 100) (3 # 100) 10 4 [35; 45; 55; 65; 75]%Q 5
           state0
           (example_shapes 2 [example_station] (17 # 10) 100 (-1 # 30)
                           (Some 1%Q) 100)
           ltac:(discriminate)).
Defined.

Lemma voltage_call_shapes_witness :
  exists calls,
    trace_of (example_calculate two_trials (17 # 10) 100 (-1 # 30)
                                (Some 1%Q) 100 10 state0)
    = preamble (example_env two_trials (17 # 10) 100 (-1 # 30)) two_trials
               (example_tauexit (Some 1%Q)) 10 4 [35; 45; 55; 65; 75]%Q
      ++ loop_trace (example_env two_trials (17 # 10) 100 (-1 # 30))
                    [example_station] 0 calls /\
    forall args, calls !! 0%nat = Some args ->
                 length (va_exit_zenith args) = 2%nat /\
                 length (va_decay_length args) = 2%nat.
Proof.
  destruct (voltage_call_shapes
              (example_env two_trials (17 # 10) 100 (-1 # 30))
              0 0 [] [] [] [] [] (example_tauexit (Some 1%Q))
              (example_voltage 100) (3 # 100) 10 4 [35; 45; 55; 65; 75]%Q 5
              state0
              (example_shapes 2 [example_station] (17 # 10) 100 (-1 # 30)
                              (Some 1%Q) 100)
              ltac:(discriminate))
    as (calls & Htrace & Hargs).
  exists calls. split; [exact Htrace|].
  intros args Hc.
  destruct (Hargs 0%nat args [0; 0]%Q Hc eq_refl)
    as (_ & H1 & _ & H2 & _).
  split; [exact H1|exact H2].
Defined.

Lemma Ptrig_after_the_loop_witness :
  exists buf rest s',
    example_calculate two_trials (17 # 10) 100 (-1 # 30) (Some 1%Q) 100 10
                      state0 = Ok (rest, s') /\
    heap s' !! 0%nat = Some buf /\
    length (rows_of 1 2 buf) = 1%nat.
Proof.
  destruct (Ptrig_after_the_loop
              (example_env two_trials (17 # 10) 100 (-1 # 30))
              0 0 [] [] [] [] [] (example_tauexit (Some 1%Q))
              (example_voltage 100) (3 # 100) 10 4 [35; 45; 55; 65; 75]%Q 5
              state0
              (example_shapes 2 [example_station] (17 # 10) 100 (-1 # 30)
                              (Some 1%Q) 100)
              ltac:(discriminate))
    as (buf & calls & s' & Hrun & Hheap & _ & Hlen & _).
  exists buf. do 2 eexists. split; [exact Hrun|].
  split; [exact Hheap|exact Hlen].
Defined.

Lemma trial_out_of_view_not_detected_witness :
  exists buf rest s',
    calculate (example_env two_trials (17 # 10) 100 (-1 # 30))
              0 0 [] [] [] [] [] (example_tauexit (Some 1%Q))
              (example_voltage 100) (-1) 10 4 [35; 45; 55; 65; 75]%Q 5
              state0 = Ok (rest, s') /\
    heap s' !! 0%nat = Some buf /\
    Pdet_of 2 (rows_of 1 2 buf) !! 1%nat = Some false.
Proof.
  destruct (trial_out_of_view_not_detected
              (example_env two_trials (17 # 10) 100 (-1 # 30))
              0 0 [] [] [] [] [] (example_tauexit (Some 1%Q))
              (example_voltage 100) (-1) 10 4 [35; 45; 55; 65; 75]%Q 5
              state0 1
              (example_shapes 2 [example_station] (17 # 10) 100 (-1 # 30)
                              (Some 1%Q) 100)
              ltac:(discriminate) ltac:(simpl; lia))
    as (buf & s' & Hrun & Hheap & Hdet).
  { intros [|i] gv Hgv; [|discriminate].
    injection Hgv as <-. exists 0%Q. split; reflexivity. }
  exists buf. do 2 eexists. split; [exact Hrun|].
  split; [exact Hheap|exact Hdet].
Defined.

Lemma calculate_no_trigger_witness :
  exists geometric pexit pdet effective_area s',
    example_calculate two_trials (17 # 10) 100 (-1 # 30) (Some 1%Q) 1 10
                      state0
    = Ok ([geometric; pexit; Fin pdet; effective_area], s') /\
    (pdet == 0)%Q.
Proof.
  destruct (calculate_no_trigger
              (example_env two_trials (17 # 10) 100 (-1 # 30))
              0 0 [] [] [] [] [] (example_tauexit (Some 1%Q))
              (example_voltage 1) (3 # 100) 10 4 [35; 45; 55; 65; 75]%Q 5
              state0
              (example_shapes 2 [example_station] (17 # 10) 100 (-1 # 30)
                              (Some 1%Q) 1)
              ltac:(discriminate) ltac:(discriminate) ltac:(simpl; lia))
    as (g & pe & pd & ea & s' & Hrun & Hpd & _).
  { vm_compute. repeat constructor. }
  exists g, pe, pd, ea, s'. split; [exact Hrun|exact Hpd].
Defined.

Lemma pdet_at_most_fraction_in_view_witness :
  exists geometric pexit pdet effective_area s',
    calculate (example_env two_trials (17 # 10) 100 (-1 # 30))
              0 0 [] [] [] [] [] (example_tauexit (Some 1%Q))
              (example_voltage 100) (-1) 10 4 [35; 45; 55; 65; 75]%Q 5
              state0
    = Ok ([geometric; pexit; Fin pdet; effective_area], s') /\
    (pdet <= 0)%Q.
Proof.
  destruct (pdet_at_most_fraction_in_view
              (example_env two_trials (17 # 10) 100 (-1 # 30))
              0 0 [] [] [] [] [] (example_tauexit (Some 1%Q))
              (example_voltage 100) (-1) 10 4 [35; 45; 55; 65; 75]%Q 5
              state0
              (example_shapes 2 [example_station] (17 # 10) 100 (-1 # 30)
                              (Some 1%Q) 100)
              ltac:(discriminate))
    as (g & pe & pd & ea & s' & Hrun & Hpd).
  exists g, pe, pd, ea, s'. split; [exact Hrun|].
  eapply Qle_trans; [exact Hpd|]. vm_compute. discriminate.
Defined.

Lemma calculate_all_detected_witness :
  exists geometric pexit pdet effective_area s',
    example_calculate two_trials (17 # 10) 100 (-1 # 30) (Some 1%Q) 100 10
                      state0
    = Ok ([geometric; pexit; Fin pdet; effective_area], s') /\
    (pdet == 1)%Q.
Proof.
  destruct (calculate_all_detected
              (example_env two_trials (17 # 10) 100 (-1 # 30))
              0 0 [] [] [] [] [] (example_tauexit (Some 1%Q))
              (example_voltage 100) (3 # 100) 10 4 [35; 45; 55; 65; 75]%Q 5
              state0 0 [0; 0]%Q
              (example_shapes 2 [example_station] (17 # 10) 100 (-1 # 30)
                              (Some 1%Q) 100)
              ltac:(discriminate) ltac:(discriminate) eq_refl
              ltac:(repeat constructor; vm_compute; discriminate))
    as (g & pe & pd & ea & s' & Hrun & Hpd & _).
  { vm_compute. repeat constructor. }
  exists g, pe, pd, ea, s'. split; [exact Hrun|exact Hpd].
Defined.

Lemma example_shapes_any (Ag0 : GeometricArea) (n : nat)
    (stations : list vec3) (theta0 hd ha : Q) (p : option Q) (v : Q) :
  shapes_agree (example_env Ag0 theta0 hd ha)
               (example_batch n stations)
               (example_tauexit p) (example_voltage v).
Proof.
  split; cbn [example_env example_batch example_tauexit example_voltage
              emergence trials dot stations_geodetic stations_geocentric
              Ag_orientations Ag_fov dbeacon cartesian_to_spherical
              decay_zenith_azimuth view_angle obs_zenith_azimuth fst snd];
    intros; rewrite ?length_map, ?length_replicate; try done.
  - vm_compute. lia.
  - vm_compute. lia.
  - rewrite Forall_forall. intros r Hr.
    apply list_elem_of_In, in_map_iff in Hr as (x & <- & _).
    apply length_replicate.
  - rewrite Forall_forall. intros e He.
    apply list_elem_of_In, in_map_iff in He as (x & <- & _). done.
  - rewrite Forall_forall. intros r Hr.
    apply list_elem_of_In, in_map_iff in Hr as (x & <- & _).
    apply length_map.
  - unfold example_voltage. apply length_map.
Qed.

Lemma calculate_checks_nothing_witness :
  exists geometric pexit pdet effective_area s',
    example_calculate (short_dot_batch 3 [example_station]) (17 # 10) 100
                      (-1 # 30) (Some 1%Q) 100 (-10) state0
    = Ok ([Fin geometric; pexit; pdet; effective_area], s') /\
    (geometric == 50 * (1 # 2) / normalisation (-10) 1)%Q.
Proof.
  destruct (calculate_checks_nothing
              (example_env (short_dot_batch 3 [example_station])
                           (17 # 10) 100 (-1 # 30))
              0 0 [] [] [] [] [] (example_tauexit (Some 1%Q))
              (example_voltage 100) (3 # 100) (-10) 4 [35; 45; 55; 65; 75]%Q
              5 (replicate 3 (1 # 2)) state0
              (example_shapes_any (short_dot_batch 3 [example_station]) 3
                 [example_station] (17 # 10) 100 (-1 # 30) (Some 1%Q) 100)
              ltac:(discriminate) ltac:(discriminate) ltac:(simpl; lia))
    as (_ & Hone & _).
  destruct (Hone (1 # 2) eq_refl)
    as (g & pe & pd & ea & s' & buf & Hrun & _ & Hg & _).
  exists g, pe, pd, ea, s'. split; [exact Hrun|exact Hg].
Defined.
